(** * GEasy: review ingestion, reconciliation and ranking

    A shallow embedding of [bruinwalk_scraper.py] (the review parser
    [_parse_review_element] and the store writer [_save_course_to_db]) and of
    the two ranking queries of [app_sql.py], with the properties the
    specification states about them.

    Conventions of the embedding.
    - A Python [str] is a Rocq [string]; its characters are read as the code
      points U+0000..U+00FF.  On that range [\d] is [0-9], [\s] is the twelve
      white-space code points of [str.isspace], [\w] is the Latin-1
      alphanumerics plus [_], and [re.I] only identifies the two cases of an
      ASCII letter.
    - A Python [float] is a [spec_float] of the Standard Library at binary64
      (precision 53, maximal exponent 1024).
    - A [dict] with a fixed set of keys is a record; the professor cache is a
      [gmap string Z].
    - The DuckDB connection is a record of four tables (lists of rows in
      insertion order) together with the journal of the INSERT statements
      it executed. *)

From Stdlib Require Import ZArith QArith Qround Qabs Ascii String Bool.
From Stdlib Require Import Floats.SpecFloat.
From stdpp Require Import base tactics option list strings gmap sorting.

#[local] Open Scope Z_scope.
#[local] Open Scope string_scope.

(** ** Characters *)

Module Chars.

Definition code (c : ascii) : nat := nat_of_ascii c.

Definition between (lo hi : nat) (c : ascii) : bool :=
  (lo <=? code c)%nat && (code c <=? hi)%nat.

(** [\d] *)
Definition is_digit (c : ascii) : bool := between 48 57 c.

(** [\s], and the characters [str.strip()] removes *)
Definition is_space (c : ascii) : bool :=
  between 9 13 c || between 28 32 c || (code c =? 133)%nat || (code c =? 160)%nat.

Definition is_upper (c : ascii) : bool := between 65 90 c.
Definition is_lower (c : ascii) : bool := between 97 122 c.

(** [\w] *)
Definition is_word (c : ascii) : bool :=
  is_digit c || is_upper c || is_lower c || (code c =? 95)%nat
  || (code c =? 170)%nat || between 178 179 c || (code c =? 181)%nat
  || between 185 186 c || between 188 190 c
  || between 192 214 c || between 216 246 c || between 248 255 c.

(** [.] without [re.DOTALL] *)
Definition not_newline (c : ascii) : bool := negb (code c =? 10)%nat.

Definition to_lower (c : ascii) : ascii :=
  if is_upper c then ascii_of_nat (code c + 32) else c.
Definition to_upper (c : ascii) : ascii :=
  if is_lower c then ascii_of_nat (code c - 32) else c.

(** a literal character of a pattern *)
Definition lit (c : ascii) : ascii -> bool := fun x => Ascii.eqb x c.
(** a literal character of a pattern compiled with [re.I].  On a [str],
    [re.I] also lets [i] match U+0130 and U+0131, [s] match U+017F and [k]
    match U+212A; these code points are above the ones strings are read
    with here. *)
Definition lit_i (c : ascii) : ascii -> bool :=
  fun x => Ascii.eqb (to_lower x) (to_lower c).
(** a character set such as [[+-]] *)
Definition one_of (cs : string) : ascii -> bool :=
  fun x => existsb (Ascii.eqb x) (list_ascii_of_string cs).

End Chars.

(** ** Strings *)

Module Str.

Fixpoint drop_while (p : ascii -> bool) (s : string) : string :=
  match s with
  | String c s' => if p c then drop_while p s' else s
  | EmptyString => EmptyString
  end.

Definition rev (s : string) : string :=
  string_of_list_ascii (List.rev (list_ascii_of_string s)).

(** [s.strip()] *)
Definition strip (s : string) : string :=
  rev (drop_while Chars.is_space (rev (drop_while Chars.is_space s))).

(** [s[:n]] *)
Definition take (n : nat) (s : string) : string := String.substring 0 n s.

(** [s.title()]: a cased character is upper-cased when the character before
    it is not cased and lower-cased when it is.  Only the ASCII letters count
    as cased here; the parser calls it on a matched season word. *)
Fixpoint title_from (prev_cased : bool) (s : string) : string :=
  match s with
  | EmptyString => EmptyString
  | String c s' =>
      let cased := Chars.is_upper c || Chars.is_lower c in
      String (if prev_cased then Chars.to_lower c else Chars.to_upper c)
             (title_from cased s')
  end.
Definition title (s : string) : string := title_from false s.

(** the part of [s] that was consumed when [rest] is what remains of it *)
Definition consumed (s rest : string) : string :=
  take (String.length s - String.length rest) s.

Fixpoint all (p : ascii -> bool) (s : string) : bool :=
  match s with
  | EmptyString => true
  | String c s' => p c && all p s'
  end.

End Str.

(** ** Regular expressions, as [re] matches them

    A backtracking matcher in continuation-passing style: alternatives are
    tried left to right, a greedy repetition tries one more iteration before
    it tries to stop, a lazy one the other way round, and [re.search] tries
    the start positions from the left. *)

Module Re.

Inductive regex : Type :=
| Empty
| Char (p : ascii -> bool)
| Cat (r1 r2 : regex)
| Alt (r1 r2 : regex)
| Star (greedy : bool) (r : regex)
| Group (n : nat) (r : regex)
| WordBoundary.

Abbreviation groups := (gmap nat string).

Definition cont := option ascii -> string -> groups -> option groups.

Definition word_before (prev : option ascii) : bool :=
  match prev with Some c => Chars.is_word c | None => false end.
Definition word_after (s : string) : bool :=
  match s with String c _ => Chars.is_word c | EmptyString => false end.

(** The loop of a repetition: [body] matches one iteration, which has to
    consume at least one character; [fuel] is the length of the input at the
    start, so that it never runs out before the input does. *)
Fixpoint star_loop (body : option ascii -> string -> groups -> cont -> option groups)
    (greedy : bool) (k : cont) (fuel : nat)
    (prev : option ascii) (s : string) (caps : groups) {struct fuel}
    : option groups :=
  let again (_ : unit) :=
    match fuel with
    | O => None
    | S fuel' =>
        body prev s caps (fun prev' s' caps' =>
          if (String.length s' <? String.length s)%nat
          then star_loop body greedy k fuel' prev' s' caps' else None)
    end in
  if greedy
  then match again () with Some g => Some g | None => k prev s caps end
  else match k prev s caps with Some g => Some g | None => again () end.

(** [rmatch r prev s caps k]: match [r] at the front of [s], where [prev] is
    the character before the position, then continue with [k]. *)
Fixpoint rmatch (r : regex) (prev : option ascii) (s : string) (caps : groups)
    (k : cont) {struct r} : option groups :=
  match r with
  | Empty => k prev s caps
  | Char p =>
      match s with
      | String c s' => if p c then k (Some c) s' caps else None
      | EmptyString => None
      end
  | Cat r1 r2 =>
      rmatch r1 prev s caps (fun prev' s' caps' => rmatch r2 prev' s' caps' k)
  | Alt r1 r2 =>
      match rmatch r1 prev s caps k with
      | Some g => Some g
      | None => rmatch r2 prev s caps k
      end
  | Star greedy r' =>
      star_loop (rmatch r') greedy k (String.length s) prev s caps
  | Group n r' =>
      rmatch r' prev s caps
        (fun prev' s' caps' => k prev' s' (<[n := Str.consumed s s']> caps'))
  | WordBoundary =>
      if xorb (word_before prev) (word_after s) then k prev s caps else None
  end.

Definition accept : cont := fun _ _ caps => Some caps.

Fixpoint search_from (r : regex) (prev : option ascii) (s : string)
    : option groups :=
  match rmatch r prev s ∅ accept with
  | Some g => Some g
  | None =>
      match s with
      | String c s' => search_from r (Some c) s'
      | EmptyString => None
      end
  end.

(** [re.search(pattern, s)] *)
Definition search (r : regex) (s : string) : option groups :=
  search_from r None s.

(** Pattern syntax *)
Definition plus (r : regex) : regex := Cat r (Star true r).
Definition opt (r : regex) : regex := Alt r Empty.
Fixpoint cats (rs : list regex) : regex :=
  match rs with
  | [] => Empty
  | [r] => r
  | r :: rs' => Cat r (cats rs')
  end.
Fixpoint word_with (f : ascii -> ascii -> bool) (w : string) : regex :=
  match w with
  | EmptyString => Empty
  | String c EmptyString => Char (f c)
  | String c w' => Cat (Char (f c)) (word_with f w')
  end.
(** a literal word, and a literal word under [re.I] *)
Definition word (w : string) : regex := word_with Chars.lit w.
Definition word_i (w : string) : regex := word_with Chars.lit_i w.
Definition digit : regex := Char Chars.is_digit.
Definition spaces : regex := Star true (Char Chars.is_space).

End Re.

(** ** Python numbers *)

Module Py.

(** binary64 *)
Definition prec : Z := 53.
Definition emax : Z := 1024.

Definition float : Type := spec_float.

(** the float of an integer *)
Definition float_of_Z (n : Z) : float := binary_normalize prec emax n 0 false.

Definition zero : float := S754_zero false.

(** the correctly rounded quotient [m / 10^k] of a decimal literal with
    digits [m] and [k] digits after the point *)
Definition float_of_decimal (m : Z) (k : nat) : float :=
  match m with
  | Zpos p => SFdiv prec emax (S754_finite false p 0)
                (S754_finite false (Z.to_pos (10 ^ Z.of_nat k)) 0)
  | _ => zero
  end.

Definition digit_value (c : ascii) : Z := Z.of_nat (Chars.code c) - 48.

Fixpoint digits_value (acc : Z) (s : string) : Z :=
  match s with
  | EmptyString => acc
  | String c s' => digits_value (acc * 10 + digit_value c) s'
  end.

Definition is_digits (s : string) : bool :=
  negb (String.eqb s "") && Str.all Chars.is_digit s.

Fixpoint split_point (s : string) : string * option string :=
  match s with
  | EmptyString => (EmptyString, None)
  | String c s' =>
      if Ascii.eqb c "."%char then (EmptyString, Some s')
      else let '(a, b) := split_point s' in (String c a, b)
  end.

(** [float(s)] for the literals [digits] and [digits.digits]; [None] is the
    [ValueError].  The other literal forms [float] accepts (sign, exponent,
    blanks, [inf], [nan]) do not occur: the patterns capture
    [\d+(?:\.\d+)?]. *)
Definition float_of_string (s : string) : option float :=
  match split_point s with
  | (ip, None) =>
      if is_digits ip then Some (float_of_decimal (digits_value 0 ip) 0)
      else None
  | (ip, Some fp) =>
      if is_digits ip && is_digits fp
      then Some (float_of_decimal (digits_value 0 (ip ++ fp)) (String.length fp))
      else None
  end.

(** [int(s)] for a string of decimal digits; [None] is the [ValueError] *)
Definition int_of_string (s : string) : option Z :=
  if is_digits s then Some (digits_value 0 s) else None.

(** [int(x)] for a float: truncation towards zero; [None] is the exception
    [int] raises on an infinity or a NaN *)
Definition int_of_float (x : float) : option Z :=
  match x with
  | S754_zero _ => Some 0
  | S754_finite s m e =>
      let a := match e with
               | Zneg _ => Z.shiftr (Zpos m) (- e)
               | _ => Z.shiftl (Zpos m) e
               end in
      Some (if s then - a else a)
  | S754_infinity _ | S754_nan => None
  end.

Definition le (x y : float) : bool := SFleb x y.
Definition lt (x y : float) : bool := SFltb x y.

End Py.

(** ** The review parser of [bruinwalk_scraper.py] *)

Module Scraper.
Import Re.

(** A page fragment: the strings and tags below a review element. *)
#[warning="-register-all"]
Inductive node : Type :=
| Text (s : string)
| Tag (children : list node).

Definition element : Type := list node.

(** [elem.get_text()] *)
Fixpoint node_text (n : node) : string :=
  match n with
  | Text s => s
  | Tag cs => (fix go (l : list node) : string :=
                 match l with
                 | [] => ""
                 | c :: l' => node_text c ++ go l'
                 end) cs
  end.
Definition get_text (elem : element) : string := node_text (Tag elem).

(** [elem.find(string=True)]: the first string below [elem] *)
Fixpoint node_first_string (n : node) : option string :=
  match n with
  | Text s => Some s
  | Tag cs => (fix go (l : list node) : option string :=
                 match l with
                 | [] => None
                 | c :: l' =>
                     match node_first_string c with
                     | Some s => Some s
                     | None => go l'
                     end
                 end) cs
  end.
Definition find_string (elem : element) : option string :=
  node_first_string (Tag elem).

(** the [review_data] dictionary *)
Record review_data : Type := ReviewData {
  professor : string;
  dept : string;
  number : string;
  quality : Py.float;
  workload : Py.float;
  text : string;
  quarter : string;
  year : Z;
  grade : string;
  would_recommend : option bool
}.

(** [\d+(?:\.\d+)?] *)
Definition decimal : regex :=
  Cat (plus digit) (opt (Cat (Char (Chars.lit ".")) (plus digit))).
Definition colon_opt : regex := opt (Char (Chars.lit ":")).
Definition slash : regex := Char (Chars.lit "/").

Definition quality_patterns : list regex :=
  [ cats [Group 1 decimal; spaces; slash; spaces; word "5"];
    cats [Group 1 decimal; spaces; word_i "out"; spaces; word_i "of"; spaces;
          word "5"];
    cats [word_i "rating"; colon_opt; spaces; Group 1 decimal];
    cats [word_i "quality"; colon_opt; spaces; Group 1 decimal] ].

Definition workload_patterns : list regex :=
  [ cats [word_i "workload"; colon_opt; spaces; Group 1 decimal];
    cats [word_i "difficulty"; colon_opt; spaces; Group 1 decimal];
    cats [Group 1 decimal; spaces; slash; spaces; word "10";
          Star false (Char Chars.not_newline);
          Alt (word_i "workload") (word_i "difficulty")] ].

Definition quarter_pattern : regex :=
  cats [Group 1 (Alt (word_i "fall") (Alt (word_i "winter")
                  (Alt (word_i "spring") (word_i "summer"))));
        spaces;
        Group 2 (cats [digit; digit; digit; digit])].

Definition grade_pattern : regex :=
  cats [WordBoundary;
        Group 1 (Alt (Cat (Char (Chars.between 65 70))
                          (opt (Char (Chars.one_of "+-"))))
                     (Alt (word "P") (word "NP")));
        WordBoundary].

(** Computations that may raise into the enclosing [try]: [None] is an
    exception caught by the handler of [_parse_review_element]. *)
Definition raising (A : Type) : Type := option A.

(** [match.group(n)] followed by a use of the string: a group that took no
    part in the match is the Python [None], and using it raises. *)
Definition group (g : groups) (n : nat) : raising string := g !! n.

(** what one pattern of a cascade contributes: [Some v] when it matched and
    its value passed the range check *)
Definition try_pattern (hi : Py.float) (text_content : string) (pattern : regex)
    : raising (option Py.float) :=
  match search pattern text_content with
  | None => Some None
  | Some m =>
      s ← group m 1;
      match Py.float_of_string s with
      | None => Some None
      | Some v =>
          if Py.le Py.zero v && Py.le v hi then Some (Some v) else Some None
      end
  end.

(** the loop over the patterns with its [break] *)
Fixpoint cascade (hi : Py.float) (patterns : list regex) (text_content : string)
    : raising (option Py.float) :=
  match patterns with
  | [] => Some None
  | pattern :: rest =>
      r ← try_pattern hi text_content pattern;
      match r with
      | Some v => Some (Some v)
      | None => cascade hi rest text_content
      end
  end.

Definition five : Py.float := Eval vm_compute in Py.float_of_Z 5.
Definition ten : Py.float := Eval vm_compute in Py.float_of_Z 10.

Definition extract_quality (text_content : string) : raising (option Py.float) :=
  cascade five quality_patterns text_content.
Definition extract_workload (text_content : string) : raising (option Py.float) :=
  cascade ten workload_patterns text_content.

Definition extract_quarter (text_content : string)
    : raising (option (string * Z)) :=
  match search quarter_pattern text_content with
  | None => Some None
  | Some m =>
      q ← group m 1;
      y ← group m 2;
      n ← Py.int_of_string y;
      Some (Some (Str.title q, n))
  end.

Definition extract_grade (text_content : string) : raising (option string) :=
  match search grade_pattern text_content with
  | None => Some None
  | Some m => g ← group m 1; Some (Some g)
  end.

(** the text of the record: the first string of the element, or the whole
    text when there is none (or an empty one), stripped and cut at 500 *)
Definition review_text (elem : element) : string :=
  match find_string elem with
  | Some s => if String.eqb s "" then Str.take 500 (Str.strip (get_text elem))
              else Str.take 500 (Str.strip s)
  | None => Str.take 500 (Str.strip (get_text elem))
  end.

(** the record before the acceptance rule is applied *)
Definition candidate (elem : element) (professor dept number : string)
    : raising review_data :=
  let text_content := get_text elem in
  q ← extract_quality text_content;
  w ← extract_workload text_content;
  t ← extract_quarter text_content;
  g ← extract_grade text_content;
  Some {| professor := professor; dept := dept; number := number;
          quality := default Py.zero q;
          workload := default Py.zero w;
          text := review_text elem;
          quarter := default "" (fst <$> t);
          year := default 2024 (snd <$> t);
          grade := default "" g;
          would_recommend := None |}.

Definition meaningful (r : review_data) : bool :=
  Py.lt Py.zero (quality r) || (10 <? String.length (text r))%nat.

(** [_parse_review_element]: [None] is the Python [None], returned when the
    record is not meaningful and from the exception handler *)
Definition _parse_review_element (elem : element) (professor dept number : string)
    : option review_data :=
  match candidate elem professor dept number with
  | Some r => if meaningful r then Some r else None
  | None => None
  end.

End Scraper.

(** ** The relational store *)

Module Courses.
Record row : Type := Row {
  course_id : Z; dept : string; number : string; title : string;
  ge_area : string }.
#[global] Instance row_eq_dec : EqDecision row.
Proof. solve_decision. Defined.
End Courses.

Module Professors.
Record row : Type := Row { prof_id : Z; name : string }.
End Professors.

Module Sections.
Record row : Type := Row {
  section_id : Z; course_id : Z; prof_id : Z; term : string; year : Z }.
End Sections.

Module Reviews.
Record row : Type := Row {
  review_id : Z; section_id : Z; quality : Z; workload : Z; text : string }.
End Reviews.

Module Db.

Record tables : Type := Tables {
  courses : list Courses.row;
  professors : list Professors.row;
  sections : list Sections.row;
  reviews : list Reviews.row }.

(** the four INSERT statements the scraper issues *)
Inductive statement : Type :=
| InsertCourse (r : Courses.row)
| InsertProfessor (r : Professors.row)
| InsertSection (r : Sections.row)
| InsertReview (r : Reviews.row).

Definition apply (q : statement) (t : tables) : tables :=
  match q with
  | InsertCourse r =>
      Tables (courses t ++ [r]) (professors t) (sections t) (reviews t)
  | InsertProfessor r =>
      Tables (courses t) (professors t ++ [r]) (sections t) (reviews t)
  | InsertSection r =>
      Tables (courses t) (professors t) (sections t ++ [r]) (reviews t)
  | InsertReview r =>
      Tables (courses t) (professors t) (sections t) (reviews t ++ [r])
  end.

(** the connection [con]: the tables and the statements executed on it, in
    the order of execution; every statement takes effect at once *)
Record connection : Type := Connection {
  store : tables;
  journal : list statement }.

Definition execute (q : statement) (con : connection) : connection :=
  Connection (apply q (store con)) (journal con ++ [q]).

Definition open (t : tables) : connection := Connection t [].

(** [SELECT MAX(id) + 1 FROM t] followed by [fetchone()[0] or 1]: the
    aggregate of an empty table is NULL, and [or] replaces both [None]
    and [0] by [1] *)
Definition max_plus_one_or_1 (ids : list Z) : Z :=
  match ids with
  | [] => 1
  | i :: rest =>
      let v := foldr Z.max i rest + 1 in
      if (v =? 0)%Z then 1 else v
  end.

End Db.

(** ** [_save_course_to_db] *)

Module Saver.
Import Db.

(** the keys of [course_data] the writer reads *)
Record course_data : Type := CourseData {
  dept : string;
  number : string;
  title : string;
  reviews : list Scraper.review_data }.

(** [SELECT course_id FROM courses WHERE dept = ? AND number = ?], [fetchone] *)
Definition find_course (t : tables) (d n : string) : option Z :=
  Courses.course_id <$>
    List.find (fun c => String.eqb (Courses.dept c) d
                        && String.eqb (Courses.number c) n) (courses t).

(** get or create the course; returns its id *)
Definition resolve_course (cd : course_data) (ge_area : string)
    (con : connection) : Z * connection :=
  match find_course (store con) (dept cd) (number cd) with
  | Some course_id => (course_id, con)
  | None =>
      let course_id :=
        max_plus_one_or_1 (Courses.course_id <$> courses (store con)) in
      (course_id,
       execute (InsertCourse (Courses.Row course_id (dept cd) (number cd)
                                (title cd) ge_area)) con)
  end.

(** [professor_cache], filled from [SELECT prof_id, name FROM professors]:
    a later row replaces an earlier one of the same name *)
Definition seed_cache (ps : list Professors.row) : gmap string Z :=
  foldl (fun cache p => <[Professors.name p := Professors.prof_id p]> cache) ∅ ps.

(** the variables of the loop over the reviews *)
Record loop_state : Type := LoopState {
  con : connection;
  professor_cache : gmap string Z;
  next_prof_id : Z;
  next_section_id : Z;
  next_review_id : Z }.

(** "Get or create professor": the [if prof_name not in professor_cache] block *)
Definition ensure_professor (prof_name : string) (st : loop_state) : loop_state :=
  match professor_cache st !! prof_name with
  | Some _ => st
  | None =>
      LoopState
        (execute (InsertProfessor (Professors.Row (next_prof_id st) prof_name))
                 (con st))
        (<[prof_name := next_prof_id st]> (professor_cache st))
        (next_prof_id st + 1)
        (next_section_id st) (next_review_id st)
  end.

(** [resolve_professor]: [ensure_professor] followed by
    [current_prof_id = professor_cache[prof_name]]; [None] is the [KeyError] *)
Definition resolve_professor (prof_name : string) (st : loop_state)
    : option Z * loop_state :=
  let st' := ensure_professor prof_name st in
  (professor_cache st' !! prof_name, st').

(** [max(1, min(5, int(review.get('quality', 3))))] *)
Definition stored_quality (r : Scraper.review_data) : option Z :=
  q ← Py.int_of_float (Scraper.quality r);
  Some (Z.max 1 (Z.min 5 q)).

(** [max(1, min(10, int(w) if w > 0 else 5))] *)
Definition stored_workload (r : Scraper.review_data) : option Z :=
  w ← (if Py.lt Py.zero (Scraper.workload r)
       then Py.int_of_float (Scraper.workload r) else Some 5);
  Some (Z.max 1 (Z.min 10 w)).

(** One iteration of the loop.  [inr con] is an exception: control leaves
    the loop for the handler, which logs it; what was executed stays. *)
Definition save_review (course_id : Z) (review : Scraper.review_data)
    (st : loop_state) : loop_state + connection :=
  let prof_name := Scraper.professor review in
  match resolve_professor prof_name st with
  | (None, st1) => inr (con st1)
  | (Some current_prof_id, st1) =>
      let con2 :=
        execute (InsertSection
                   (Sections.Row (next_section_id st1) course_id current_prof_id
                      (Scraper.quarter review) (Scraper.year review)))
                (con st1) in
      match stored_quality review with
      | None => inr con2
      | Some quality =>
          match stored_workload review with
          | None => inr con2
          | Some workload =>
              let con3 :=
                execute (InsertReview
                           (Reviews.Row (next_review_id st1) (next_section_id st1)
                              quality workload
                              (Str.take 500 (Scraper.text review))))
                        con2 in
              inl (LoopState con3 (professor_cache st1) (next_prof_id st1)
                     (next_section_id st1 + 1) (next_review_id st1 + 1))
          end
      end
  end.

Fixpoint save_reviews (course_id : Z) (reviews : list Scraper.review_data)
    (st : loop_state) : connection :=
  match reviews with
  | [] => con st
  | review :: rest =>
      match save_review course_id review st with
      | inl st' => save_reviews course_id rest st'
      | inr con' => con'
      end
  end.

(** the state in which the loop starts *)
Definition start (con : connection) : loop_state :=
  let t := store con in
  LoopState con (seed_cache (professors t))
    (max_plus_one_or_1 (Professors.prof_id <$> professors t))
    (max_plus_one_or_1 (Sections.section_id <$> sections t))
    (max_plus_one_or_1 (Reviews.review_id <$> Db.reviews t)).

Definition _save_course_to_db (cd : course_data) (ge_area : string)
    (con : connection) : connection :=
  let '(course_id, con1) := resolve_course cd ge_area con in
  save_reviews course_id (reviews cd) (start con1).

(** The calls [enhance_existing_courses] makes in one run: one per course
    for which the site returned reviews, in order. *)
Fixpoint run (calls : list (course_data * string)) (con : connection)
    : connection :=
  match calls with
  | [] => con
  | (cd, ge_area) :: rest => run rest (_save_course_to_db cd ge_area con)
  end.

End Saver.

(** ** The ranking queries of [app_sql.py] *)

Module Sql.

(** [SELECT DISTINCT]: the rows without their repetitions *)
Fixpoint distinct {A : Type} `{EqDecision A} (l : list A) : list A :=
  match l with
  | [] => []
  | x :: l' => x :: filter (fun y => y <> x) (distinct l')
  end.

(** The arithmetic of the query engine: the numeric type of the aggregates,
    with its casts, operations, [ROUND(x, 2)] and comparison [<=]. *)
Record arith : Type := Arith {
  num : Type;
  of_int : Z -> num;
  of_decimal : Z -> nat -> num;
  add : num -> num -> num;
  sub : num -> num -> num;
  mul : num -> num -> num;
  div : num -> num -> num;
  round2 : num -> num;
  leb : num -> num -> bool }.

(** [<=] is a total preorder (as it is on the doubles that are not NaN) *)
Record ordered (A : arith) : Prop := Ordered {
  leb_total : forall x y : num A, leb A x y = true \/ leb A y x = true;
  leb_trans : forall x y z : num A,
      leb A x y = true -> leb A y z = true -> leb A x z = true }.

(** Exact rational arithmetic; [ROUND] rounds half away from zero. *)
Definition Qround2 (q : Q) : Q :=
  Qmake (Z.sgn (Qnum q) * Qfloor (Qabs q * 100 + (1 # 2))%Q) 100.

Definition exact : arith :=
  {| num := Q;
     of_int := inject_Z;
     of_decimal := fun m k => Qmake m (Pos.of_nat (10 ^ k));
     add := Qplus; sub := Qminus; mul := Qmult; div := Qdiv;
     round2 := Qround2;
     leb := Qle_bool |}.

End Sql.

(** the rows of the common table expression [course_stats] *)
Module CourseStats.
Record row (A : Sql.arith) : Type := Row {
  course : Courses.row;
  professor : string;
  review_count : Z;
  avg_quality : Sql.num A;
  avg_workload : Sql.num A;
  score : Sql.num A }.
Arguments Row {A}.
Arguments course {A}.
Arguments professor {A}.
Arguments review_count {A}.
Arguments avg_quality {A}.
Arguments avg_workload {A}.
Arguments score {A}.
End CourseStats.

Module Ranking.
Import Db Sql.

(** the rows both queries return *)
Record summary (A : arith) : Type := Summary {
  course_code : string;
  title : string;
  professor : string;
  review_count : Z;
  avg_quality : num A;
  avg_workload : num A;
  score : num A }.
Arguments Summary {A}.
Arguments course_code {A}.
Arguments title {A}.
Arguments professor {A}.
Arguments review_count {A}.
Arguments avg_quality {A}.
Arguments avg_workload {A}.
Arguments score {A}.

Section Queries.
Variable A : arith.

Definition joined_row : Type :=
  Courses.row * Sections.row * Professors.row * Reviews.row.

(** [courses c JOIN sections s JOIN professors p JOIN reviews r] with the
    three join conditions and [WHERE c.ge_area = ?] *)
Definition joined (t : tables) (area : string) : list joined_row :=
  c ← courses t; s ← sections t; p ← professors t; r ← reviews t;
  if decide (Sections.course_id s = Courses.course_id c
             /\ Professors.prof_id p = Sections.prof_id s
             /\ Reviews.section_id r = Sections.section_id s
             /\ Courses.ge_area c = area)
  then [(c, s, p, r)] else [].

(** the columns of [GROUP BY]: the five columns of the course, and [p.name] *)
Definition group_key : Type := Courses.row * string.
Definition key_of (x : joined_row) : group_key :=
  let '(c, _, p, _) := x in (c, Professors.name p).
Definition review_of (x : joined_row) : Reviews.row := x.2.

(** [AVG(CAST(x AS FLOAT))] over a group *)
Definition avg (xs : list Z) : num A :=
  div A (foldl (add A) (of_int A 0) (of_int A <$> xs))
        (of_int A (Z.of_nat (length xs))).

(** [avg_quality * 0.7 + (11 - avg_workload) * 0.3] *)
Definition composite (q w : num A) : num A :=
  add A (mul A q (of_decimal A 7 1))
        (mul A (sub A (of_int A 11) w) (of_decimal A 3 1)).

Definition group_stats (rows : list joined_row) (k : group_key)
    : CourseStats.row A :=
  let members := filter (fun x => key_of x = k) rows in
  let q := avg ((fun x => Reviews.quality (review_of x)) <$> members) in
  let w := avg ((fun x => Reviews.workload (review_of x)) <$> members) in
  CourseStats.Row k.1 k.2 (Z.of_nat (length members)) q w (composite q w).

(** [WITH course_stats AS (... GROUP BY ... HAVING COUNT(r.review_id) >= ?)] *)
Definition course_stats (t : tables) (area : string) (min_reviews : Z)
    : list (CourseStats.row A) :=
  let rows := joined t area in
  filter (fun g => (min_reviews <= CourseStats.review_count g)%Z)
         (group_stats rows <$> distinct (key_of <$> rows)).

(** the select list of the outer query *)
Definition select (g : CourseStats.row A) : summary A :=
  Summary (Courses.dept (CourseStats.course g) ++ " "
           ++ Courses.number (CourseStats.course g))
          (Courses.title (CourseStats.course g))
          (CourseStats.professor g)
          (CourseStats.review_count g)
          (round2 A (CourseStats.avg_quality g))
          (round2 A (CourseStats.avg_workload g))
          (round2 A (CourseStats.score g)).

(** [ORDER BY score DESC, avg_quality DESC]; the two names are those of the
    select list.  [outranks a b]: [a] may stand before [b]. *)
Definition outranksb (a b : summary A) : bool :=
  if leb A (score a) (score b)
  then (if leb A (score b) (score a)
        then leb A (avg_quality b) (avg_quality a)
        else false)
  else true.
Definition outranks (a b : summary A) : Prop := outranksb a b = true.
#[global] Instance outranks_dec a b : Decision (outranks a b).
Proof. unfold outranks. apply _. Defined.

(** the ranking query, with its parameters [area, min_reviews, min_q, max_w,
    top_n] *)
Definition ranked_query (t : tables) (area : string) (min_reviews : Z)
    (min_q max_w : num A) (top_n : nat) : list (summary A) :=
  take top_n
    (merge_sort outranks
       (select <$>
          filter (fun g => leb A min_q (CourseStats.avg_quality g) = true
                           /\ leb A (CourseStats.avg_workload g) max_w = true)
                 (course_stats t area min_reviews))).

(** [ORDER BY c.dept, c.number] *)
Definition by_dept_numberb (c d : Courses.row) : bool :=
  if String.ltb (Courses.dept c) (Courses.dept d) then true
  else if String.eqb (Courses.dept c) (Courses.dept d)
       then String.leb (Courses.number c) (Courses.number d)
       else false.
Definition by_dept_number (c d : Courses.row) : Prop :=
  by_dept_numberb c d = true.
#[global] Instance by_dept_number_dec c d : Decision (by_dept_number c d).
Proof. unfold by_dept_number. apply _. Defined.

Definition code_and_title (c : Courses.row) : string * string :=
  (Courses.dept c ++ " " ++ Courses.number c, Courses.title c).

Definition no_reviews (ct : string * string) : summary A :=
  Summary ct.1 ct.2 "No reviews available" 0
          (of_decimal A 0 1) (of_decimal A 0 1) (of_decimal A 0 1).

(** the query of the branch without reviews; the rows differ in their first
    two columns only, the others being constants *)
Definition fallback_query (t : tables) (area : string) (top_n : nat)
    : list (summary A) :=
  take top_n
    (no_reviews <$>
       distinct (code_and_title <$>
                   merge_sort by_dept_number
                     (filter (fun c => Courses.ge_area c = area) (courses t)))).

(** [review_count] of [check_data_status]: [SELECT COUNT( * ) FROM reviews] *)
Definition total_review_count (t : tables) : nat := length (reviews t).

(** the "Main query" of the page *)
Definition rank (t : tables) (area : string) (min_reviews : Z)
    (min_q max_w : num A) (top_n : nat) : list (summary A) :=
  if (0 <? total_review_count t)%nat
  then ranked_query t area min_reviews min_q max_w top_n
  else fallback_query t area top_n.

End Queries.

End Ranking.

(** ** More string operations of Python *)

Module Text.

(** [c.lower()] on the code points below 256: the ASCII capitals and the
    capitals U+00C0..U+00DE, without the sign U+00D7 *)
Definition lower_char (c : ascii) : ascii :=
  if Chars.is_upper c
     || (Chars.between 192 222 c && negb (Chars.code c =? 215)%nat)
  then ascii_of_nat (Chars.code c + 32) else c.

Fixpoint map_chars (f : ascii -> ascii) (s : string) : string :=
  match s with
  | EmptyString => EmptyString
  | String c s' => String (f c) (map_chars f s')
  end.

(** [s.lower()] *)
Definition lower (s : string) : string := map_chars lower_char s.

(** [s.replace(a, b)] for a single character [a] *)
Fixpoint replace (a : ascii) (b : string) (s : string) : string :=
  match s with
  | EmptyString => EmptyString
  | String c s' =>
      if Ascii.eqb c a then b ++ replace a b s' else String c (replace a b s')
  end.

Fixpoint drop (n : nat) (s : string) : string :=
  match n, s with
  | S n', String _ s' => drop n' s'
  | _, _ => s
  end.

(** what follows the first occurrence of [sep] in [s]: [Some] exactly when
    [sep in s], and then it is [s.split(sep, 1)[-1]] *)
Fixpoint after_first (sep s : string) : option string :=
  if String.prefix sep s then Some (drop (String.length sep) s)
  else match s with
       | EmptyString => None
       | String _ s' => after_first sep s'
       end.

End Text.

(** ** Reading a course page: [get_course_reviews] *)

Module Fetcher.

Definition base_url : string := "https://bruinwalk.com".

(** [course_to_url_slug] *)
Definition course_to_url_slug (dept number : string) : string :=
  let dept_clean :=
    Text.replace "&" "and" (Text.replace " " "-" (Text.lower (Str.strip dept))) in
  let number_clean := Text.lower (Str.strip number) in
  dept_clean ++ "-" ++ number_clean.

Definition course_url (dept number : string) : string :=
  base_url ++ "/classes/" ++ course_to_url_slug dept number ++ "/".

(** What the queries of BeautifulSoup find in one professor section: the
    text of the name element ([find(['h3', 'h4'])] or the element of class
    [name|professor]), the [div]s of class [review], and the [div]s whose
    string holds a rating. *)
Record section : Type := MkSection {
  name_elem : option string;
  review_divs : list Scraper.element;
  rating_divs : list Scraper.element }.

(** the [prof_data] dictionary *)
Record prof_data : Type := ProfData {
  name : string;
  rating : Py.float;
  reviews : list Scraper.review_data }.

(** [sum(qualities) / len(qualities) if qualities else 0.0] over the
    positive qualities; [sum] adds from the left, starting from [0] *)
Definition mean_positive (rs : list Scraper.review_data) : Py.float :=
  let qualities :=
    List.filter (fun q => Py.lt Py.zero q) (Scraper.quality <$> rs) in
  match qualities with
  | [] => Py.zero
  | _ => SFdiv Py.prec Py.emax
           (foldl (SFadd Py.prec Py.emax) (Py.float_of_Z 0) qualities)
           (Py.float_of_Z (Z.of_nat (length qualities)))
  end.

Definition section_name (sec : section) : string :=
  match name_elem sec with
  | Some t => Str.strip t
  | None => "Unknown"
  end.

Definition review_elements (sec : section) : list Scraper.element :=
  match review_divs sec with
  | [] => rating_divs sec
  | _ => review_divs sec
  end.

(** [_extract_professor_reviews] *)
Definition _extract_professor_reviews (sec : section) (dept number : string)
    : option prof_data :=
  let prof_name := section_name sec in
  let rs :=
    omap (fun elem => Scraper._parse_review_element elem prof_name dept number)
         (review_elements sec) in
  match rs with
  | [] => None
  | _ => Some (ProfData prof_name (mean_positive rs) rs)
  end.

(** What the queries find in a page: the text of the [h1] (or [title])
    element and the professor sections under each of the three selectors. *)
Record page : Type := Page {
  title_elem : option string;
  class_sections : list section;
  attr_sections : list section;
  h3_sections : list section }.

(** the answer of the site: status 404, another failure of the request, or
    a page *)
Inductive response : Type :=
| NotFound
| Failed
| Found (p : page).

(** the [course_data] dictionary; the field [all_reviews] is its key
    [reviews] *)
Record course_data : Type := CourseData {
  dept : string;
  number : string;
  course_code : string;
  url : string;
  title : string;
  overall_rating : Py.float;
  total_reviews : nat;
  professors : list prof_data;
  all_reviews : list Scraper.review_data }.

Definition page_title (p : page) : string :=
  match title_elem p with
  | None => ""
  | Some t =>
      let title_text := Str.strip t in
      match Text.after_first " - " title_text with
      | Some rest => rest
      | None => title_text
      end
  end.

Definition prof_sections (p : page) : list section :=
  match class_sections p with
  | [] => match attr_sections p with
          | [] => h3_sections p
          | _ => attr_sections p
          end
  | _ => class_sections p
  end.

(** [get_course_reviews], on the answer of the site for the URL of the
    course *)
Definition get_course_reviews (site : string -> response) (dept number : string)
    : option course_data :=
  match site (course_url dept number) with
  | NotFound | Failed => None
  | Found p =>
      let profs :=
        omap (fun sec => _extract_professor_reviews sec dept number)
             (prof_sections p) in
      let rs := mjoin (reviews <$> profs) in
      match rs with
      | [] => None
      | _ => Some (CourseData dept number (dept ++ " " ++ number)
                     (course_url dept number) (page_title p)
                     (mean_positive rs) (length rs) profs rs)
      end
  end.

End Fetcher.

(** ** [enhance_existing_courses] *)

Module Enhancer.
Import Db.

(** a row of [SELECT DISTINCT dept, number, title, ge_area FROM courses] *)
Record course : Type := Course {
  dept : string; number : string; title : string; ge_area : string }.
#[global] Instance course_eq_dec : EqDecision course.
Proof. solve_decision. Defined.

Definition of_row (c : Courses.row) : course :=
  Course (Courses.dept c) (Courses.number c) (Courses.title c)
         (Courses.ge_area c).

(** [ORDER BY dept, number] *)
Definition by_dept_numberb (c d : course) : bool :=
  if String.ltb (dept c) (dept d) then true
  else if String.eqb (dept c) (dept d)
       then String.leb (number c) (number d)
       else false.
Definition by_dept_number (c d : course) : Prop := by_dept_numberb c d = true.
#[global] Instance by_dept_number_dec c d : Decision (by_dept_number c d).
Proof. unfold by_dept_number. apply _. Defined.

(** the courses of the run: the query with its [LIMIT ?] *)
Definition existing_courses (t : tables) (limit : nat) : list course :=
  take limit (merge_sort by_dept_number (Sql.distinct (of_row <$> courses t))).

(** the keys of [course_data] the writer reads *)
Definition to_saver (cd : Fetcher.course_data) : Saver.course_data :=
  Saver.CourseData (Fetcher.dept cd) (Fetcher.number cd) (Fetcher.title cd)
                   (Fetcher.all_reviews cd).

(** the loop over the courses, with [enhanced_count] *)
Fixpoint enhance_loop (site : string -> Fetcher.response) (cs : list course)
    (enhanced_count : nat) (con : connection) : nat * connection :=
  match cs with
  | [] => (enhanced_count, con)
  | c :: rest =>
      match Fetcher.get_course_reviews site (dept c) (number c) with
      | Some bruinwalk_data =>
          match Fetcher.all_reviews bruinwalk_data with
          | [] => enhance_loop site rest enhanced_count con
          | _ => enhance_loop site rest (S enhanced_count)
                   (Saver._save_course_to_db (to_saver bruinwalk_data)
                      (ge_area c) con)
          end
      | None => enhance_loop site rest enhanced_count con
      end
  end.

(** [enhance_existing_courses]: the number of courses enhanced, and the
    connection after the run *)
Definition enhance_existing_courses (site : string -> Fetcher.response)
    (limit : nat) (con : connection) : nat * connection :=
  enhance_loop site (existing_courses (store con) limit) 0 con.

End Enhancer.

(** ** The sidebar of [app_sql.py] *)

Module Sidebar.
Import Db.

(** [check_data_status]: the three counts *)
Definition check_data_status (t : tables) : nat * nat * nat :=
  (length (courses t), length (reviews t), length (professors t)).

(** [SELECT DISTINCT ge_area FROM courses WHERE ge_area IS NOT NULL AND
    ge_area != '' ORDER BY ge_area] *)
Definition areas (t : tables) : list string :=
  merge_sort String.le
    (Sql.distinct (filter (fun a => a <> "") (Courses.ge_area <$> courses t))).

(** [SELECT COUNT( * ) FROM courses WHERE ge_area = ?] of the debug panel *)
Definition course_count_for_area (t : tables) (area : string) : nat :=
  length (filter (fun c => Courses.ge_area c = area) (courses t)).

End Sidebar.

(** ** What a successful match went through

    [trace r s c s' c'] lists the ways through the pattern [r] from the input
    [s] with the groups [c] to the rest [s'] with the groups [c'] (the
    condition of [\b] on the neighbouring characters is left out).  Every
    result of the matcher arises along such a way, which is enough to know
    which groups a match has set and what they hold. *)

Module ReSpec.
Import Re.

Definition step : Type := string -> groups -> string -> groups -> Prop.

Inductive iter (P : step) : step :=
| iter_stop s c : iter P s c s c
| iter_next s c s1 c1 s2 c2 :
    P s c s1 c1 -> iter P s1 c1 s2 c2 -> iter P s c s2 c2.

Fixpoint trace (r : regex) : step :=
  fun s c s' c' =>
  match r with
  | Empty => s' = s /\ c' = c
  | Char p => exists ch, s = String ch s' /\ p ch = true /\ c' = c
  | Cat r1 r2 => exists s1 c1, trace r1 s c s1 c1 /\ trace r2 s1 c1 s' c'
  | Alt r1 r2 => trace r1 s c s' c' \/ trace r2 s c s' c'
  | Star _ r' => iter (trace r') s c s' c'
  | Group n r' =>
      exists c1, trace r' s c s' c1 /\ c' = <[n := Str.consumed s s']> c1
  | WordBoundary => s' = s /\ c' = c
  end.

(** a pattern without groups *)
Fixpoint groupless (r : regex) : bool :=
  match r with
  | Empty | Char _ | WordBoundary => true
  | Cat r1 r2 | Alt r1 r2 => groupless r1 && groupless r2
  | Star _ r' => groupless r'
  | Group _ _ => false
  end.

(** [captures n inner r]: [r] is a concatenation in which [inner] is the one
    group, numbered [n], every match runs through *)
Inductive captures (n : nat) (inner : regex) : regex -> Prop :=
| captures_last : captures n inner (Group n inner)
| captures_first rest :
    groupless rest = true -> captures n inner (Cat (Group n inner) rest)
| captures_later r1 r2 :
    groupless r1 = true -> captures n inner r2 -> captures n inner (Cat r1 r2).

End ReSpec.

(** ** Notions used in the statements *)

Module Spec.
Import Re Scraper.

(** [pattern] accepts the value [v]: its leftmost match captured a number
    whose float [v] passed the range check *)
Definition accepts (hi : Py.float) (text_content : string) (pattern : regex)
    (v : Py.float) : Prop :=
  exists m s, search pattern text_content = Some m
    /\ m !! 1%nat = Some s /\ Py.float_of_string s = Some v
    /\ Py.le Py.zero v = true /\ Py.le v hi = true.

(** [pattern] gives no value: it does not match, or the number its leftmost
    match captured fails the range check *)
Definition rejects (hi : Py.float) (text_content : string) (pattern : regex)
    : Prop :=
  search pattern text_content = None
  \/ exists m s x, search pattern text_content = Some m
        /\ m !! 1%nat = Some s /\ Py.float_of_string s = Some x
        /\ (Py.le Py.zero x && Py.le x hi) = false.

(** the outcome [q] of a cascade over [patterns] with upper bound [hi]: a
    value is in the range and comes from the first pattern of the list that
    accepts one; there is none when every pattern of the list fails *)
Definition cascade_outcome (hi : Py.float) (patterns : list regex)
    (text_content : string) (q : option Py.float) : Prop :=
  match q with
  | Some v =>
      Py.le Py.zero v = true /\ Py.le v hi = true
      /\ exists before pattern after,
           patterns = (before ++ pattern :: after)%list
           /\ Forall (rejects hi text_content) before
           /\ accepts hi text_content pattern v
  | None => Forall (rejects hi text_content) patterns
  end.

(** the ranges the parser guarantees for the two ratings of a record *)
Definition in_range (r : review_data) : Prop :=
  (Py.le Py.zero (quality r) = true /\ Py.le (quality r) five = true)
  /\ (Py.le Py.zero (workload r) = true /\ Py.le (workload r) ten = true).

(** the text of the scenario of the specification *)
Definition example_text : string :=
  "Great class! Rating: 4.5, Workload: 3 out of 10, taken Fall 2023, got A-".

End Spec.

Module SaverSpec.
Import Db Saver.

(** the three kinds of identifiers the loop allocates *)
Inductive kind : Type := Professor | Section | Review.

Definition ids (k : kind) (t : tables) : list Z :=
  match k with
  | Professor => Professors.prof_id <$> professors t
  | Section => Sections.section_id <$> sections t
  | Review => Reviews.review_id <$> Db.reviews t
  end.

Definition next (k : kind) (st : loop_state) : Z :=
  match k with
  | Professor => next_prof_id st
  | Section => next_section_id st
  | Review => next_review_id st
  end.

(** [news] are allocated after [old]: each is above every identifier of
    [old] and above the ones allocated before it *)
Definition fresh_above (old news : list Z) : Prop :=
  StronglySorted Z.lt news /\ Forall (fun n => Forall (fun i => i < n) old) news.

Definition grows (old new : list Z) : Prop :=
  exists news, new = (old ++ news)%list /\ fresh_above old news.

(** the tables after the statements [js] *)
Definition replay (t : tables) (js : list statement) : tables :=
  foldl (fun t q => apply q t) t js.

(** [con'] is [con] after it executed [js] *)
Definition extends (con con' : connection) (js : list statement) : Prop :=
  journal con' = (journal con ++ js)%list /\ store con' = replay (store con) js.

(** The order of the inserts in a journal, read from tables [t]: a section
    is inserted when its course and its professor are in the tables, and the
    statement after it inserts the review of that section; a review is
    inserted in no other place. *)
Fixpoint integrity (t : tables) (js : list statement) : Prop :=
  match js with
  | [] => True
  | InsertCourse c :: rest => integrity (apply (InsertCourse c) t) rest
  | InsertProfessor p :: rest => integrity (apply (InsertProfessor p) t) rest
  | InsertSection s :: InsertReview r :: rest =>
      Sections.course_id s ∈ (Courses.course_id <$> courses t)
      /\ Sections.prof_id s ∈ (Professors.prof_id <$> professors t)
      /\ Reviews.section_id r = Sections.section_id s
      /\ integrity (apply (InsertReview r) (apply (InsertSection s) t)) rest
  | _ => False
  end.

Definition is_section (q : statement) : bool :=
  match q with InsertSection _ => true | _ => false end.
Definition is_review (q : statement) : bool :=
  match q with InsertReview _ => true | _ => false end.


Definition clamp (lo hi x : Z) : Z := Z.max lo (Z.min hi x).

(** the integer part of a finite float *)
Definition trunc (x : Py.float) : Z := default 0 (Py.int_of_float x).

(** the review row line 346 inserts for [review] *)
Definition quality_rule (review : Scraper.review_data) : Z :=
  clamp 1 5 (trunc (Scraper.quality review)).
Definition workload_rule (review : Scraper.review_data) : Z :=
  if Py.lt Py.zero (Scraper.workload review)
  then clamp 1 10 (trunc (Scraper.workload review)) else 5.

(** the counters of the loop are above the identifiers in the tables *)
Definition bounded (st : loop_state) : Prop :=
  forall k, Forall (fun i => i < next k st) (ids k (store (con st))).

(** the course of the call and the professors of the cache are in the tables *)
Definition resolved (course_id : Z) (st : loop_state) : Prop :=
  course_id ∈ (Courses.course_id <$> courses (store (con st)))
  /\ map_Forall
       (fun _ id => id ∈ (Professors.prof_id <$> professors (store (con st))))
       (professor_cache st).

(** the bounds of the two ratings of a stored review *)
Definition within_bounds (r : Reviews.row) : Prop :=
  1 <= Reviews.quality r <= 5 /\ 1 <= Reviews.workload r <= 10.

End SaverSpec.

(** ** Sample data *)

Module Examples.
Import Db Scraper.

(** three courses in two areas, one professor, no sections, no reviews *)
Definition seeded : tables :=
  Tables [Courses.Row 1 "MATH" "1" "Calculus" "Science";
          Courses.Row 2 "ART" "9" "Painting" "Science";
          Courses.Row 3 "ZOO" "1" "Animals" "Nature"]
         [Professors.Row 4 "Smith"] [] [].

(** a fragment without any signal, kept for its text *)
Definition plain_text : string := "this class was fine overall".
Definition plain_review : review_data :=
  {| professor := "Smith"; dept := "MATH"; number := "1";
     quality := Py.zero; workload := Py.zero; text := plain_text;
     quarter := ""; year := 2024; grade := ""; would_recommend := None |}.

(** a fragment with a term *)
Definition term_text : string := "took it in fall 2023, liked it".
Definition term_review : review_data :=
  {| professor := "Smith"; dept := "MATH"; number := "1";
     quality := Py.zero; workload := Py.zero; text := term_text;
     quarter := "Fall"; year := 2023; grade := ""; would_recommend := None |}.

(** a fragment whose workload is extracted as 0 *)
Definition idle_text : string := "Workload: 0, nothing to do".
Definition idle_review : review_data :=
  {| professor := "Jones"; dept := "MATH"; number := "1";
     quality := Py.zero; workload := Py.zero; text := idle_text;
     quarter := ""; year := 2024; grade := ""; would_recommend := None |}.

Definition rated (prof : string) (q w : Z) : review_data :=
  {| professor := prof; dept := "MATH"; number := "1";
     quality := Py.float_of_Z q; workload := Py.float_of_Z w;
     text := "rated"; quarter := "Fall"; year := 2023; grade := "";
     would_recommend := None |}.

Definition sample_course : Saver.course_data :=
  Saver.CourseData "MATH" "1" ""
    [rated "Smith" 4 4; plain_review; rated "Jones" 5 2].

Definition idle_course : Saver.course_data :=
  Saver.CourseData "MATH" "1" "" [idle_review].

(** the ranking scenario of the specification: three reviews of quality 4
    and workload 4 for one course, three of quality 3 and workload 8 for
    another *)
Definition scenario : tables :=
  store
    (Saver.run
       [(Saver.CourseData "MATH" "1" ""
           [rated "Lee" 4 4; rated "Lee" 4 4; rated "Lee" 4 4], "Science");
        (Saver.CourseData "ART" "9" ""
           [rated "Kim" 3 8; rated "Kim" 3 8; rated "Kim" 3 8], "Science")]
       (open seeded)).

(** two groups whose scores differ in the third decimal: 101/30 for [Lee]
    and 118/35 for [Kim] *)
Definition close_scores : tables :=
  store
    (Saver.run
       [(Saver.CourseData "MATH" "1" ""
           [rated "Lee" 3 6; rated "Lee" 3 6; rated "Lee" 2 6], "Science");
        (Saver.CourseData "ART" "9" ""
           [rated "Kim" 3 6; rated "Kim" 3 6; rated "Kim" 3 6; rated "Kim" 2 5;
            rated "Kim" 2 5; rated "Kim" 2 5; rated "Kim" 2 5], "Science")]
       (open seeded)).

(** the store after the reviews of [sample_course] were saved: the area
    ["Science"] has reviews, the area ["Nature"] has a course and no review *)
Definition reviewed : tables :=
  store (Saver._save_course_to_db sample_course "Science" (open seeded)).

End Examples.

(** ** Invariants of the store *)

Module StoreSpec.
Import Db.

(** the identifiers of each table are pairwise distinct *)
Definition keys_unique (t : tables) : Prop :=
  NoDup (Courses.course_id <$> courses t)
  /\ NoDup (Professors.prof_id <$> professors t)
  /\ NoDup (Sections.section_id <$> sections t)
  /\ NoDup (Reviews.review_id <$> reviews t).

(** every section refers to a course and a professor of the tables, every
    review to a section *)
Definition references_intact (t : tables) : Prop :=
  (forall s, s ∈ sections t ->
     Sections.course_id s ∈ (Courses.course_id <$> courses t)
     /\ Sections.prof_id s ∈ (Professors.prof_id <$> professors t))
  /\ (forall r, r ∈ reviews t ->
        Reviews.section_id r ∈ (Sections.section_id <$> sections t)).

(** no two professors have the same name *)
Definition names_unique (t : tables) : Prop :=
  NoDup (Professors.name <$> professors t).

(** the cache of the loop knows every name of the professors table *)
Definition covers (st : Saver.loop_state) : Prop :=
  forall n, Saver.professor_cache st !! n = None ->
            n ∉ (Professors.name <$> professors (store (Saver.con st))).

(** every name of the cache is a name of the professors table *)
Definition known (st : Saver.loop_state) : Prop :=
  forall n id, Saver.professor_cache st !! n = Some id ->
               n ∈ (Professors.name <$> professors (store (Saver.con st))).

(** the rows a journal inserts into each table *)
Definition course_rows (js : list statement) : list Courses.row :=
  omap (fun q => match q with InsertCourse r => Some r | _ => None end) js.
Definition professor_rows (js : list statement) : list Professors.row :=
  omap (fun q => match q with InsertProfessor r => Some r | _ => None end) js.
Definition section_rows (js : list statement) : list Sections.row :=
  omap (fun q => match q with InsertSection r => Some r | _ => None end) js.
Definition review_rows (js : list statement) : list Reviews.row :=
  omap (fun q => match q with InsertReview r => Some r | _ => None end) js.

End StoreSpec.

(** ** The values of the fields of a record *)

Module FieldSpec.
Import Re.

(** the first group of [quarter_pattern] *)
Definition seasons : regex :=
  Alt (word_i "fall") (Alt (word_i "winter")
    (Alt (word_i "spring") (word_i "summer"))).

(** a grade: [P], [NP], or a letter from [A] to [F] with or without a sign *)
Definition grade_shape (g : string) : Prop :=
  g = "P" \/ g = "NP"
  \/ exists l, Chars.between 65 70 l = true
       /\ (g = String l "" \/ g = String l "+" \/ g = String l "-").

End FieldSpec.

(** ** What the page reader returns *)

Module FetcherSpec.

(** a record [_parse_review_element] kept for the course [dept number] *)
Definition kept (dept number : string) (r : Scraper.review_data) : Prop :=
  Scraper.dept r = dept /\ Scraper.number r = number
  /\ Spec.in_range r /\ Scraper.meaningful r = true.

(** the calls of the writer in a run over the courses [cs]: one for every
    course the site has reviews for *)
Definition calls_of (site : string -> Fetcher.response)
    (cs : list Enhancer.course) : list (Saver.course_data * string) :=
  omap (fun c =>
          match Fetcher.get_course_reviews site (Enhancer.dept c)
                  (Enhancer.number c) with
          | Some d =>
              match Fetcher.all_reviews d with
              | [] => None
              | _ => Some (Enhancer.to_saver d, Enhancer.ge_area c)
              end
          | None => None
          end) cs.

(** the number of reviews the calls hand to the writer *)
Definition reviews_of (calls : list (Saver.course_data * string)) : nat :=
  sum_list_with (fun call => length (Saver.reviews call.1)) calls.

End FetcherSpec.

(** ** Words about strings *)

Module TextSpec.

(** [sep in s] *)
Definition occurs (sep s : string) : Prop := exists a b, s = a ++ sep ++ b.

(** every character of [s] is white space *)
Definition blank (s : string) : Prop := Str.all Chars.is_space s = true.

(** no character of [s] satisfies [p] *)
Definition free_of (p : ascii -> bool) (s : string) : Prop :=
  Str.all (fun c => negb (p c)) s = true.

End TextSpec.

(** * Properties *)

(** ** Strings *)

Module StrFacts.

Lemma append_cons ch (a b : string) : String ch a ++ b = String ch (a ++ b).
Proof. reflexivity. Qed.

Lemma append_nil (b : string) : "" ++ b = b.
Proof. reflexivity. Qed.

Lemma length_append (a b : string) :
  String.length (a ++ b) = (String.length a + String.length b)%nat.
Proof.
  induction a as [|ch a IH]; [reflexivity|].
  rewrite append_cons. simpl. now rewrite IH.
Qed.

Lemma take_append (a b : string) : Str.take (String.length a) (a ++ b) = a.
Proof.
  unfold Str.take. induction a as [|ch a IH].
  - rewrite append_nil. now destruct b.
  - rewrite append_cons. simpl. now rewrite IH.
Qed.

Lemma consumed_append (a b : string) : Str.consumed (a ++ b) b = a.
Proof.
  unfold Str.consumed. rewrite length_append.
  replace (String.length a + String.length b - String.length b)%nat
    with (String.length a) by lia.
  apply take_append.
Qed.

Lemma append_assoc (a b c : string) : (a ++ b) ++ c = a ++ (b ++ c).
Proof.
  induction a as [|ch a IH]; [reflexivity|].
  rewrite !append_cons. now f_equal.
Qed.

End StrFacts.

(** ** The matcher *)

Module ReFacts.
Import Re ReSpec.

Lemma star_loop_sound body (P : step) greedy (k : cont) :
  (forall prev s c k' g, body prev s c k' = Some g ->
     exists prev' s' c', P s c s' c' /\ k' prev' s' c' = Some g) ->
  forall fuel prev s c g,
    star_loop body greedy k fuel prev s c = Some g ->
    exists prev' s' c', iter P s c s' c' /\ k prev' s' c' = Some g.
Proof.
  intros Hbody. induction fuel as [|fuel IH]; intros prev s c g H.
  - simpl in H. exists prev, s, c. split; [constructor|].
    destruct greedy; [exact H|]. now destruct (k prev s c).
  - assert (Hagain : forall g',
      body prev s c (fun prev' s' caps' =>
        if (String.length s' <? String.length s)%nat
        then star_loop body greedy k fuel prev' s' caps' else None) = Some g' ->
      exists prev' s' c', iter P s c s' c' /\ k prev' s' c' = Some g').
    { intros g' E. apply Hbody in E as (p1 & s1 & c1 & HP & E).
      destruct (String.length s1 <? String.length s)%nat; [|discriminate].
      apply IH in E as (p2 & s2 & c2 & Hit & E).
      exists p2, s2, c2. split; [econstructor; eassumption | exact E]. }
    simpl in H. destruct greedy.
    + match type of H with
      | match ?b with _ => _ end = _ => destruct b eqn:Eb
      end.
      * inversion H; subst. now apply Hagain.
      * exists prev, s, c. split; [constructor | exact H].
    + destruct (k prev s c) eqn:Ek.
      * inversion H; subst. exists prev, s, c. split; [constructor | exact Ek].
      * now apply Hagain.
Qed.

(** every result of the matcher arises along a way through the pattern *)
Lemma rmatch_sound r :
  forall prev s c (k : cont) g,
    rmatch r prev s c k = Some g ->
    exists prev' s' c', trace r s c s' c' /\ k prev' s' c' = Some g.
Proof.
  induction r as [|p|r1 IH1 r2 IH2|r1 IH1 r2 IH2|greedy r IH|n r IH|];
    intros prev s c k g H; simpl in H.
  - exists prev, s, c. now repeat split.
  - destruct s as [|ch s]; [discriminate|].
    destruct (p ch) eqn:E; [|discriminate].
    exists (Some ch), s, c. split; [|exact H]. exists ch. now repeat split.
  - apply IH1 in H as (p1 & s1 & c1 & T1 & H).
    apply IH2 in H as (p2 & s2 & c2 & T2 & H).
    exists p2, s2, c2. split; [|exact H]. now exists s1, c1.
  - destruct (rmatch r1 prev s c k) eqn:E.
    + inversion H; subst. apply IH1 in E as (p1 & s1 & c1 & T1 & E).
      exists p1, s1, c1. split; [now left | exact E].
    + apply IH2 in H as (p1 & s1 & c1 & T1 & H).
      exists p1, s1, c1. split; [now right | exact H].
  - eapply star_loop_sound in H; [exact H | exact IH].
  - apply IH in H as (p1 & s1 & c1 & T1 & H).
    exists p1, s1, (<[n := Str.consumed s s1]> c1). split; [|exact H].
    now exists c1.
  - destruct (xorb _ _); [|discriminate].
    exists prev, s, c. now repeat split.
Qed.

Lemma search_from_sound r : forall s prev g,
  search_from r prev s = Some g -> exists s0 s', trace r s0 ∅ s' g.
Proof.
  induction s as [|ch s IH]; intros prev g H; simpl in H.
  - destruct (rmatch r prev "" ∅ accept) eqn:E; [|discriminate].
    inversion H; subst. apply rmatch_sound in E as (p1 & s1 & c1 & T & E).
    unfold accept in E. inversion E; subst. eauto.
  - destruct (rmatch r prev (String ch s) ∅ accept) eqn:E.
    + inversion H; subst. apply rmatch_sound in E as (p1 & s1 & c1 & T & E).
      unfold accept in E. inversion E; subst. eauto.
    + eapply IH; eassumption.
Qed.

Lemma search_sound r s g :
  search r s = Some g -> exists s0 s', trace r s0 ∅ s' g.
Proof. apply search_from_sound. Qed.

(** what remains is a suffix of the input *)
Lemma trace_suffix r : forall s c s' c',
  trace r s c s' c' -> exists w, s = w ++ s'.
Proof.
  induction r as [|p|r1 IH1 r2 IH2|r1 IH1 r2 IH2|greedy r IH|n r IH|];
    intros s c s' c' H; simpl in H.
  - destruct H as [-> _]. now exists "".
  - destruct H as (ch & -> & _). now exists (String ch "").
  - destruct H as (s1 & c1 & T1 & T2).
    apply IH1 in T1 as [w1 ->]. apply IH2 in T2 as [w2 ->].
    exists (w1 ++ w2). now rewrite StrFacts.append_assoc.
  - destruct H as [H|H]; eauto.
  - induction H as [|s c s1 c1 s2 c2 HP _ [w2 ->]]; [now exists ""|].
    apply IH in HP as [w1 ->].
    exists (w1 ++ w2). now rewrite StrFacts.append_assoc.
  - destruct H as (c1 & T & _). eauto.
  - destruct H as [-> _]. now exists "".
Qed.

(** a pattern without groups leaves the groups as they are *)
Lemma trace_groupless r : groupless r = true ->
  forall s c s' c', trace r s c s' c' -> c' = c.
Proof.
  induction r as [|p|r1 IH1 r2 IH2|r1 IH1 r2 IH2|greedy r IH|n r IH|];
    simpl; intros G s c s' c' H.
  - tauto.
  - now destruct H as (ch & _ & _ & ->).
  - apply andb_prop in G as [G1 G2]. destruct H as (s1 & c1 & T1 & T2).
    apply (IH1 G1) in T1. apply (IH2 G2) in T2. congruence.
  - apply andb_prop in G as [G1 G2]. destruct H as [H|H]; eauto.
  - induction H as [|s c s1 c1 s2 c2 HP _ IHit]; [reflexivity|].
    apply (IH G) in HP. congruence.
  - discriminate.
  - tauto.
Qed.

(** the group of a pattern that [captures] it holds what its inner pattern
    consumed *)
Lemma trace_captures n inner r : captures n inner r ->
  forall s c s' c', trace r s c s' c' ->
    exists s1 s2 c1, trace inner s1 c s2 c1
                     /\ c' = <[n := Str.consumed s1 s2]> c1.
Proof.
  induction 1 as [|rest G|r1 r2 G _ IH]; intros s c s' c' H; simpl in H.
  - destruct H as (c1 & T & ->). eauto.
  - destruct H as (s1 & c1 & (c0 & T & ->) & T2).
    apply (trace_groupless _ G) in T2 as ->. eauto.
  - destruct H as (s1 & c1 & T1 & T2).
    apply (trace_groupless _ G) in T1 as ->. eauto.
Qed.

Lemma search_captures n inner r text m :
  captures n inner r -> search r text = Some m -> is_Some (m !! n).
Proof.
  intros C H. apply search_sound in H as (s0 & s' & T).
  apply (trace_captures _ _ _ C) in T as (s1 & s2 & c1 & _ & ->).
  rewrite lookup_insert_eq. eauto.
Qed.

End ReFacts.

(** ** The parser never raises *)

Module ScraperFacts.
Import Re ReSpec ReFacts Scraper.

Ltac captures_tac :=
  repeat first
    [ apply captures_last
    | apply captures_first; reflexivity
    | apply captures_later; [reflexivity|] ].

Lemma quality_patterns_capture :
  Forall (captures 1 decimal) quality_patterns.
Proof. repeat constructor; captures_tac. Qed.

Lemma workload_patterns_capture :
  Forall (captures 1 decimal) workload_patterns.
Proof. repeat constructor; captures_tac. Qed.

Lemma grade_pattern_captures : exists inner, captures 1 inner grade_pattern.
Proof. eexists. unfold grade_pattern. simpl. captures_tac. Qed.

Lemma try_pattern_total hi text_content inner pattern :
  captures 1 inner pattern -> is_Some (try_pattern hi text_content pattern).
Proof.
  intros C. unfold try_pattern.
  destruct (search pattern text_content) as [m|] eqn:E; [|eauto].
  destruct (search_captures _ _ _ _ _ C E) as [s Hs].
  unfold group. rewrite Hs. simpl.
  destruct (Py.float_of_string s) as [v|]; [|eauto].
  destruct (_ && _); eauto.
Qed.

Lemma cascade_total hi text_content inner patterns :
  Forall (captures 1 inner) patterns ->
  is_Some (cascade hi patterns text_content).
Proof.
  induction 1 as [|pattern rest C _ IH]; simpl; [eauto|].
  destruct (try_pattern_total hi text_content _ _ C) as [[v|] ->]; simpl; eauto.
Qed.

Lemma extract_quality_total text_content :
  is_Some (extract_quality text_content).
Proof. eapply cascade_total, quality_patterns_capture. Qed.

Lemma extract_workload_total text_content :
  is_Some (extract_workload text_content).
Proof. eapply cascade_total, workload_patterns_capture. Qed.

Lemma extract_grade_total text_content : is_Some (extract_grade text_content).
Proof.
  unfold extract_grade.
  destruct (search grade_pattern text_content) as [m|] eqn:E; [|eauto].
  destruct grade_pattern_captures as [inner C].
  destruct (search_captures _ _ _ _ _ C E) as [s Hs].
  unfold group. rewrite Hs. simpl. eauto.
Qed.

(** a group that is set stays set *)
Lemma trace_keeps n r : forall s c s' c',
  trace r s c s' c' -> is_Some (c !! n) -> is_Some (c' !! n).
Proof.
  induction r as [|p|r1 IH1 r2 IH2|r1 IH1 r2 IH2|greedy r IH|k r IH|];
    intros s c s' c' H Hn; simpl in H.
  - now destruct H as [_ ->].
  - now destruct H as (ch & _ & _ & ->).
  - destruct H as (s1 & c1 & T1 & T2). eauto.
  - destruct H as [H|H]; eauto.
  - induction H as [|s c s1 c1 s2 c2 HP _ IHit]; eauto.
  - destruct H as (c1 & T & ->).
    destruct (decide (k = n)) as [->|Hne].
    + rewrite lookup_insert_eq. eauto.
    + rewrite lookup_insert_ne by done. eauto.
  - now destruct H as [_ ->].
Qed.

Lemma four_digits s c s' c' :
  trace (cats [digit; digit; digit; digit]) s c s' c' ->
  exists w, s = w ++ s' /\ is_Some (Py.int_of_string w).
Proof.
  simpl. intros (s1 & c1 & (a & -> & Ha & _) & s2 & c2 & (b & -> & Hb & _)
                 & s3 & c3 & (d & -> & Hd & _) & (e & -> & He & _)).
  exists (String a (String b (String d (String e "")))). split; [reflexivity|].
  unfold Py.int_of_string, Py.is_digits. simpl. rewrite Ha, Hb, Hd, He. eauto.
Qed.

Lemma extract_quarter_total text_content :
  is_Some (extract_quarter text_content).
Proof.
  unfold extract_quarter.
  destruct (search quarter_pattern text_content) as [m|] eqn:E; [|eauto].
  apply search_sound in E as (s0 & s' & T).
  unfold quarter_pattern in T.
  cbn [cats] in T.
  destruct T as (s1 & c1 & (c0 & _ & ->) & s2 & c2 & Tsp & c3 & Td & ->).
  assert (H1 : is_Some (c3 !! 1%nat)).
  { eapply trace_keeps; [exact Td|]. eapply trace_keeps; [exact Tsp|].
    rewrite lookup_insert_eq. eauto. }
  destruct H1 as [q Hq].
  apply four_digits in Td as (w & -> & [n Hn]).
  assert (Hl : forall x : string, <[2%nat := x]> c3 !! 1%nat = Some q).
  { intros x. rewrite <- Hq. apply lookup_insert_ne. lia. }
  unfold group. rewrite Hl. simpl.
  rewrite lookup_insert_eq. simpl.
  rewrite StrFacts.consumed_append, Hn. simpl. eauto.
Qed.

(** the exception handler of [_parse_review_element] is never entered *)
Lemma candidate_total elem professor dept number :
  is_Some (candidate elem professor dept number).
Proof.
  unfold candidate.
  destruct (extract_quality_total (get_text elem)) as [q ->].
  destruct (extract_workload_total (get_text elem)) as [w ->].
  destruct (extract_quarter_total (get_text elem)) as [t ->].
  destruct (extract_grade_total (get_text elem)) as [g ->].
  simpl. eauto.
Qed.

(** the range check of a cascade *)
Lemma try_pattern_range hi text_content pattern v :
  try_pattern hi text_content pattern = Some (Some v) ->
  Py.le Py.zero v = true /\ Py.le v hi = true.
Proof.
  unfold try_pattern. intros H.
  destruct (search pattern text_content) as [m|]; [|discriminate].
  destruct (group m 1) as [s|]; [|discriminate]. simpl in H.
  destruct (Py.float_of_string s) as [x|]; [|discriminate].
  destruct (Py.le Py.zero x && Py.le x hi) eqn:E; [|discriminate].
  inversion H; subst. now apply andb_prop in E.
Qed.

(** the first pattern that accepts a value gives the result of a cascade *)
Lemma cascade_first hi text_content patterns v :
  cascade hi patterns text_content = Some (Some v) <->
  exists before pattern after,
    patterns = (before ++ pattern :: after)%list
    /\ Forall (fun p => try_pattern hi text_content p = Some None) before
    /\ try_pattern hi text_content pattern = Some (Some v).
Proof.
  induction patterns as [|p rest IH]; simpl.
  - split; [discriminate|]. intros (b & q & a & E & _). now destruct b.
  - destruct (try_pattern hi text_content p) as [[x|]|] eqn:E; simpl.
    + split.
      * intros H. inversion H; subst. exists [], p, rest. now repeat split.
      * intros ([|p' b] & q & a & El & Hb & Hq); simpl in El; inversion El; subst.
        -- congruence.
        -- inversion Hb; subst. congruence.
    + rewrite IH. split.
      * intros (b & q & a & -> & Hb & Hq). exists (p :: b), q, a.
        repeat split; [|exact Hq]. now constructor.
      * intros ([|p' b] & q & a & El & Hb & Hq); simpl in El; inversion El; subst.
        -- congruence.
        -- inversion Hb; subst. eauto 10.
    + split; [discriminate|].
      intros ([|p' b] & q & a & El & Hb & Hq); simpl in El; inversion El; subst.
      * congruence.
      * inversion Hb; subst. congruence.
Qed.

Lemma cascade_none hi text_content patterns :
  cascade hi patterns text_content = Some None <->
  Forall (fun p => try_pattern hi text_content p = Some None) patterns.
Proof.
  induction patterns as [|p rest IH]; simpl.
  - split; [constructor | reflexivity].
  - destruct (try_pattern hi text_content p) as [[x|]|] eqn:E; simpl.
    + split; [discriminate|]. intros H. inversion H; subst. congruence.
    + rewrite IH. split; [now constructor|]. intros H. now inversion H.
    + split; [discriminate|]. intros H. inversion H; subst. congruence.
Qed.

Lemma cascade_range hi text_content patterns v :
  cascade hi patterns text_content = Some (Some v) ->
  Py.le Py.zero v = true /\ Py.le v hi = true.
Proof.
  intros H. apply cascade_first in H as (b & p & a & _ & _ & Hp).
  eapply try_pattern_range, Hp.
Qed.

(** the ratings of every record the parser returns are in range *)
Lemma parsed_in_range elem professor dept number r :
  _parse_review_element elem professor dept number = Some r -> Spec.in_range r.
Proof.
  unfold _parse_review_element. intros H.
  destruct (candidate elem professor dept number) as [c|] eqn:Hc; [|discriminate].
  destruct (meaningful c); [|discriminate]. inversion H; subst c. clear H.
  unfold candidate in Hc.
  destruct (extract_quality (get_text elem)) as [q|] eqn:Hq; [|discriminate].
  destruct (extract_workload (get_text elem)) as [w|] eqn:Hw; [|discriminate].
  destruct (extract_quarter (get_text elem)) as [t|]; [|discriminate].
  destruct (extract_grade (get_text elem)) as [g|]; [|discriminate].
  simpl in Hc. inversion Hc; subst r. unfold Spec.in_range. simpl. split.
  - destruct q as [v|]; simpl; [|now vm_compute].
    eapply cascade_range, Hq.
  - destruct w as [v|]; simpl; [|now vm_compute].
    eapply cascade_range, Hw.
Qed.

(** *** The captured number is a literal [float] accepts *)

Lemma iter_digits s c s' c' :
  iter (trace digit) s c s' c' ->
  exists d, s = d ++ s' /\ Str.all Chars.is_digit d = true.
Proof.
  induction 1 as [s c|s c s1 c1 s2 c2 (ch & -> & Hd & _) _ (d & -> & Hall)].
  - now exists "".
  - exists (String ch d). split; [reflexivity|]. simpl. now rewrite Hd.
Qed.

Lemma digit_not_point ch : Chars.is_digit ch = true -> Ascii.eqb ch "." = false.
Proof.
  intros H. destruct (Ascii.eqb_spec ch "."%char) as [->|]; [|reflexivity].
  discriminate.
Qed.

Lemma split_point_digits d r :
  Str.all Chars.is_digit d = true ->
  Py.split_point (d ++ r) = (d ++ (Py.split_point r).1, (Py.split_point r).2).
Proof.
  induction d as [|ch d IH]; simpl; intros H.
  - rewrite !StrFacts.append_nil. now destruct (Py.split_point r).
  - apply andb_prop in H as [Hc Hd]. rewrite StrFacts.append_cons. simpl.
    rewrite (digit_not_point _ Hc), (IH Hd). reflexivity.
Qed.

Lemma append_empty (a : string) : a ++ "" = a.
Proof.
  induction a as [|ch a IH]; [reflexivity|].
  rewrite StrFacts.append_cons. now f_equal.
Qed.

Lemma decimal_is_literal s c s' c' :
  trace decimal s c s' c' ->
  exists w, s = w ++ s' /\ is_Some (Py.float_of_string w).
Proof.
  simpl. intros (s1 & c1 & (s0 & c0 & (ch & -> & Hch & _) & Hint) & Hfrac).
  apply iter_digits in Hint as (d & -> & Hd).
  assert (Hip : Py.is_digits (String ch d) = true).
  { unfold Py.is_digits. simpl. now rewrite Hch, Hd. }
  destruct Hfrac as [(s2 & c2 & (pt & -> & Hpt & _) & s3 & c3
                       & (ch2 & -> & Hch2 & _) & Hfr)|[-> _]].
  - apply iter_digits in Hfr as (d2 & -> & Hd2).
    apply Ascii.eqb_eq in Hpt as ->.
    assert (Hfp : Py.is_digits (String ch2 d2) = true).
    { unfold Py.is_digits. simpl. now rewrite Hch2, Hd2. }
    exists (String ch d ++ String "." (String ch2 d2)). split.
    + rewrite StrFacts.append_assoc. reflexivity.
    + unfold Py.float_of_string.
      rewrite (split_point_digits (String ch d)) by (simpl; now rewrite Hch, Hd).
      simpl Py.split_point. simpl fst. simpl snd.
      rewrite append_empty, Hip, Hfp. simpl. eauto.
  - exists (String ch d). split; [reflexivity|].
    unfold Py.float_of_string.
    rewrite <- (append_empty (String ch d)).
    rewrite (split_point_digits (String ch d)) by (simpl; now rewrite Hch, Hd).
    simpl Py.split_point. simpl fst. simpl snd.
    rewrite append_empty, Hip. eauto.
Qed.

(** a pattern of the cascades that matches yields a number: the handler of
    [ValueError] is never entered *)
Lemma matched_number pattern text_content m :
  captures 1 decimal pattern ->
  search pattern text_content = Some m ->
  exists s x, m !! 1%nat = Some s /\ Py.float_of_string s = Some x.
Proof.
  intros C H. apply search_sound in H as (s0 & s' & T).
  apply (trace_captures _ _ _ C) in T as (s1 & s2 & c1 & T & ->).
  apply decimal_is_literal in T as (w & -> & [x Hx]).
  exists w, x. rewrite lookup_insert_eq, StrFacts.consumed_append. auto.
Qed.

Lemma try_pattern_accepts hi text_content pattern v :
  try_pattern hi text_content pattern = Some (Some v) ->
  Spec.accepts hi text_content pattern v.
Proof.
  unfold try_pattern, Spec.accepts. intros H.
  destruct (search pattern text_content) as [m|]; [|discriminate].
  unfold group in H. destruct (m !! 1%nat) as [s|] eqn:Es; [|discriminate].
  simpl in H. destruct (Py.float_of_string s) as [x|] eqn:Ex; [|discriminate].
  destruct (Py.le Py.zero x && Py.le x hi) eqn:Er; [|discriminate].
  inversion H; subst. apply andb_prop in Er as [? ?].
  exists m, s. auto.
Qed.

(** what makes a pattern of a cascade fail: no match, or a number outside
    the range *)
Lemma try_pattern_fails hi text_content pattern :
  captures 1 decimal pattern ->
  (try_pattern hi text_content pattern = Some None <->
   Spec.rejects hi text_content pattern).
Proof.
  intros C. unfold try_pattern, Spec.rejects.
  destruct (search pattern text_content) as [m|] eqn:E.
  - destruct (matched_number _ _ _ C E) as (s & x & Hs & Hx).
    unfold group. rewrite Hs. simpl. rewrite Hx.
    destruct (Py.le Py.zero x && Py.le x hi) eqn:Er.
    + split; [discriminate|]. intros [?|(m' & s' & x' & Em & Hs' & Hx' & Hr)];
        [discriminate|]. congruence.
    + split; [|reflexivity]. intros _. right. exists m, s, x. auto.
  - split; auto.
Qed.

End ScraperFacts.

(** ** The acceptance rule and the pattern cascades *)

Module ParserClaims.
Import Re Scraper ScraperFacts Spec.

(** C2. For every page fragment the builder computes a candidate record
    (the exception handler is never entered), whose text is the truncated
    text and whose quality is the extracted one; the candidate is returned
    when its quality is positive or its text is longer than 10 characters,
    and nothing is returned otherwise. *)
Theorem parse_review_element_acceptance elem professor dept number :
  exists c q,
    candidate elem professor dept number = Some c
    /\ extract_quality (get_text elem) = Some q
    /\ quality c = default Py.zero q
    /\ text c = review_text elem
    /\ (Py.lt Py.zero (quality c) = true \/ (10 < String.length (text c))%nat
        <-> _parse_review_element elem professor dept number = Some c)
    /\ (~ (Py.lt Py.zero (quality c) = true \/ (10 < String.length (text c))%nat)
        <-> _parse_review_element elem professor dept number = None).
Proof.
  destruct (candidate_total elem professor dept number) as [c Hc].
  pose proof Hc as Hc'. unfold candidate in Hc'.
  destruct (extract_quality (get_text elem)) as [q|] eqn:Eq; [|discriminate].
  destruct (extract_workload (get_text elem)) as [w|]; [|discriminate].
  destruct (extract_quarter (get_text elem)) as [t|]; [|discriminate].
  destruct (extract_grade (get_text elem)) as [g|]; [|discriminate].
  simpl in Hc'. inversion Hc' as [Ec].
  exists c, q. rewrite <- Ec at 2 3. simpl.
  split; [exact Hc|]. do 3 (split; [reflexivity|]).
  unfold _parse_review_element. rewrite Hc. unfold meaningful.
  destruct (Py.lt Py.zero (quality c)) eqn:El; simpl.
  - split; split; auto; try discriminate. intros []. now left.
  - destruct (Nat.ltb_spec 10 (String.length (text c))) as [Hlen|Hlen].
    + split; split; auto; try discriminate. intros []. now right.
    + split; split; auto; try discriminate.
      * intros [?|?]; [discriminate | lia].
      * intros _ [?|?]; [discriminate | lia].
Qed.

(** C3. For every input text the quality cascade yields no value or a value
    [v] with [0 <= v <= 5], the workload cascade no value or one with
    [0 <= v <= 10]; a value comes from the first pattern of the ordered list
    whose matched value passes the range check, and there is no value exactly
    when every pattern fails to match or fails the check. *)
Theorem extracted_values_in_range text_content :
  (exists q, extract_quality text_content = Some q
             /\ cascade_outcome five quality_patterns text_content q)
  /\ (exists w, extract_workload text_content = Some w
                /\ cascade_outcome ten workload_patterns text_content w).
Proof.
  assert (G : forall hi patterns, Forall (ReSpec.captures 1 decimal) patterns ->
    exists q, cascade hi patterns text_content = Some q
              /\ cascade_outcome hi patterns text_content q).
  { intros hi patterns. induction 1 as [|p rest C _ (q & Hq & Ho)]; simpl.
    - exists None. split; [reflexivity | constructor].
    - destruct (try_pattern_total hi text_content _ _ C) as [[v|] Hp];
        rewrite Hp; simpl.
      + exists (Some v). split; [reflexivity|].
        destruct (try_pattern_range _ _ _ _ Hp) as [H0 H1].
        split; [exact H0|]. split; [exact H1|].
        exists [], p, rest. split; [reflexivity|]. split; [constructor|].
        now apply try_pattern_accepts.
      + apply (try_pattern_fails _ _ _ C) in Hp.
        exists q. split; [exact Hq|]. destruct q as [v|]; simpl in *.
        * destruct Ho as (H0 & H1 & b & p' & a & -> & Hb & Ha).
          split; [exact H0|]. split; [exact H1|].
          exists (p :: b), p', a. split; [reflexivity|].
          split; [now constructor | exact Ha].
        * now constructor. }
  split; apply G; [apply quality_patterns_capture | apply workload_patterns_capture].
Qed.

(** C9 (what the code does on the scenario). From the text of the scenario
    the parser extracts quality 4.5, workload 3.0, term [Fall] and year 2023,
    and the grade [A]: after the sign of [A-] there is no word boundary at
    the end of the text, so the match of the grade pattern stops before it. *)
Theorem example_extraction professor dept number :
  _parse_review_element [Text example_text] professor dept number =
  Some {| Scraper.professor := professor; Scraper.dept := dept;
          Scraper.number := number;
          quality := Py.float_of_decimal 45 1;
          workload := Py.float_of_Z 3;
          text := example_text;
          quarter := "Fall"; year := 2023; grade := "A";
          would_recommend := None |}.
Proof. vm_compute. reflexivity. Qed.

End ParserClaims.

(** ** The writer *)

Module SaverFacts.
Import Db Saver Spec SaverSpec.
#[local] Open Scope list_scope.

Lemma in_range_finite (x hi : Py.float) :
  hi = Scraper.five \/ hi = Scraper.ten ->
  Py.le Py.zero x = true -> Py.le x hi = true ->
  Py.int_of_float x = Some (trunc x).
Proof.
  intros Hhi H0 H1. unfold trunc.
  destruct x as [s|[|]| |s m e]; simpl; try reflexivity;
    destruct Hhi as [-> | ->]; discriminate.
Qed.

Lemma stored_quality_in_range review :
  in_range review -> stored_quality review = Some (quality_rule review).
Proof.
  intros [[H0 H1] _]. unfold stored_quality, quality_rule, clamp.
  rewrite (in_range_finite _ Scraper.five) by auto. reflexivity.
Qed.

Lemma stored_workload_in_range review :
  in_range review -> stored_workload review = Some (workload_rule review).
Proof.
  intros [_ [H0 H1]]. unfold stored_workload, workload_rule, clamp.
  destruct (Py.lt Py.zero (Scraper.workload review)); [|reflexivity].
  rewrite (in_range_finite _ Scraper.ten) by auto. reflexivity.
Qed.

Lemma stored_quality_bounds review q :
  stored_quality review = Some q -> 1 <= q <= 5.
Proof.
  unfold stored_quality. destruct (Py.int_of_float _); simpl; [|discriminate].
  intros H. inversion H. lia.
Qed.

Lemma stored_workload_bounds review w :
  stored_workload review = Some w -> 1 <= w <= 10.
Proof.
  unfold stored_workload.
  destruct (if Py.lt _ _ then _ else _); simpl; [|discriminate].
  intros H. inversion H. lia.
Qed.

(** the professor block: a hit leaves the state, a miss inserts the name
    under the next identifier *)
Lemma ensure_professor_cases prof_name st :
  (exists id, professor_cache st !! prof_name = Some id
              /\ ensure_professor prof_name st = st)
  \/ (professor_cache st !! prof_name = None
      /\ ensure_professor prof_name st =
         LoopState
           (execute (InsertProfessor (Professors.Row (next_prof_id st) prof_name))
                    (con st))
           (<[prof_name := next_prof_id st]> (professor_cache st))
           (next_prof_id st + 1) (next_section_id st) (next_review_id st)).
Proof.
  unfold ensure_professor.
  destruct (professor_cache st !! prof_name) as [id|]; [left|right]; eauto.
Qed.

Lemma ensure_professor_cached prof_name st :
  exists id, professor_cache (ensure_professor prof_name st) !! prof_name = Some id.
Proof.
  destruct (ensure_professor_cases prof_name st) as [(id & H & ->)|[_ ->]].
  - eauto.
  - simpl. rewrite lookup_insert_eq. eauto.
Qed.

Lemma ensure_professor_counters prof_name st :
  next_section_id (ensure_professor prof_name st) = next_section_id st
  /\ next_review_id (ensure_professor prof_name st) = next_review_id st.
Proof.
  destruct (ensure_professor_cases prof_name st) as [(id & H & ->)|[_ ->]]; auto.
Qed.

(** what one iteration of the loop does *)
Lemma save_review_cases course_id review st :
  let st1 := ensure_professor (Scraper.professor review) st in
  exists prof_id,
    professor_cache st1 !! Scraper.professor review = Some prof_id
    /\ let con2 :=
         execute (InsertSection
                    (Sections.Row (next_section_id st) course_id prof_id
                       (Scraper.quarter review) (Scraper.year review)))
                 (con st1) in
       match stored_quality review, stored_workload review with
       | Some q, Some w =>
           save_review course_id review st =
           inl (LoopState
                  (execute (InsertReview
                              (Reviews.Row (next_review_id st) (next_section_id st)
                                 q w (Str.take 500 (Scraper.text review))))
                           con2)
                  (professor_cache st1) (next_prof_id st1)
                  (next_section_id st + 1) (next_review_id st + 1))
       | _, _ => save_review course_id review st = inr con2
       end.
Proof.
  intros st1.
  destruct (ensure_professor_cached (Scraper.professor review) st) as [id Hid].
  destruct (ensure_professor_counters (Scraper.professor review) st) as [Hs Hr].
  exists id. split; [exact Hid|].
  subst st1. cbv zeta. unfold save_review, resolve_professor. cbv zeta.
  rewrite Hid, Hs, Hr.
  destruct (stored_quality review); [|reflexivity].
  destruct (stored_workload review); reflexivity.
Qed.

Lemma extends_refl con : extends con con [].
Proof. split; [now rewrite app_nil_r | reflexivity]. Qed.


Lemma extends_trans a b c j1 j2 :
  extends a b j1 -> extends b c j2 -> extends a c (j1 ++ j2).
Proof.
  intros [Ja Sa] [Jb Sb]. split.
  - now rewrite Jb, Ja, app_assoc.
  - unfold replay in *. now rewrite foldl_app, <- Sa, <- Sb.
Qed.

Lemma ensure_professor_tables prof_name st :
  let t := store (con st) in
  let t1 := store (con (ensure_professor prof_name st)) in
  courses t1 = courses t /\ sections t1 = sections t
  /\ Db.reviews t1 = Db.reviews t.
Proof.
  destruct (ensure_professor_cases prof_name st) as [(id & H & ->)|[_ ->]];
    simpl; auto.
Qed.

(** *** The review rows of one call *)

Lemma save_reviews_rows course_id reviews : forall st,
  exists rows,
    Db.reviews (store (save_reviews course_id reviews st))
    = Db.reviews (store (con st)) ++ rows
    /\ Forall within_bounds rows
    /\ (Forall in_range reviews ->
        Reviews.quality <$> rows = quality_rule <$> reviews
        /\ Reviews.workload <$> rows = workload_rule <$> reviews).
Proof.
  induction reviews as [|review rest IH]; intros st; simpl.
  - exists []. rewrite app_nil_r. repeat split; constructor.
  - destruct (save_review_cases course_id review st) as (pid & _ & Hcase).
    cbv zeta in Hcase.
    destruct (ensure_professor_tables (Scraper.professor review) st)
      as (_ & _ & Hrev). cbv zeta in Hrev.
    destruct (stored_quality review) as [q|] eqn:Eq;
      [destruct (stored_workload review) as [w|] eqn:Ew|].
    + rewrite Hcase.
      match goal with |- context [save_reviews _ _ ?st'] =>
        destruct (IH st') as (rows & Hrows & Hb & Hr) end.
      simpl in Hrows. rewrite Hrev in Hrows.
      eexists (_ :: rows). split; [rewrite Hrows, <- app_assoc; reflexivity|].
      split.
      * constructor; [|exact Hb]. split; simpl;
          eauto using stored_quality_bounds, stored_workload_bounds.
      * intros Hall. inversion Hall as [|? ? Hin Hrest]; subst.
        destruct (Hr Hrest) as [Hq Hw].
        rewrite (stored_quality_in_range _ Hin) in Eq.
        rewrite (stored_workload_in_range _ Hin) in Ew.
        inversion Eq; inversion Ew; subst.
        rewrite !fmap_cons. cbn [Reviews.quality Reviews.workload].
        now rewrite Hq, Hw.
    + rewrite Hcase. exists []. simpl. rewrite Hrev, app_nil_r.
      split; [reflexivity|]. split; [constructor|].
      intros Hall. inversion Hall as [|? ? Hin Hrest]; subst.
      rewrite (stored_workload_in_range _ Hin) in Ew. discriminate.
    + rewrite Hcase. exists []. simpl. rewrite Hrev, app_nil_r.
      split; [reflexivity|]. split; [constructor|].
      intros Hall. inversion Hall as [|? ? Hin Hrest]; subst.
      rewrite (stored_quality_in_range _ Hin) in Eq. discriminate.
Qed.

Lemma resolve_course_reviews cd ge_area con :
  Db.reviews (store (resolve_course cd ge_area con).2) = Db.reviews (store con).
Proof.
  unfold resolve_course. now destruct (find_course _ _ _).
Qed.

(** *** Identifier allocation *)

Lemma grows_refl l : grows l l.
Proof. exists []. rewrite app_nil_r. repeat split; constructor. Qed.

Lemma grows_snoc l n : Forall (fun i => i < n) l -> grows l (l ++ [n]).
Proof.
  intros H. exists [n]. split; [reflexivity|]. split.
  - repeat constructor.
  - now repeat constructor.
Qed.

Lemma grows_trans a b c : grows a b -> grows b c -> grows a c.
Proof.
  intros (n1 & -> & S1 & A1) (n2 & -> & S2 & A2).
  exists (n1 ++ n2). split; [now rewrite app_assoc|]. split.
  - apply StronglySorted_app_2; [|exact S1|exact S2].
    intros x1 x2 H1 H2. rewrite Forall_forall in A2.
    specialize (A2 _ H2). rewrite Forall_app in A2. destruct A2 as [_ A2].
    rewrite Forall_forall in A2. now apply A2.
  - rewrite Forall_app. split; [exact A1|].
    eapply Forall_impl; [exact A2|]. intros n Hn.
    now rewrite Forall_app in Hn.
Qed.

Lemma foldr_max_upper i rest :
  i <= foldr Z.max i rest /\ Forall (fun x => x <= foldr Z.max i rest) rest.
Proof.
  induction rest as [|a rest [IH1 IH2]]; simpl.
  - split; [lia | constructor].
  - split; [lia|]. constructor; [lia|].
    eapply Forall_impl; [exact IH2|]. simpl. lia.
Qed.

Lemma max_plus_one_above l : Forall (fun i => i < max_plus_one_or_1 l) l.
Proof.
  destruct l as [|i rest]; [constructor|]. unfold max_plus_one_or_1.
  destruct (foldr_max_upper i rest) as [H1 H2].
  set (m := foldr Z.max i rest) in *.
  assert (Hm : m < (if (m + 1 =? 0)%Z then 1 else m + 1)).
  { destruct (Z.eqb_spec (m + 1) 0); lia. }
  constructor; [lia|]. eapply Forall_impl; [exact H2|]. simpl. lia.
Qed.

Lemma start_bounded con : bounded (start con).
Proof. intros []; apply max_plus_one_above. Qed.

Ltac grows_tac B :=
  let k := fresh "k" in
  intros k; destruct k; simpl; rewrite ?fmap_app; simpl;
  first [ apply grows_refl
        | apply grows_snoc; first [apply (B Professor) | apply (B Section)
                                  | apply (B Review)] ].

Ltac bounded_tac B :=
  let k := fresh "k" in
  intros k; destruct k; simpl; rewrite ?fmap_app, ?Forall_app; simpl;
  repeat split;
  first [ apply (B Professor) | apply (B Section) | apply (B Review)
        | eapply Forall_impl;
          [first [apply (B Professor) | apply (B Section) | apply (B Review)]
          | simpl; intros; lia]
        | repeat constructor; lia ].

Lemma ensure_professor_grows prof_name st :
  bounded st ->
  bounded (ensure_professor prof_name st)
  /\ forall k, grows (ids k (store (con st)))
                     (ids k (store (con (ensure_professor prof_name st)))).
Proof.
  intros B.
  destruct (ensure_professor_cases prof_name st) as [(id & H & ->)|[_ ->]].
  - split; [exact B | intros k; apply grows_refl].
  - split; [bounded_tac B | grows_tac B].
Qed.

Lemma save_review_grows course_id review st :
  bounded st ->
  match save_review course_id review st with
  | inl st' =>
      bounded st'
      /\ forall k, grows (ids k (store (con st))) (ids k (store (con st')))
  | inr c => forall k, grows (ids k (store (con st))) (ids k (store c))
  end.
Proof.
  intros B0.
  destruct (save_review_cases course_id review st) as (pid & _ & Hcase).
  cbv zeta in Hcase.
  destruct (ensure_professor_grows (Scraper.professor review) st B0) as [B G].
  destruct (ensure_professor_counters (Scraper.professor review) st) as [Hs Hr].
  set (st1 := ensure_professor (Scraper.professor review) st) in *.
  assert (Bs : Forall (fun i => i < next_section_id st)
                 (Sections.section_id <$> sections (store (con st1)))).
  { rewrite <- Hs. apply (B Section). }
  assert (Br : Forall (fun i => i < next_review_id st)
                 (Reviews.review_id <$> Db.reviews (store (con st1)))).
  { rewrite <- Hr. apply (B Review). }
  assert (Gsec : forall k, grows (ids k (store (con st1)))
    (ids k (apply (InsertSection
       (Sections.Row (next_section_id st) course_id pid
          (Scraper.quarter review) (Scraper.year review))) (store (con st1))))).
  { intros []; simpl; rewrite ?fmap_app; simpl;
      first [apply grows_refl | now apply grows_snoc]. }
  destruct (stored_quality review) as [q|];
    [destruct (stored_workload review) as [w|]|]; rewrite Hcase.
  - split.
    + intros []; simpl; rewrite ?fmap_app, ?Forall_app; simpl.
      * apply (B Professor).
      * split; [|repeat constructor; lia].
        eapply Forall_impl; [exact Bs | simpl; intros; lia].
      * split; [|repeat constructor; lia].
        eapply Forall_impl; [exact Br | simpl; intros; lia].
    + intros k. eapply grows_trans; [apply G|].
      eapply grows_trans; [apply Gsec|].
      destruct k; simpl; rewrite ?fmap_app; simpl;
        first [apply grows_refl | now apply grows_snoc].
  - intros k. eapply grows_trans; [apply G | apply Gsec].
  - intros k. eapply grows_trans; [apply G | apply Gsec].
Qed.

Lemma save_reviews_grows course_id reviews : forall st,
  bounded st ->
  forall k, grows (ids k (store (con st)))
                  (ids k (store (save_reviews course_id reviews st))).
Proof.
  induction reviews as [|review rest IH]; intros st B k; simpl.
  - apply grows_refl.
  - pose proof (save_review_grows course_id review st B) as H.
    destruct (save_review course_id review st) as [st'|c].
    + destruct H as [B' G]. eapply grows_trans; [apply G | now apply IH].
    + apply H.
Qed.

Lemma resolve_course_ids cd ge_area con k :
  ids k (store (resolve_course cd ge_area con).2) = ids k (store con).
Proof.
  unfold resolve_course. destruct (find_course _ _ _); now destruct k.
Qed.

Lemma save_course_grows cd ge_area con k :
  grows (ids k (store con)) (ids k (store (_save_course_to_db cd ge_area con))).
Proof.
  unfold _save_course_to_db.
  pose proof (resolve_course_ids cd ge_area con k) as E.
  destruct (resolve_course cd ge_area con) as [course_id con1]. simpl in E.
  rewrite <- E.
  apply (save_reviews_grows course_id (reviews cd) (start con1)),
    start_bounded.
Qed.

Lemma run_grows calls : forall con k,
  grows (ids k (store con)) (ids k (store (run calls con))).
Proof.
  induction calls as [|[cd ge_area] rest IH]; intros con k; simpl.
  - apply grows_refl.
  - eapply grows_trans; [apply save_course_grows | apply IH].
Qed.

(** *** The professor cache *)





Lemma seed_cache_snoc ps p :
  seed_cache (ps ++ [p])
  = <[Professors.name p := Professors.prof_id p]> (seed_cache ps).
Proof. unfold seed_cache. now rewrite foldl_snoc. Qed.

(** a name is in the seeded cache exactly when a row of the table has it *)
Lemma seed_cache_None ps n :
  seed_cache ps !! n = None <-> forall p, p ∈ ps -> Professors.name p <> n.
Proof.
  induction ps as [|p ps IH] using rev_ind.
  - split; [intros _ p Hp; inversion Hp | reflexivity].
  - rewrite seed_cache_snoc. rewrite lookup_insert_None, IH. split.
    + intros [H Hne] q Hq. apply elem_of_app in Hq as [Hq|Hq]; [auto|].
      apply list_elem_of_singleton in Hq as ->. exact Hne.
    + intros H. split.
      * intros q Hq. apply H, elem_of_app. now left.
      * apply H, elem_of_app. right. now apply list_elem_of_singleton.
Qed.

Lemma seed_cache_Some ps n id :
  seed_cache ps !! n = Some id ->
  exists p, p ∈ ps /\ Professors.name p = n /\ Professors.prof_id p = id.
Proof.
  induction ps as [|p ps IH] using rev_ind.
  - unfold seed_cache. simpl. now rewrite lookup_empty.
  - rewrite seed_cache_snoc.
    destruct (decide (Professors.name p = n)) as [E|Hne].
    + rewrite E, lookup_insert_eq. intros H. inversion H; subst.
      exists p. split; [|auto]. apply elem_of_app. right.
      now apply list_elem_of_singleton.
    + rewrite lookup_insert_ne by done. intros H.
      destruct (IH H) as (q & Hq & Hn & Hi). exists q. split; [|auto].
      apply elem_of_app. now left.
Qed.

(** *** The order of the inserts *)

Lemma start_resolved course_id con :
  course_id ∈ (Courses.course_id <$> courses (store con)) ->
  resolved course_id (start con).
Proof.
  intros H. split; [exact H|]. intros n id Hn. simpl in *.
  apply seed_cache_Some in Hn as (p & Hp & _ & <-).
  apply list_elem_of_fmap. eauto.
Qed.

Lemma find_course_present t d n course_id :
  find_course t d n = Some course_id ->
  course_id ∈ (Courses.course_id <$> courses t).
Proof.
  unfold find_course. destruct (List.find _ _) as [c|] eqn:E; [|discriminate].
  simpl. intros H. inversion H; subst. apply List.find_some in E as [Hin _].
  apply list_elem_of_fmap. exists c. split; [reflexivity|].
  now apply list_elem_of_In.
Qed.

Lemma save_review_integrity course_id review st :
  in_range review -> resolved course_id st ->
  exists st' js sec rv,
    save_review course_id review st = inl st'
    /\ resolved course_id st'
    /\ extends (con st) (con st') js
    /\ (js = [InsertSection sec; InsertReview rv]
        \/ exists p, js = [InsertProfessor p; InsertSection sec; InsertReview rv])
    /\ forall rest,
         integrity (store (con st')) rest ->
         integrity (store (con st)) (js ++ rest).
Proof.
  intros Hin [Hc Hp].
  destruct (save_review_cases course_id review st) as (pid & Hpid & Hcase).
  cbv zeta in Hcase.
  rewrite (stored_quality_in_range _ Hin), (stored_workload_in_range _ Hin)
    in Hcase.
  destruct (ensure_professor_cases (Scraper.professor review) st)
    as [(id & Hhit & E)|[Hmiss E]]; rewrite E in Hcase, Hpid; clear E.
  - rewrite Hhit in Hpid. inversion Hpid; subst id.
    eexists _, _, _, _. split; [exact Hcase|]. split; [|split; [|split]].
    + split; simpl; [exact Hc|]. exact Hp.
    + split; simpl; [rewrite <- app_assoc|]; reflexivity.
    + left. reflexivity.
    + intros rest Hrest. simpl. repeat split; [exact Hc| |exact Hrest].
      exact (Hp _ _ Hhit).
  - simpl in Hpid. rewrite lookup_insert_eq in Hpid. inversion Hpid; subst pid.
    eexists _, _, _, _. split; [exact Hcase|]. split; [|split; [|split]].
    + split; simpl; [exact Hc|].
      apply map_Forall_insert_2.
      * rewrite fmap_app. apply elem_of_app. right.
        now apply list_elem_of_singleton.
      * intros n id Hn. rewrite fmap_app. apply elem_of_app. left.
        exact (Hp _ _ Hn).
    + split; simpl; [rewrite <- !app_assoc|]; reflexivity.
    + right. eexists. reflexivity.
    + intros rest Hrest. simpl. repeat split; [exact Hc| |exact Hrest].
      rewrite fmap_app. apply elem_of_app. right.
      now apply list_elem_of_singleton.
Qed.

Lemma save_reviews_integrity course_id reviews : forall st,
  Forall in_range reviews -> resolved course_id st ->
  exists js,
    extends (con st) (save_reviews course_id reviews st) js
    /\ integrity (store (con st)) js
    /\ length (List.filter is_section js) = length reviews
    /\ length (List.filter is_review js) = length reviews.
Proof.
  induction reviews as [|review rest IH]; intros st Hall Hres; simpl.
  - exists []. split; [apply extends_refl|]. now repeat split.
  - inversion Hall as [|? ? Hin Hrest]; subst.
    destruct (save_review_integrity course_id review st Hin Hres)
      as (st' & js & sec & rv & Hs & Hres' & Hext & Hshape & Hint).
    rewrite Hs.
    destruct (IH st' Hrest Hres') as (js' & Hext' & Hint' & Hn1 & Hn2).
    exists (js ++ js'). split; [eapply extends_trans; eassumption|].
    split; [now apply Hint|].
    rewrite !List.filter_app, !length_app, Hn1, Hn2.
    destruct Hshape as [-> | [p ->]]; simpl; auto.
Qed.


End SaverFacts.

(** ** Claims about the writer *)

Module WriterClaims.
Import Db Saver Spec SaverSpec SaverFacts Examples.
#[local] Open Scope list_scope.

Lemma StronglySorted_lt_NoDup (l : list Z) : StronglySorted Z.lt l -> NoDup l.
Proof.
  induction 1 as [|x l _ IH Hx]; constructor; [|exact IH].
  intros Hin. rewrite Forall_forall in Hx. specialize (Hx _ Hin). lia.
Qed.

(** C4 (as the code has it). The review rows one call adds to the store
    have a quality in [1,5] and a workload in [1,10]; for reviews with
    ratings in the ranges of the parser there is one row per review, in
    order, whose quality is the truncated quality clamped to [1,5] and whose
    workload is the truncated workload clamped to [1,10] when the workload is
    positive, and 5 when it is 0. *)
Theorem stored_ratings_clamped cd ge_area con
    (Hin : Forall in_range (reviews cd)) :
  exists rows,
    Db.reviews (store (_save_course_to_db cd ge_area con))
    = Db.reviews (store con) ++ rows
    /\ Forall within_bounds rows
    /\ Reviews.quality <$> rows = quality_rule <$> reviews cd
    /\ Reviews.workload <$> rows = workload_rule <$> reviews cd.
Proof.
  unfold _save_course_to_db.
  pose proof (resolve_course_reviews cd ge_area con) as E.
  destruct (resolve_course cd ge_area con) as [course_id con1]. simpl in E.
  destruct (save_reviews_rows course_id (reviews cd) (start con1))
    as (rows & Hrows & Hb & Hr).
  exists rows. simpl in Hrows. rewrite Hrows, E.
  destruct (Hr Hin) as [Hq Hw]. auto.
Qed.

Lemma stored_ratings_clamped_witness :
  Forall in_range (reviews sample_course)
  /\ exists rows,
       Db.reviews (store (_save_course_to_db sample_course "Science"
                            (open seeded)))
       = Db.reviews (store (open seeded)) ++ rows
       /\ Forall within_bounds rows
       /\ Reviews.quality <$> rows = quality_rule <$> reviews sample_course
       /\ Reviews.workload <$> rows = workload_rule <$> reviews sample_course.
Proof.
  split; [repeat constructor|].
  apply (stored_ratings_clamped sample_course "Science" (open seeded)).
  repeat constructor.
Defined.

(** C4 (the claim fails). The fragment [idle_text] is kept, its workload is
    extracted as 0, which lies below [1,10] and whose nearest bound is 1;
    the row stored for it has workload 5. *)
Lemma zero_workload_stored_as_five :
  Scraper._parse_review_element [Scraper.Text idle_text] "Jones" "MATH" "1"
  = Some idle_review
  /\ Scraper.extract_workload idle_text = Some (Some Py.zero)
  /\ clamp 1 10 (trunc (Scraper.workload idle_review)) = 1
  /\ Reviews.workload
       <$> Db.reviews (store (_save_course_to_db idle_course "Science"
                                (open seeded)))
     = [5].
Proof. repeat split; vm_compute; reflexivity. Qed.

(** C5. Over the calls of one run, the identifiers of the professors, of
    the sections and of the reviews added to the store are each above every
    identifier of their kind that was in the store when the run started,
    they increase in the order of allocation, and no two of them are equal. *)
Theorem allocated_ids_fresh calls con k :
  exists news,
    ids k (store (run calls con)) = ids k (store con) ++ news
    /\ StronglySorted Z.lt news
    /\ NoDup news
    /\ forall n i, n ∈ news -> i ∈ ids k (store con) -> i < n.
Proof.
  destruct (run_grows calls con k) as (news & E & Hs & Ha).
  exists news. split; [exact E|]. split; [exact Hs|].
  split; [now apply StronglySorted_lt_NoDup|].
  intros n i Hn Hi. rewrite Forall_forall in Ha. specialize (Ha _ Hn).
  rewrite Forall_forall in Ha. now apply Ha.
Qed.







End WriterClaims.

(** ** The queries *)

Module RankingFacts.
Import Db Sql Ranking.
#[local] Open Scope list_scope.

Lemma StronglySorted_sublist {X} (R : relation X) l1 l2 :
  l1 `sublist_of` l2 -> StronglySorted R l2 -> StronglySorted R l1.
Proof.
  induction 1 as [|x l1 l2 Hs IH|x l1 l2 Hs IH]; intros H.
  - constructor.
  - apply StronglySorted_cons in H as [Hx H]. constructor; [auto|].
    rewrite Forall_forall in *. intros y Hy. apply Hx.
    eapply elem_of_sublist; eassumption.
  - apply StronglySorted_cons in H as [_ H]. auto.
Qed.

Lemma StronglySorted_lookup {X} (R : relation X) l :
  StronglySorted R l ->
  forall i j a b, (i < j)%nat -> l !! i = Some a -> l !! j = Some b -> R a b.
Proof.
  induction 1 as [|x l _ IH Hx]; intros i j a b Hij Hi Hj.
  - now rewrite lookup_nil in Hi.
  - destruct j as [|j]; [lia|]. simpl in Hj. destruct i as [|i]; simpl in Hi.
    + inversion Hi; subst. rewrite Forall_forall in Hx.
      eapply Hx, list_elem_of_lookup_2, Hj.
    + eapply (IH i j); [lia|eassumption..].
Qed.

Lemma StronglySorted_within {X} (R : relation X) (P : X -> Prop) l :
  Forall P l -> StronglySorted R l ->
  StronglySorted (fun x y => P x /\ P y /\ R x y) l.
Proof.
  intros HP. induction 1 as [|x l _ IH Hx]; [constructor|].
  apply Forall_cons in HP as [Px HP]. constructor; [auto|].
  rewrite Forall_forall in *. auto.
Qed.

Lemma distinct_sublist {X} `{EqDecision X} (l : list X) :
  distinct l `sublist_of` l.
Proof.
  induction l as [|x l IH]; simpl; [constructor|].
  apply sublist_skip. etrans; [apply sublist_filter | exact IH].
Qed.

Lemma elem_of_distinct {X} `{EqDecision X} (l : list X) x :
  x ∈ distinct l <-> x ∈ l.
Proof.
  induction l as [|y l IH]; simpl; [reflexivity|].
  rewrite !elem_of_cons, list_elem_of_filter, IH.
  destruct (decide (x = y)); tauto.
Qed.

Lemma NoDup_distinct {X} `{EqDecision X} (l : list X) : NoDup (distinct l).
Proof.
  induction l as [|y l IH]; simpl; constructor.
  - rewrite list_elem_of_filter. tauto.
  - now apply NoDup_filter.
Qed.

Lemma fmap_Permutation_inv {X Y} (f : X -> Y) l ks :
  l ≡ₚ f <$> ks -> exists ks', ks' ≡ₚ ks /\ l = f <$> ks'.
Proof.
  intros H. remember (f <$> ks) as l' eqn:E. revert ks E.
  induction H as [|y l l' _ IH|y z l|l l' l'' _ IH1 _ IH2]; intros ks E.
  - exists []. symmetry in E. apply fmap_nil_inv in E as ->. done.
  - destruct ks as [|k ks]; [discriminate|]. injection E as -> ->.
    destruct (IH ks eq_refl) as (ks' & Hp & ->).
    exists (k :: ks'). split; [now constructor | reflexivity].
  - destruct ks as [|k1 [|k2 ks]]; try discriminate. injection E as -> -> ->.
    exists (k2 :: k1 :: ks). split; [apply perm_swap | reflexivity].
  - destruct (IH2 ks E) as (ks2 & Hp2 & E2).
    destruct (IH1 ks2 E2) as (ks1 & Hp1 & E1).
    exists ks1. split; [etrans; eassumption | exact E1].
Qed.

Lemma filter_fmap {X Y} (f : X -> Y) (P : Y -> Prop)
    `{!forall y, Decision (P y)} (l : list X) :
  filter P (f <$> l) = f <$> filter (fun x => P (f x)) l.
Proof.
  induction l as [|x l IH]; [reflexivity|].
  rewrite fmap_cons, !filter_cons.
  destruct (decide (P (f x))); simpl; now rewrite IH.
Qed.

Lemma StronglySorted_mono {X} (R S : relation X) l :
  (forall x y, R x y -> S x y) -> StronglySorted R l -> StronglySorted S l.
Proof.
  intros HRS. induction 1 as [|x l _ IH Hx]; constructor; [exact IH|].
  eapply Forall_impl; [exact Hx | auto].
Qed.

(** *** The join and the groups *)

Lemma joined_elem t area c s p r :
  (c, s, p, r) ∈ joined t area <->
  c ∈ courses t /\ s ∈ sections t /\ p ∈ professors t /\ r ∈ reviews t
  /\ Sections.course_id s = Courses.course_id c
  /\ Professors.prof_id p = Sections.prof_id s
  /\ Reviews.section_id r = Sections.section_id s
  /\ Courses.ge_area c = area.
Proof.
  unfold joined. rewrite list_elem_of_bind. split.
  - intros (c' & H & Hc). apply list_elem_of_bind in H as (s' & H & Hs).
    apply list_elem_of_bind in H as (p' & H & Hp).
    apply list_elem_of_bind in H as (r' & H & Hr).
    destruct (decide _) as [(H1 & H2 & H3 & H4)|]; [|inversion H].
    apply list_elem_of_singleton in H. inversion H; subst. tauto.
  - intros (Hc & Hs & Hp & Hr & H1 & H2 & H3 & H4).
    exists c. split; [|exact Hc]. apply list_elem_of_bind.
    exists s. split; [|exact Hs]. apply list_elem_of_bind.
    exists p. split; [|exact Hp]. apply list_elem_of_bind.
    exists r. split; [|exact Hr].
    destruct (decide _) as [|Hn]; [now apply list_elem_of_singleton|].
    exfalso. apply Hn. auto.
Qed.

Lemma ranked_rows (A : arith) t area min_reviews min_q max_w top_n row :
  row ∈ ranked_query A t area min_reviews min_q max_w top_n ->
  exists k, k ∈ (key_of <$> joined t area)
    /\ row = select A (group_stats A (joined t area) k).
Proof.
  unfold ranked_query. intros Hrow.
  apply elem_of_take in Hrow as (i & Hi & _).
  apply list_elem_of_lookup_2 in Hi.
  rewrite merge_sort_Permutation in Hi.
  apply list_elem_of_fmap in Hi as (g & -> & Hg).
  apply list_elem_of_filter in Hg as [_ Hg].
  unfold course_stats in Hg.
  apply list_elem_of_filter in Hg as [_ Hg].
  apply list_elem_of_fmap in Hg as (k & -> & Hk).
  rewrite elem_of_distinct in Hk. eauto.
Qed.

(** *** The order of the ranking *)

Section Order.
Variable A : arith.
Hypothesis HA : ordered A.

Lemma leb_refl (x : num A) : leb A x x = true.
Proof. destruct (leb_total A HA x x); assumption. Qed.

Lemma outranks_spec a b :
  outranks A a b <->
  leb A (score b) (score a) = true
  /\ (leb A (score a) (score b) = true ->
      leb A (avg_quality b) (avg_quality a) = true).
Proof.
  unfold outranks, outranksb.
  destruct (leb A (score a) (score b)) eqn:E1;
    destruct (leb A (score b) (score a)) eqn:E2.
  - tauto.
  - split; [discriminate|]. intros [? _]. discriminate.
  - split; [|reflexivity]. intros _. split; [reflexivity | discriminate].
  - destruct (leb_total A HA (score a) (score b)); congruence.
Qed.

#[local] Instance outranks_total : Total (outranks A).
Proof.
  intros a b. rewrite !outranks_spec.
  destruct (leb A (score a) (score b)) eqn:E1;
    destruct (leb A (score b) (score a)) eqn:E2.
  - destruct (leb_total A HA (avg_quality a) (avg_quality b)); auto.
  - right. split; [reflexivity | discriminate].
  - left. split; [reflexivity | discriminate].
  - destruct (leb_total A HA (score a) (score b)); congruence.
Qed.

#[local] Instance outranks_trans : Transitive (outranks A).
Proof.
  intros a b c. rewrite !outranks_spec. intros [Hba Hab] [Hcb Hbc].
  pose proof (leb_trans A HA) as T. split; [eauto|].
  intros Hac. eauto 6.
Qed.

Lemma ranked_sorted l : StronglySorted (outranks A) (merge_sort (outranks A) l).
Proof. apply StronglySorted_merge_sort; apply _. Qed.

End Order.

(** *** The order of the fallback *)

Lemma leb_le a b : String.leb a b = true <-> String.le a b.
Proof. unfold String.le. symmetry. apply Is_true_true. Qed.

Lemma ltb_leb a b :
  String.ltb a b = true <-> String.leb a b = true /\ a <> b.
Proof.
  unfold String.ltb, String.leb.
  destruct (String.compare a b) eqn:E.
  - apply String.compare_eq_iff in E. split; [discriminate | tauto].
  - split; [|reflexivity]. intros _. split; [reflexivity|].
    intros ->. pose proof (String.compare_antisym b b) as Ha.
    rewrite E in Ha. discriminate.
  - split; [discriminate | intros [? _]; discriminate].
Qed.

(** [ORDER BY c.dept, c.number] is the lexicographic order *)
Lemma by_dept_number_spec c d :
  by_dept_number c d <->
  String.ltb (Courses.dept c) (Courses.dept d) = true
  \/ (Courses.dept c = Courses.dept d
      /\ String.leb (Courses.number c) (Courses.number d) = true).
Proof.
  unfold by_dept_number, by_dept_numberb.
  destruct (String.ltb _ _) eqn:E1; [tauto|].
  destruct (String.eqb_spec (Courses.dept c) (Courses.dept d)) as [E|E].
  - split; [auto|]. now intros [?|[_ ?]].
  - split; [discriminate|]. now intros [?|[? _]].
Qed.

#[local] Instance by_dept_number_total : Total by_dept_number.
Proof.
  intros c d. rewrite !by_dept_number_spec, !ltb_leb.
  destruct (decide (Courses.dept c = Courses.dept d)) as [E|E].
  - destruct (String.leb_total (Courses.number c) (Courses.number d)); auto.
  - destruct (String.leb_total (Courses.dept c) (Courses.dept d)); auto.
Qed.

#[local] Instance by_dept_number_trans : Transitive by_dept_number.
Proof.
  intros c d e. rewrite !by_dept_number_spec, !ltb_leb, !leb_le.
  intros [[H1 N1]|[E1 H1]] [[H2 N2]|[E2 H2]].
  - left. split; [etrans; eassumption|]. intros E. rewrite E in H1.
    apply N2. now apply (anti_symm String.le).
  - left. rewrite <- E2. auto.
  - left. rewrite E1. auto.
  - right. split; [congruence | etrans; eassumption].
Qed.

Lemma fallback_sorted l :
  StronglySorted by_dept_number (merge_sort by_dept_number l).
Proof. apply StronglySorted_merge_sort; apply _. Qed.

(** *** The exact arithmetic is ordered *)

Lemma exact_ordered : ordered exact.
Proof.
  split; simpl.
  - intros x y. rewrite !Qle_bool_iff.
    destruct (Qlt_le_dec x y) as [H|H]; [left; now apply Qlt_le_weak | now right].
  - intros x y z. rewrite !Qle_bool_iff. apply Qle_trans.
Qed.

End RankingFacts.

(** ** Claims about the ranking *)

Module RankingClaims.
Import Db Sql Ranking RankingFacts Examples.
#[local] Open Scope list_scope.

(** C1 (the claim fails). In the store [close_scores] the composite score
    of the group of [Lee] is 101/30 = 3.3667 and that of the group of [Kim]
    is 118/35 = 3.3714.  Both are returned as 3.37, the rows are tied on the
    returned score, and [Lee] (mean quality 2.67) stands before [Kim] (mean
    quality 2.43): the row with the smaller composite score comes first. *)
Lemma rounded_scores_hide_the_order :
  (fun r : summary exact => (professor r, avg_quality r, score r))
    <$> rank exact close_scores "Science" 1 2%Q 8%Q 20%nat
  = [("Lee", (267 # 100)%Q, (337 # 100)%Q);
     ("Kim", (243 # 100)%Q, (337 # 100)%Q)]
  /\ (fun g : CourseStats.row exact =>
        (CourseStats.professor g, Qred (CourseStats.avg_quality g),
         Qred (CourseStats.avg_workload g), Qred (CourseStats.score g)))
       <$> course_stats exact close_scores "Science" 1
     = [("Lee", (8 # 3)%Q, (6 # 1)%Q, (101 # 30)%Q);
        ("Kim", (17 # 7)%Q, (38 # 7)%Q, (118 # 35)%Q)]
  /\ ((8 # 3) * (7 # 10) + (11 - 6) * (3 # 10) == 101 # 30)%Q
  /\ ((17 # 7) * (7 # 10) + (11 - (38 # 7)) * (3 # 10) == 118 # 35)%Q
  /\ (101 # 30 < 118 # 35)%Q.
Proof. repeat split; vm_compute; reflexivity. Qed.

(** C1 (as the code has it). The ranking query joins the four tables on
    their keys for the courses of the area and groups the rows by course
    and professor name.  A group passes when it has at least [min_reviews]
    reviews, its mean quality is at least [min_q] and its mean workload at
    most [max_w].  The row of a group carries the review count, the mean
    quality and the mean workload rounded to two decimals, and as its score
    the rounded value of [mean_quality * 0.7 + (11 - mean_workload) * 0.3].
    The result is the first [top_n] rows of a list that holds the row of
    every passing group once and in which a row [a] stands before a row [b]
    only when [a.score >= b.score] and, the scores being equal,
    [a.avg_quality >= b.avg_quality], both as returned, that is rounded. *)
Theorem ranking_sorted_by_rounded_score (A : arith) (HA : ordered A)
    t area min_reviews min_q max_w top_n :
  let result := ranked_query A t area min_reviews min_q max_w top_n in
  let rows := joined t area in
  let mean (xs : list Z) : num A :=
    div A (foldl (add A) (of_int A 0) (of_int A <$> xs))
          (of_int A (Z.of_nat (length xs))) in
  let members (k : group_key) := filter (fun x => key_of x = k) rows in
  let quality k := mean ((fun x => Reviews.quality x.2) <$> members k) in
  let workload k := mean ((fun x => Reviews.workload x.2) <$> members k) in
  let composite k :=
    add A (mul A (quality k) (of_decimal A 7 1))
          (mul A (sub A (of_int A 11) (workload k)) (of_decimal A 3 1)) in
  let row_of (k : group_key) : summary A :=
    Summary (Courses.dept k.1 ++ " " ++ Courses.number k.1)%string
            (Courses.title k.1) k.2 (Z.of_nat (length (members k)))
            (round2 A (quality k)) (round2 A (workload k))
            (round2 A (composite k)) in
  let before (a b : summary A) :=
    leb A (score b) (score a) = true
    /\ (leb A (score a) (score b) = true ->
        leb A (avg_quality b) (avg_quality a) = true) in
  ((0 < total_review_count t)%nat ->
   rank A t area min_reviews min_q max_w top_n = result)
  /\ (forall c s p r,
        (c, s, p, r) ∈ rows <->
        c ∈ courses t /\ s ∈ sections t /\ p ∈ professors t /\ r ∈ reviews t
        /\ Sections.course_id s = Courses.course_id c
        /\ Professors.prof_id p = Sections.prof_id s
        /\ Reviews.section_id r = Sections.section_id s
        /\ Courses.ge_area c = area)
  /\ (exists keys,
        NoDup keys
        /\ (forall k, k ∈ keys <->
              k ∈ (key_of <$> rows)
              /\ min_reviews <= Z.of_nat (length (members k))
              /\ leb A min_q (quality k) = true
              /\ leb A (workload k) max_w = true)
        /\ StronglySorted before (row_of <$> keys)
        /\ result = take top_n (row_of <$> keys))
  /\ (length result <= top_n)%nat
  /\ (forall i j a b, (i < j)%nat ->
        result !! i = Some a -> result !! j = Some b ->
        before a b
        /\ (score a = score b -> leb A (avg_quality b) (avg_quality a) = true)).
Proof.
  intros result rows mean members quality workload composite row_of before.
  set (pass1 := fun g : CourseStats.row A =>
                  min_reviews <= CourseStats.review_count g).
  set (pass2 := fun g : CourseStats.row A =>
                  leb A min_q (CourseStats.avg_quality g) = true
                  /\ leb A (CourseStats.avg_workload g) max_w = true).
  set (ks0 := filter (fun k => pass2 (group_stats A rows k))
                (filter (fun k => pass1 (group_stats A rows k))
                        (distinct (key_of <$> rows)))).
  assert (E0 : select A <$> filter pass2 (course_stats A t area min_reviews)
               = row_of <$> ks0).
  { unfold course_stats. fold rows. fold pass1.
    rewrite (filter_fmap (group_stats A rows) pass1).
    rewrite (filter_fmap (group_stats A rows) pass2).
    rewrite <- list_fmap_compose. reflexivity. }
  assert (Hsorted : StronglySorted before
                      (merge_sort (outranks A) (row_of <$> ks0))).
  { eapply StronglySorted_mono; [|apply (ranked_sorted A HA)].
    intros x y. apply (outranks_spec A HA). }
  destruct (fmap_Permutation_inv row_of
              (merge_sort (outranks A) (row_of <$> ks0)) ks0)
    as (keys & Hperm & Ekeys); [apply merge_sort_Permutation|].
  assert (Eres : result = take top_n (row_of <$> keys)).
  { unfold result, ranked_query. fold pass2. now rewrite E0, Ekeys. }
  split; [|split; [|split; [|split]]].
  - unfold rank. intros H. apply Nat.ltb_lt in H. now rewrite H.
  - intros c s p r. apply joined_elem.
  - exists keys. split; [|split; [|split]].
    + rewrite Hperm. unfold ks0. do 2 apply NoDup_filter. apply NoDup_distinct.
    + intros k. rewrite Hperm. unfold ks0.
      rewrite !list_elem_of_filter, elem_of_distinct. unfold pass1, pass2.
      simpl. fold (members k). tauto.
    + now rewrite <- Ekeys.
    + exact Eres.
  - rewrite Eres, length_take. lia.
  - intros i j a b Hij Hi Hj. rewrite Eres in Hi, Hj.
    apply lookup_take_Some in Hi as [Hi _].
    apply lookup_take_Some in Hj as [Hj _].
    rewrite <- Ekeys in Hi, Hj.
    pose proof (StronglySorted_lookup _ _ Hsorted i j a b Hij Hi Hj)
      as [H1 H2].
    split; [split; assumption|].
    intros E. apply H2. rewrite E. apply (leb_refl A HA).
Qed.

Lemma ranking_sorted_by_rounded_score_witness :
  ordered exact
  /\
     let result := ranked_query exact close_scores "Science" 1 2%Q 8%Q 20%nat in
     let rows := joined close_scores "Science" in
     let mean (xs : list Z) : num exact :=
       div exact (foldl (add exact) (of_int exact 0) (of_int exact <$> xs))
             (of_int exact (Z.of_nat (length xs))) in
     let members (k : group_key) := filter (fun x => key_of x = k) rows in
     let quality k := mean ((fun x => Reviews.quality x.2) <$> members k) in
     let workload k := mean ((fun x => Reviews.workload x.2) <$> members k) in
     let composite k :=
       add exact (mul exact (quality k) (of_decimal exact 7 1))
             (mul exact (sub exact (of_int exact 11) (workload k))
                  (of_decimal exact 3 1)) in
     let row_of (k : group_key) : summary exact :=
       Summary (Courses.dept k.1 ++ " " ++ Courses.number k.1)%string
               (Courses.title k.1) k.2 (Z.of_nat (length (members k)))
               (round2 exact (quality k)) (round2 exact (workload k))
               (round2 exact (composite k)) in
     let before (a b : summary exact) :=
       leb exact (score b) (score a) = true
       /\ (leb exact (score a) (score b) = true ->
           leb exact (avg_quality b) (avg_quality a) = true) in
     ((0 < total_review_count close_scores)%nat ->
      rank exact close_scores "Science" 1 2%Q 8%Q 20%nat = result)
     /\ (forall c s p r,
           (c, s, p, r) ∈ rows <->
           c ∈ courses close_scores /\ s ∈ sections close_scores
           /\ p ∈ professors close_scores /\ r ∈ reviews close_scores
           /\ Sections.course_id s = Courses.course_id c
           /\ Professors.prof_id p = Sections.prof_id s
           /\ Reviews.section_id r = Sections.section_id s
           /\ Courses.ge_area c = "Science")
     /\ (exists keys,
           NoDup keys
           /\ (forall k, k ∈ keys <->
                 k ∈ (key_of <$> rows)
                 /\ 1 <= Z.of_nat (length (members k))
                 /\ leb exact 2%Q (quality k) = true
                 /\ leb exact (workload k) 8%Q = true)
           /\ StronglySorted before (row_of <$> keys)
           /\ result = take 20 (row_of <$> keys))
     /\ (length result <= 20)%nat
     /\ (forall i j a b, (i < j)%nat ->
           result !! i = Some a -> result !! j = Some b ->
           before a b
           /\ (score a = score b ->
               leb exact (avg_quality b) (avg_quality a) = true)).
Proof.
  split; [exact exact_ordered|].
  exact (ranking_sorted_by_rounded_score exact exact_ordered close_scores
           "Science" 1 2%Q 8%Q 20%nat).
Defined.

(** the scenario of the specification: two groups with scores 4.9 and 3.0 *)
Example ranking_scenario :
  (fun r : summary exact => (course_code r, professor r, review_count r, score r))
    <$> rank exact scenario "Science" 1 (5 # 2)%Q 8%Q 20%nat
  = [("MATH 1", "Lee", 3, (490 # 100)%Q); ("ART 9", "Kim", 3, (300 # 100)%Q)].
Proof. vm_compute. reflexivity. Qed.

(** C8 (the claim fails). In the store [reviewed] the area ["Nature"] has a
    course and no review at all, while another area has reviews: the page
    runs the ranking query, which returns no row for ["Nature"]. *)
Lemma area_without_reviews_is_not_listed :
  joined reviewed "Nature" = []
  /\ Courses.dept <$> (filter (fun c => Courses.ge_area c = "Nature")
                              (courses reviewed) : list Courses.row) = ["ZOO"]
  /\ total_review_count reviewed = 3%nat
  /\ rank exact reviewed "Nature" 1 (5 # 2)%Q 8%Q 20%nat = [].
Proof. repeat split; vm_compute; reflexivity. Qed.

#[local] Instance no_reviews_inj (A : arith) : Inj (=) (=) (no_reviews A).
Proof. intros [a1 b1] [a2 b2] H. inversion H. reflexivity. Qed.

(** C8 (as the code has it). When the store holds no review at all, the
    page lists the courses of the requested area: the result is the first
    [top_n] rows of a list that holds, once each, the rows made of the code
    and the title of a course of the area with the fixed professor text and
    with review count, mean quality, mean workload and score all 0, in the
    order of the departments and, within a department, of the numbers; it
    is the whole list when the area has at most [top_n] courses.  When the
    store holds reviews and none of them is a review of a section of a
    course of the area, the page runs the ranking query and lists nothing. *)
Theorem fallback_lists_area_courses (A : arith)
    t area min_reviews min_q max_w top_n :
  let result := rank A t area min_reviews min_q max_w top_n in
  let area_courses := filter (fun c => Courses.ge_area c = area) (courses t) in
  let zero := of_decimal A 0 1 in
  let row_of (c : Courses.row) : summary A :=
    Summary (Courses.dept c ++ " " ++ Courses.number c)%string
            (Courses.title c) "No reviews available" 0 zero zero zero in
  let before (a b : summary A) :=
    exists ca cb,
      ca ∈ area_courses /\ cb ∈ area_courses
      /\ a = row_of ca /\ b = row_of cb
      /\ (String.ltb (Courses.dept ca) (Courses.dept cb) = true
          \/ (Courses.dept ca = Courses.dept cb
              /\ String.leb (Courses.number ca) (Courses.number cb) = true)) in
  (total_review_count t = 0%nat ->
   exists all,
     NoDup all
     /\ (forall row, row ∈ all <-> exists c, c ∈ area_courses /\ row = row_of c)
     /\ StronglySorted before all
     /\ result = take top_n all
     /\ (length result <= top_n)%nat
     /\ ((length area_courses <= top_n)%nat -> result = all))
  /\ ((0 < total_review_count t)%nat ->
      (forall c s r,
         c ∈ courses t -> s ∈ sections t -> r ∈ reviews t ->
         Courses.ge_area c = area ->
         Sections.course_id s = Courses.course_id c ->
         Reviews.section_id r = Sections.section_id s -> False) ->
      result = []).
Proof.
  intros result area_courses zero row_of before.
  split.
  - intros Hzero.
    set (sorted := merge_sort by_dept_number area_courses).
    set (all := no_reviews A <$> distinct (code_and_title <$> sorted)).
    assert (E : result = take top_n all).
    { unfold result, rank. now rewrite Hzero. }
    assert (Hperm : sorted ≡ₚ area_courses) by apply merge_sort_Permutation.
    assert (Hsub : all `sublist_of`
                     (no_reviews A <$> (code_and_title <$> sorted)))
      by apply fmap_sublist, distinct_sublist.
    assert (Hlen : (length all <= length area_courses)%nat).
    { etrans; [apply sublist_length, Hsub|].
      now rewrite !length_fmap, Hperm. }
    exists all. split; [|split; [|split; [|split; [|split]]]].
    + apply NoDup_fmap_2; [apply _ | apply NoDup_distinct].
    + intros row. unfold all. rewrite list_elem_of_fmap. split.
      * intros (ct & -> & Hct). rewrite elem_of_distinct in Hct.
        apply list_elem_of_fmap in Hct as (c & -> & Hc).
        rewrite Hperm in Hc. now exists c.
      * intros (c & Hc & ->). exists (code_and_title c).
        split; [reflexivity|]. apply elem_of_distinct, list_elem_of_fmap.
        exists c. split; [reflexivity|]. now rewrite Hperm.
    + eapply StronglySorted_sublist; [exact Hsub|].
      rewrite <- list_fmap_compose.
      eapply StronglySorted_fmap;
        [|apply (StronglySorted_within by_dept_number
                   (fun c => c ∈ area_courses));
          [|apply fallback_sorted]].
      * intros x y (Hx & Hy & Hxy). exists x, y.
        split; [exact Hx|]. split; [exact Hy|].
        split; [reflexivity|]. split; [reflexivity|].
        now apply by_dept_number_spec.
      * apply Forall_forall. intros x Hx. now rewrite <- Hperm.
    + exact E.
    + rewrite E, length_take. lia.
    + intros Hn. rewrite E. apply take_ge. lia.
  - intros Hpos Hnone. unfold result, rank.
    apply Nat.ltb_lt in Hpos. rewrite Hpos.
    assert (Ej : joined t area = []).
    { destruct (joined t area) as [|[[[c s] p] r] l] eqn:Ej; [reflexivity|].
      assert (Hin : (c, s, p, r) ∈ joined t area) by (rewrite Ej; left).
      apply joined_elem in Hin as (Hc & Hs & _ & Hr & H1 & _ & H3 & H4).
      destruct (Hnone c s r Hc Hs Hr H4 H1 H3). }
    unfold ranked_query, course_stats. rewrite Ej. simpl.
    now destruct top_n.
Qed.

Lemma fallback_lists_area_courses_witness :
  total_review_count seeded = 0%nat
  /\ (let result := rank exact seeded "Science" 1 (5 # 2)%Q 8%Q 20%nat in
      let area_courses :=
        filter (fun c => Courses.ge_area c = "Science") (courses seeded) in
      let zero := of_decimal exact 0 1 in
      let row_of (c : Courses.row) : summary exact :=
        Summary (Courses.dept c ++ " " ++ Courses.number c)%string
                (Courses.title c) "No reviews available" 0 zero zero zero in
      let before (a b : summary exact) :=
        exists ca cb,
          ca ∈ area_courses /\ cb ∈ area_courses
          /\ a = row_of ca /\ b = row_of cb
          /\ (String.ltb (Courses.dept ca) (Courses.dept cb) = true
              \/ (Courses.dept ca = Courses.dept cb
                  /\ String.leb (Courses.number ca) (Courses.number cb)
                     = true)) in
      exists all,
        NoDup all
        /\ (forall row, row ∈ all <->
              exists c, c ∈ area_courses /\ row = row_of c)
        /\ StronglySorted before all
        /\ result = take 20 all
        /\ (length result <= 20)%nat
        /\ ((length area_courses <= 20)%nat -> result = all))
  /\ (fun r : summary exact => (course_code r, title r, review_count r, score r))
       <$> rank exact seeded "Science" 1 (5 # 2)%Q 8%Q 20%nat
     = [("ART 9", "Painting", 0, (0 # 10)%Q);
        ("MATH 1", "Calculus", 0, (0 # 10)%Q)].
Proof.
  split; [reflexivity|]. split; [|vm_compute; reflexivity].
  exact (proj1 (fallback_lists_area_courses exact seeded "Science" 1
                  (5 # 2)%Q 8%Q 20%nat) eq_refl).
Defined.

End RankingClaims.

(** ** Invariants the writer keeps *)

Module StoreFacts.
Import Db Saver Spec SaverSpec SaverFacts StoreSpec.
#[local] Open Scope list_scope.

Lemma replay_tables t js :
  courses (replay t js) = courses t ++ course_rows js
  /\ professors (replay t js) = professors t ++ professor_rows js
  /\ sections (replay t js) = sections t ++ section_rows js
  /\ Db.reviews (replay t js) = Db.reviews t ++ review_rows js.
Proof.
  revert t. induction js as [|q js IH]; intros t.
  - unfold replay. simpl. now rewrite !app_nil_r.
  - unfold replay in *. simpl foldl.
    destruct (IH (apply q t)) as (Hc & Hp & Hs & Hr).
    rewrite Hc, Hp, Hs, Hr.
    destruct q; simpl; rewrite <- ?app_assoc; auto.
Qed.

Lemma section_rows_length js :
  length (section_rows js) = length (List.filter is_section js).
Proof.
  induction js as [|[]]; simpl; auto. Qed.

Lemma review_rows_length js :
  length (review_rows js) = length (List.filter is_review js).
Proof.
  induction js as [|[]]; simpl; auto. Qed.

(** *** The loop leaves the courses alone *)

Lemma save_reviews_courses course_id reviews : forall st,
  courses (store (save_reviews course_id reviews st)) = courses (store (con st)).
Proof.
  induction reviews as [|review rest IH]; intros st; simpl; [reflexivity|].
  destruct (save_review_cases course_id review st) as (pid & _ & Hcase).
  cbv zeta in Hcase.
  destruct (ensure_professor_tables (Scraper.professor review) st)
    as (Hc & _ & _). cbv zeta in Hc.
  destruct (stored_quality review); [destruct (stored_workload review)|];
    rewrite Hcase; [rewrite IH|..]; simpl; exact Hc.
Qed.

(** what a call does to the courses: nothing when the course is found, one
    row with the next identifier when it is not *)
Lemma save_course_courses cd ge_area con :
  match find_course (store con) (dept cd) (number cd) with
  | Some _ =>
      courses (store (_save_course_to_db cd ge_area con)) = courses (store con)
  | None =>
      courses (store (_save_course_to_db cd ge_area con))
      = courses (store con)
        ++ [Courses.Row
              (max_plus_one_or_1 (Courses.course_id <$> courses (store con)))
              (dept cd) (number cd) (title cd) ge_area]
  end.
Proof.
  unfold _save_course_to_db, resolve_course.
  destruct (find_course (store con) (dept cd) (number cd));
    now rewrite save_reviews_courses.
Qed.

(** *** Identifiers stay distinct *)

Lemma grows_NoDup old new : grows old new -> NoDup old -> NoDup new.
Proof.
  intros (news & -> & Hs & Ha) Hold. apply NoDup_app.
  split; [exact Hold|]. split.
  - intros x Hx Hn. rewrite Forall_forall in Ha. specialize (Ha _ Hn).
    rewrite Forall_forall in Ha. specialize (Ha _ Hx). lia.
  - clear Ha. induction Hs as [|x l _ IH Hx]; constructor; [|exact IH].
    intros Hin. rewrite Forall_forall in Hx. specialize (Hx _ Hin). lia.
Qed.

Lemma save_course_keys_unique cd ge_area con :
  keys_unique (store con) ->
  keys_unique (store (_save_course_to_db cd ge_area con)).
Proof.
  intros (Hc & Hp & Hs & Hr). split; [|split; [|split]].
  - pose proof (save_course_courses cd ge_area con) as E.
    destruct (find_course (store con) (dept cd) (number cd));
      rewrite E; [exact Hc|].
    rewrite fmap_app. apply NoDup_app. split; [exact Hc|]. split.
    + intros x Hx Hn. apply list_elem_of_fmap in Hn as (p & -> & Hq).
      apply list_elem_of_singleton in Hq as ->. simpl in Hx.
      pose proof (max_plus_one_above (Courses.course_id <$> courses (store con)))
        as Ha.
      rewrite Forall_forall in Ha. specialize (Ha _ Hx). lia.
    + apply NoDup_singleton.
  - eapply grows_NoDup; [apply (save_course_grows cd ge_area con Professor)|].
    exact Hp.
  - eapply grows_NoDup; [apply (save_course_grows cd ge_area con Section)|].
    exact Hs.
  - eapply grows_NoDup; [apply (save_course_grows cd ge_area con Review)|].
    exact Hr.
Qed.

(** *** References stay intact *)

Lemma intact_professor t p :
  references_intact t -> references_intact (apply (InsertProfessor p) t).
Proof.
  intros [Hs Hr]. split; simpl; [|exact Hr].
  intros s Hin. destruct (Hs s Hin) as [H1 H2]. split; [exact H1|].
  rewrite fmap_app. apply elem_of_app. now left.
Qed.

Lemma intact_course t c :
  references_intact t -> references_intact (apply (InsertCourse c) t).
Proof.
  intros [Hs Hr]. split; simpl; [|exact Hr].
  intros s Hin. destruct (Hs s Hin) as [H1 H2]. split; [|exact H2].
  rewrite fmap_app. apply elem_of_app. now left.
Qed.

Lemma intact_section t s :
  Sections.course_id s ∈ (Courses.course_id <$> courses t) ->
  Sections.prof_id s ∈ (Professors.prof_id <$> professors t) ->
  references_intact t -> references_intact (apply (InsertSection s) t).
Proof.
  intros Hc Hp [Hs Hr]. split; simpl.
  - intros x Hin. apply elem_of_app in Hin as [Hin|Hin]; [auto|].
    apply list_elem_of_singleton in Hin as ->. auto.
  - intros r Hin. rewrite fmap_app. apply elem_of_app. left. auto.
Qed.

Lemma intact_review t r :
  Reviews.section_id r ∈ (Sections.section_id <$> sections t) ->
  references_intact t -> references_intact (apply (InsertReview r) t).
Proof.
  intros Hsec [Hs Hr]. split; simpl; [exact Hs|].
  intros x Hin. apply elem_of_app in Hin as [Hin|Hin]; [auto|].
  apply list_elem_of_singleton in Hin as ->. exact Hsec.
Qed.

Lemma ensure_professor_resolved course_id prof_name st :
  resolved course_id st -> resolved course_id (ensure_professor prof_name st).
Proof.
  intros [Hc Hp].
  destruct (ensure_professor_cases prof_name st) as [(id & _ & ->)|[_ ->]];
    [now split|].
  split; simpl; [exact Hc|]. apply map_Forall_insert_2.
  - rewrite fmap_app. apply elem_of_app. right.
    now apply list_elem_of_singleton.
  - intros n id Hn. rewrite fmap_app. apply elem_of_app. left.
    exact (Hp _ _ Hn).
Qed.

Lemma ensure_professor_intact prof_name st :
  references_intact (store (con st)) ->
  references_intact (store (con (ensure_professor prof_name st))).
Proof.
  intros H.
  destruct (ensure_professor_cases prof_name st) as [(id & _ & ->)|[_ ->]];
    [exact H|]. simpl. now apply intact_professor.
Qed.

Lemma save_review_intact course_id review st :
  resolved course_id st -> references_intact (store (con st)) ->
  match save_review course_id review st with
  | inl st' => resolved course_id st' /\ references_intact (store (con st'))
  | inr c => references_intact (store c)
  end.
Proof.
  intros Hres Hint.
  destruct (save_review_cases course_id review st) as (pid & Hpid & Hcase).
  cbv zeta in Hcase.
  pose proof (ensure_professor_resolved _ (Scraper.professor review) _ Hres)
    as [Hc1 Hp1].
  pose proof (ensure_professor_intact (Scraper.professor review) _ Hint) as Hi1.
  set (st1 := ensure_professor (Scraper.professor review) st) in *.
  assert (Hsec : references_intact
            (apply (InsertSection
                      (Sections.Row (next_section_id st) course_id pid
                         (Scraper.quarter review) (Scraper.year review)))
                   (store (con st1)))).
  { apply intact_section; simpl; [exact Hc1 | exact (Hp1 _ _ Hpid) | exact Hi1]. }
  destruct (stored_quality review) as [q|];
    [destruct (stored_workload review) as [w|]|]; rewrite Hcase;
    [|exact Hsec|exact Hsec].
  split.
  - split; simpl; [exact Hc1 | exact Hp1].
  - refine (intact_review _
              (Reviews.Row (next_review_id st) (next_section_id st) q w
                 (Str.take 500 (Scraper.text review))) _ Hsec).
    simpl. rewrite fmap_app. apply elem_of_app. right.
    now apply list_elem_of_singleton.
Qed.

Lemma save_reviews_intact course_id reviews : forall st,
  resolved course_id st -> references_intact (store (con st)) ->
  references_intact (store (save_reviews course_id reviews st)).
Proof.
  induction reviews as [|review rest IH]; intros st Hres Hint; simpl; [exact Hint|].
  pose proof (save_review_intact course_id review st Hres Hint) as H.
  destruct (save_review course_id review st) as [st'|c]; [|exact H].
  destruct H as [Hres' Hint']. now apply IH.
Qed.

Lemma save_course_intact cd ge_area con :
  references_intact (store con) ->
  references_intact (store (_save_course_to_db cd ge_area con)).
Proof.
  intros Hint. unfold _save_course_to_db, resolve_course.
  destruct (find_course (store con) (dept cd) (number cd)) as [cid|] eqn:E.
  - apply save_reviews_intact; [|exact Hint].
    apply start_resolved. eapply find_course_present, E.
  - apply save_reviews_intact.
    + apply start_resolved. simpl. rewrite fmap_app. apply elem_of_app. right.
      now apply list_elem_of_singleton.
    + simpl. now apply intact_course.
Qed.

(** *** Professor names stay distinct *)

Lemma start_covers con : covers (start con).
Proof.
  intros n Hn Hin. simpl in *. apply list_elem_of_fmap in Hin as (p & -> & Hp).
  exact (proj1 (seed_cache_None _ _) Hn p Hp eq_refl).
Qed.

Lemma ensure_professor_names prof_name st :
  covers st -> names_unique (store (con st)) ->
  covers (ensure_professor prof_name st)
  /\ names_unique (store (con (ensure_professor prof_name st))).
Proof.
  intros Hcov Hu.
  destruct (ensure_professor_cases prof_name st) as [(id & _ & ->)|[Hm ->]];
    [now split|].
  split.
  - intros n Hn. simpl in *. apply lookup_insert_None in Hn as [Hn Hne].
    rewrite fmap_app, not_elem_of_app. split; [now apply Hcov|].
    intros Hin. apply list_elem_of_fmap in Hin as (p & -> & Hp).
    apply list_elem_of_singleton in Hp as ->. simpl in Hne. congruence.
  - unfold names_unique. simpl. rewrite fmap_app. apply NoDup_app.
    split; [exact Hu|]. split; [|apply NoDup_singleton].
    intros x Hx Hin. apply list_elem_of_fmap in Hin as (p & -> & Hp).
    apply list_elem_of_singleton in Hp as ->. exact (Hcov _ Hm Hx).
Qed.

Lemma save_review_names course_id review st :
  covers st -> names_unique (store (con st)) ->
  match save_review course_id review st with
  | inl st' => covers st' /\ names_unique (store (con st'))
  | inr c => names_unique (store c)
  end.
Proof.
  intros Hcov Hu.
  destruct (save_review_cases course_id review st) as (pid & _ & Hcase).
  cbv zeta in Hcase.
  destruct (ensure_professor_names (Scraper.professor review) st Hcov Hu)
    as [Hcov1 Hu1].
  destruct (stored_quality review) as [q|];
    [destruct (stored_workload review) as [w|]|]; rewrite Hcase;
    [|exact Hu1|exact Hu1].
  split; [exact Hcov1 | exact Hu1].
Qed.

Lemma save_reviews_names_unique course_id reviews : forall st,
  covers st -> names_unique (store (con st)) ->
  names_unique (store (save_reviews course_id reviews st)).
Proof.
  induction reviews as [|review rest IH]; intros st Hcov Hu; simpl; [exact Hu|].
  pose proof (save_review_names course_id review st Hcov Hu) as H.
  destruct (save_review course_id review st) as [st'|c]; [|exact H].
  destruct H as [Hcov' Hu']. now apply IH.
Qed.

Lemma save_course_names_unique cd ge_area con :
  names_unique (store con) ->
  names_unique (store (_save_course_to_db cd ge_area con)).
Proof.
  intros Hu. unfold _save_course_to_db, resolve_course.
  destruct (find_course (store con) (dept cd) (number cd)) as [cid|];
    apply save_reviews_names_unique; try apply start_covers; exact Hu.
Qed.

(** *** The course of a call *)

Lemma find_snoc {X} (f : X -> bool) l x :
  List.find f l = None -> f x = true -> List.find f (l ++ [x]) = Some x.
Proof.
  induction l as [|y l IH]; simpl; intros Hn Hx; [now rewrite Hx|].
  destruct (f y); [discriminate | auto].
Qed.

Lemma save_course_finds cd ge_area con :
  is_Some (find_course (store (_save_course_to_db cd ge_area con))
             (dept cd) (number cd)).
Proof.
  pose proof (save_course_courses cd ge_area con) as E.
  unfold find_course in *.
  destruct (List.find _ (courses (store con))) as [c|] eqn:Ef; simpl in E.
  - rewrite E, Ef. simpl. eauto.
  - rewrite E. erewrite find_snoc; [simpl; eauto | exact Ef |].
    simpl. now rewrite !String.eqb_refl.
Qed.

(** *** Counting the rows of a call *)

Lemma save_course_counts cd ge_area con :
  Forall in_range (reviews cd) ->
  let t' := store (_save_course_to_db cd ge_area con) in
  length (sections t') = (length (sections (store con)) + length (reviews cd))%nat
  /\ length (Db.reviews t')
     = (length (Db.reviews (store con)) + length (reviews cd))%nat.
Proof.
  intros Hin. unfold _save_course_to_db, resolve_course.
  assert (G : forall cid con1,
    cid ∈ (Courses.course_id <$> courses (store con1)) ->
    let t' := store (save_reviews cid (reviews cd) (start con1)) in
    length (sections t')
    = (length (sections (store con1)) + length (reviews cd))%nat
    /\ length (Db.reviews t')
       = (length (Db.reviews (store con1)) + length (reviews cd))%nat).
  { intros cid con1 Hc.
    destruct (save_reviews_integrity cid (reviews cd) (start con1) Hin
                (start_resolved _ _ Hc)) as (js & [_ Hst] & _ & H1 & H2).
    simpl in Hst. cbv zeta. rewrite Hst.
    destruct (replay_tables (store con1) js) as (_ & _ & Hs & Hr).
    rewrite Hs, Hr, !length_app, section_rows_length, review_rows_length.
    now rewrite H1, H2. }
  destruct (find_course (store con) (dept cd) (number cd)) as [cid|] eqn:E.
  - apply G. eapply find_course_present, E.
  - set (cid := max_plus_one_or_1 _). set (con1 := execute _ con).
    assert (Hc : cid ∈ (Courses.course_id <$> courses (store con1))).
    { simpl. rewrite fmap_app. apply elem_of_app. right.
      now apply list_elem_of_singleton. }
    exact (G cid con1 Hc).
Qed.

(** *** The professors of a call *)

Lemma ensure_professor_known prof_name st :
  known st ->
  known (ensure_professor prof_name st)
  /\ prof_name ∈ (Professors.name
                    <$> professors (store (con (ensure_professor prof_name st)))).
Proof.
  intros Hk.
  destruct (ensure_professor_cases prof_name st) as [(id & Hh & ->)|[_ ->]].
  - split; [exact Hk | exact (Hk _ _ Hh)].
  - assert (Hin : prof_name ∈ (Professors.name <$>
               professors (store (con st))
               ++ [Professors.Row (next_prof_id st) prof_name])).
    { rewrite fmap_app. apply elem_of_app. right.
      now apply list_elem_of_singleton. }
    split; [|exact Hin]. intros n id Hn. simpl in *.
    destruct (decide (prof_name = n)) as [<-|Hne]; [exact Hin|].
    rewrite lookup_insert_ne in Hn by done.
    rewrite fmap_app. apply elem_of_app. left. exact (Hk _ _ Hn).
Qed.

Lemma start_known con : known (start con).
Proof.
  intros n id Hn. simpl in *.
  apply seed_cache_Some in Hn as (p & Hp & <- & _).
  apply list_elem_of_fmap. eauto.
Qed.

Lemma save_reviews_names_present course_id reviews : forall st,
  Forall in_range reviews -> resolved course_id st -> known st ->
  forall r, r ∈ reviews ->
    Scraper.professor r
    ∈ (Professors.name
         <$> professors (store (save_reviews course_id reviews st))).
Proof.
  induction reviews as [|review rest IH]; intros st Hall Hres Hk r Hr;
    [inversion Hr|].
  inversion Hall as [|? ? Hin Hrest]; subst. simpl.
  destruct (save_review_integrity course_id review st Hin Hres)
    as (st' & js & sec & rv & Hs & Hres' & _ & _ & _).
  rewrite Hs.
  destruct (save_review_cases course_id review st) as (pid & _ & Hcase).
  cbv zeta in Hcase.
  rewrite (stored_quality_in_range _ Hin), (stored_workload_in_range _ Hin),
    Hs in Hcase.
  destruct (ensure_professor_known (Scraper.professor review) st Hk)
    as [Hk1 Hin1].
  assert (Hk' : known st') by (inversion Hcase; subst; exact Hk1).
  assert (Hn' : Scraper.professor review
                ∈ (Professors.name <$> professors (store (con st'))))
    by (inversion Hcase; subst; exact Hin1).
  apply elem_of_cons in Hr as [->|Hr]; [|now apply IH].
  destruct (save_reviews_integrity course_id rest st' Hrest Hres')
    as (js' & [_ Hst] & _).
  destruct (replay_tables (store (con st')) js') as (_ & Hp & _).
  rewrite Hst, Hp, fmap_app. apply elem_of_app. now left.
Qed.

Lemma save_reviews_all_cached course_id reviews : forall st,
  (forall r, r ∈ reviews -> is_Some (professor_cache st !! Scraper.professor r)) ->
  professors (store (save_reviews course_id reviews st))
  = professors (store (con st)).
Proof.
  induction reviews as [|review rest IH]; intros st Hall; simpl; [reflexivity|].
  destruct (Hall review) as [id Hid]; [now left|].
  destruct (save_review_cases course_id review st) as (pid & _ & Hcase).
  cbv zeta in Hcase.
  assert (E : ensure_professor (Scraper.professor review) st = st).
  { unfold ensure_professor. now rewrite Hid. }
  rewrite E in Hcase.
  destruct (stored_quality review); [destruct (stored_workload review)|];
    rewrite Hcase; [|reflexivity..].
  rewrite IH; [reflexivity|]. intros r Hr. simpl. apply Hall. now right.
Qed.

Lemma seed_cache_is_Some ps n :
  n ∈ (Professors.name <$> ps) -> is_Some (seed_cache ps !! n).
Proof.
  intros Hin. destruct (seed_cache ps !! n) as [id|] eqn:E; [eauto|].
  apply list_elem_of_fmap in Hin as (p & -> & Hp).
  exfalso. exact (proj1 (seed_cache_None _ _) E p Hp eq_refl).
Qed.

Lemma save_course_names_present cd ge_area con :
  Forall in_range (reviews cd) ->
  forall r, r ∈ reviews cd ->
    Scraper.professor r
    ∈ (Professors.name
         <$> professors (store (_save_course_to_db cd ge_area con))).
Proof.
  intros Hin. unfold _save_course_to_db, resolve_course.
  destruct (find_course (store con) (dept cd) (number cd)) as [cid|] eqn:E.
  - apply save_reviews_names_present; [exact Hin| |apply start_known].
    apply start_resolved. eapply find_course_present, E.
  - apply save_reviews_names_present; [exact Hin| |apply start_known].
    apply start_resolved. simpl. rewrite fmap_app. apply elem_of_app. right.
    now apply list_elem_of_singleton.
Qed.

Lemma save_course_professors_cached cd ge_area con :
  (forall r, r ∈ reviews cd ->
     Scraper.professor r ∈ (Professors.name <$> professors (store con))) ->
  professors (store (_save_course_to_db cd ge_area con))
  = professors (store con).
Proof.
  intros H. unfold _save_course_to_db, resolve_course.
  destruct (find_course (store con) (dept cd) (number cd)) as [cid|];
    rewrite save_reviews_all_cached; try reflexivity;
    intros r Hr; simpl; apply seed_cache_is_Some; auto.
Qed.

Lemma run_preserves (P : tables -> Prop) :
  (forall cd ge_area con, P (store con) ->
     P (store (_save_course_to_db cd ge_area con))) ->
  forall calls con, P (store con) -> P (store (run calls con)).
Proof.
  intros Hstep. induction calls as [|[cd ge_area] rest IH]; intros con H; simpl;
    auto.
Qed.

End StoreFacts.

(** ** What the writer keeps, and how calls compose *)

Module StoreInvariants.
Import Db Saver Spec SaverSpec SaverFacts StoreSpec StoreFacts Examples.
#[local] Open Scope list_scope.

Ltac notin_tac :=
  let H := fresh in
  intros H; repeat (apply elem_of_cons in H as [H|H]; [discriminate|]);
  inversion H.
Ltac nodup_tac :=
  simpl; repeat (apply NoDup_cons_2; [notin_tac|]); apply NoDup_nil_2.

Lemma seeded_keys_unique : keys_unique seeded.
Proof. repeat split; nodup_tac. Qed.

Lemma seeded_references_intact : references_intact seeded.
Proof. split; intros x Hx; inversion Hx. Qed.

Lemma seeded_names_unique : names_unique seeded.
Proof. unfold names_unique. nodup_tac. Qed.

Lemma sample_in_range : Forall in_range (reviews sample_course).
Proof. repeat constructor. Qed.

(** X1. Identifiers stay distinct: when no two rows of a table share their
    identifier before a call of [_save_course_to_db], none do after it, in
    any of the four tables and whatever the reviews are; the same holds
    after any sequence of calls. *)
Theorem save_keeps_keys_unique cd ge_area con (H : keys_unique (store con)) :
  keys_unique (store (_save_course_to_db cd ge_area con))
  /\ forall calls, keys_unique (store (run calls con)).
Proof.
  split; [now apply save_course_keys_unique|].
  intros calls. apply (run_preserves keys_unique); [|exact H].
  intros. now apply save_course_keys_unique.
Qed.

Lemma save_keeps_keys_unique_witness :
  keys_unique (store (open seeded))
  /\ keys_unique (store (_save_course_to_db sample_course "Science"
                           (open seeded)))
  /\ forall calls, keys_unique (store (run calls (open seeded))).
Proof.
  split; [exact seeded_keys_unique|].
  exact (save_keeps_keys_unique sample_course "Science" (open seeded)
           seeded_keys_unique).
Defined.

(** X2. References stay intact: when every section of the store refers to
    a course and a professor of the store and every review to a section,
    the same is true after a call of [_save_course_to_db], also when the
    call is cut short by an exception, and after any sequence of calls. *)
Theorem save_keeps_references cd ge_area con
    (H : references_intact (store con)) :
  references_intact (store (_save_course_to_db cd ge_area con))
  /\ forall calls, references_intact (store (run calls con)).
Proof.
  split; [now apply save_course_intact|].
  intros calls. apply (run_preserves references_intact); [|exact H].
  intros. now apply save_course_intact.
Qed.

Lemma save_keeps_references_witness :
  references_intact (store (open seeded))
  /\ references_intact (store (_save_course_to_db sample_course "Science"
                                 (open seeded)))
  /\ forall calls, references_intact (store (run calls (open seeded))).
Proof.
  split; [exact seeded_references_intact|].
  exact (save_keeps_references sample_course "Science" (open seeded)
           seeded_references_intact).
Defined.

(** X3. Professor names stay distinct: when no two professors of the store
    have the same name, a call of [_save_course_to_db] inserts a professor
    only under a name the table does not hold, so that no two have the same
    name after it, nor after any sequence of calls. *)
Theorem save_keeps_names_unique cd ge_area con (H : names_unique (store con)) :
  names_unique (store (_save_course_to_db cd ge_area con))
  /\ forall calls, names_unique (store (run calls con)).
Proof.
  split; [now apply save_course_names_unique|].
  intros calls. apply (run_preserves names_unique); [|exact H].
  intros. now apply save_course_names_unique.
Qed.

Lemma save_keeps_names_unique_witness :
  names_unique (store (open seeded))
  /\ names_unique (store (_save_course_to_db sample_course "Science"
                            (open seeded)))
  /\ forall calls, names_unique (store (run calls (open seeded))).
Proof.
  split; [exact seeded_names_unique|].
  exact (save_keeps_names_unique sample_course "Science" (open seeded)
           seeded_names_unique).
Defined.

(** X4. Get or create of the course: after a call the courses table holds
    a row with the department and number of the call, which the lookup
    finds; the call added at most one course row, and none when the lookup
    found one before; a later call for the same department and number adds
    no course, whatever its title and area. *)
Theorem course_is_created_once cd ge_area con :
  let con1 := _save_course_to_db cd ge_area con in
  is_Some (find_course (store con1) (dept cd) (number cd))
  /\ (is_Some (find_course (store con) (dept cd) (number cd)) ->
      courses (store con1) = courses (store con))
  /\ (find_course (store con) (dept cd) (number cd) = None ->
      exists id, courses (store con1)
                 = courses (store con)
                   ++ [Courses.Row id (dept cd) (number cd) (title cd) ge_area]
                 /\ Forall (fun i => i < id)
                           (Courses.course_id <$> courses (store con)))
  /\ forall cd' ge_area',
       dept cd' = dept cd -> number cd' = number cd ->
       courses (store (_save_course_to_db cd' ge_area' con1))
       = courses (store con1).
Proof.
  intros con1. pose proof (save_course_courses cd ge_area con) as E.
  split; [apply save_course_finds|]. split; [|split].
  - intros [c Hc]. now rewrite Hc in E.
  - intros Hn. rewrite Hn in E. eexists. split; [exact E|].
    apply max_plus_one_above.
  - intros cd' ge' Hd Hn.
    pose proof (save_course_courses cd' ge' con1) as E'.
    destruct (save_course_finds cd ge_area con) as [c Hc].
    fold con1 in Hc. rewrite Hd, Hn, Hc in E'. exact E'.
Qed.

(** X5. Saving the same course data twice: for reviews with ratings in the
    ranges of the parser, the second call inserts a new section and a new
    review for every review again (both tables grow by twice the number of
    reviews over the two calls), while it inserts no professor and no
    course. *)
Theorem second_save_duplicates_sections cd ge_area con
    (Hin : Forall in_range (reviews cd)) :
  let con1 := _save_course_to_db cd ge_area con in
  let con2 := _save_course_to_db cd ge_area con1 in
  length (sections (store con2))
  = (length (sections (store con)) + 2 * length (reviews cd))%nat
  /\ length (Db.reviews (store con2))
     = (length (Db.reviews (store con)) + 2 * length (reviews cd))%nat
  /\ professors (store con2) = professors (store con1)
  /\ courses (store con2) = courses (store con1).
Proof.
  intros con1 con2.
  destruct (save_course_counts cd ge_area con Hin) as [Hs1 Hr1].
  destruct (save_course_counts cd ge_area con1 Hin) as [Hs2 Hr2].
  fold con1 in Hs1, Hr1. fold con2 in Hs2, Hr2.
  split; [lia|]. split; [lia|]. split.
  - apply save_course_professors_cached.
    now apply save_course_names_present.
  - pose proof (save_course_courses cd ge_area con1) as E.
    destruct (save_course_finds cd ge_area con) as [c Hc].
    fold con1 in Hc. now rewrite Hc in E.
Qed.

Lemma second_save_duplicates_sections_witness :
  Forall in_range (reviews sample_course)
  /\ let con1 := _save_course_to_db sample_course "Science" (open seeded) in
     let con2 := _save_course_to_db sample_course "Science" con1 in
     length (sections (store con2))
     = (length (sections (store (open seeded)))
        + 2 * length (reviews sample_course))%nat
     /\ length (Db.reviews (store con2))
        = (length (Db.reviews (store (open seeded)))
           + 2 * length (reviews sample_course))%nat
     /\ professors (store con2) = professors (store con1)
     /\ courses (store con2) = courses (store con1).
Proof.
  split; [exact sample_in_range|].
  exact (second_save_duplicates_sections sample_course "Science" (open seeded)
           sample_in_range).
Defined.

End StoreInvariants.

(** ** The fields of a parsed record *)

Module FieldFacts.
Import Re ReSpec ReFacts Scraper ScraperFacts FieldSpec.

Lemma take_length n : forall s, (String.length (Str.take n s) <= n)%nat.
Proof.
  unfold Str.take. induction n as [|n IH]; intros [|c s]; simpl; try lia.
  specialize (IH s). lia.
Qed.

Lemma take_all n : forall s, (String.length s <= n)%nat -> Str.take n s = s.
Proof.
  unfold Str.take. induction n as [|n IH]; intros [|c s]; simpl; intros H;
    try reflexivity; try lia.
  rewrite IH by lia. reflexivity.
Qed.

Lemma review_text_is_cut elem : exists x, review_text elem = Str.take 500 x.
Proof.
  unfold review_text. destruct (find_string elem) as [s|]; [|eauto].
  destruct (String.eqb s ""); eauto.
Qed.

Lemma parsed_candidate elem professor dept number r :
  _parse_review_element elem professor dept number = Some r ->
  candidate elem professor dept number = Some r /\ meaningful r = true.
Proof.
  unfold _parse_review_element.
  destruct (candidate elem professor dept number) as [c|]; [|discriminate].
  destruct (meaningful c) eqn:E; [|discriminate].
  intros H. inversion H; subst. auto.
Qed.

(** the fields of a record in terms of the four extractions *)
Lemma candidate_fields elem p d n r :
  candidate elem p d n = Some r ->
  exists q w t g,
    extract_quality (get_text elem) = Some q
    /\ extract_workload (get_text elem) = Some w
    /\ extract_quarter (get_text elem) = Some t
    /\ extract_grade (get_text elem) = Some g
    /\ r = {| professor := p; dept := d; number := n;
              quality := default Py.zero q; workload := default Py.zero w;
              text := review_text elem;
              quarter := default "" (fst <$> t);
              year := default 2024 (snd <$> t);
              grade := default "" g; would_recommend := None |}.
Proof.
  unfold candidate. intros H.
  destruct (extract_quality _) as [q|]; [|discriminate].
  destruct (extract_workload _) as [w|]; [|discriminate].
  destruct (extract_quarter _) as [t|]; [|discriminate].
  destruct (extract_grade _) as [g|]; [|discriminate].
  simpl in H. inversion H. exists q, w, t, g. auto.
Qed.

(** *** The season word *)

(** a character that matches a lower-case letter under [re.I] *)
Lemma lit_i_letter c x :
  Chars.is_lower c = true -> Chars.lit_i c x = true ->
  Chars.to_lower x = c /\ Chars.to_upper x = Chars.to_upper c
  /\ (Chars.is_upper x || Chars.is_lower x) = true.
Proof.
  intros Hc H. unfold Chars.lit_i in H. apply Ascii.eqb_eq in H.
  assert (Hl : Chars.to_lower c = c).
  { unfold Chars.to_lower.
    destruct c as [[] [] [] [] [] [] [] []]; try discriminate; reflexivity. }
  rewrite Hl in H. subst c. split; [reflexivity|].
  destruct x as [[] [] [] [] [] [] [] []]; try discriminate; split; reflexivity.
Qed.

Ltac season_chars :=
  repeat match goal with
  | H : Chars.lit_i ?c ?x = true |- _ =>
      apply (lit_i_letter c x eq_refl) in H;
      let Hl := fresh "Hl" in let Hu := fresh "Hu" in let Hc := fresh "Hc" in
      destruct H as (Hl & Hu & Hc)
  end.

Lemma season_title s c s' c' :
  trace seasons s c s' c' ->
  exists w, s = w ++ s'
    /\ (Str.title w = "Fall" \/ Str.title w = "Winter"
        \/ Str.title w = "Spring" \/ Str.title w = "Summer").
Proof.
  unfold seasons. simpl. intros [H|[H|[H|H]]].
  - destruct H as (s1 & c1 & (x1 & -> & H1 & _) & s2 & c2 & (x2 & -> & H2 & _)
                   & s3 & c3 & (x3 & -> & H3 & _) & (x4 & -> & H4 & _)).
    season_chars.
    exists (String x1 (String x2 (String x3 (String x4 "")))).
    split; [reflexivity|]. left. unfold Str.title. simpl.
    repeat match goal with H : _ = _ |- _ => rewrite H end. reflexivity.
  - destruct H as (s1 & c1 & (x1 & -> & H1 & _) & s2 & c2 & (x2 & -> & H2 & _)
                   & s3 & c3 & (x3 & -> & H3 & _) & s4 & c4
                   & (x4 & -> & H4 & _) & s5 & c5 & (x5 & -> & H5 & _)
                   & (x6 & -> & H6 & _)).
    season_chars.
    exists (String x1 (String x2 (String x3 (String x4 (String x5
              (String x6 "")))))).
    split; [reflexivity|]. right. left. unfold Str.title. simpl.
    repeat match goal with H : _ = _ |- _ => rewrite H end. reflexivity.
  - destruct H as (s1 & c1 & (x1 & -> & H1 & _) & s2 & c2 & (x2 & -> & H2 & _)
                   & s3 & c3 & (x3 & -> & H3 & _) & s4 & c4
                   & (x4 & -> & H4 & _) & s5 & c5 & (x5 & -> & H5 & _)
                   & (x6 & -> & H6 & _)).
    season_chars.
    exists (String x1 (String x2 (String x3 (String x4 (String x5
              (String x6 "")))))).
    split; [reflexivity|]. right. right. left. unfold Str.title. simpl.
    repeat match goal with H : _ = _ |- _ => rewrite H end. reflexivity.
  - destruct H as (s1 & c1 & (x1 & -> & H1 & _) & s2 & c2 & (x2 & -> & H2 & _)
                   & s3 & c3 & (x3 & -> & H3 & _) & s4 & c4
                   & (x4 & -> & H4 & _) & s5 & c5 & (x5 & -> & H5 & _)
                   & (x6 & -> & H6 & _)).
    season_chars.
    exists (String x1 (String x2 (String x3 (String x4 (String x5
              (String x6 "")))))).
    split; [reflexivity|]. right. right. right. unfold Str.title. simpl.
    repeat match goal with H : _ = _ |- _ => rewrite H end. reflexivity.
Qed.

(** *** The year *)

Lemma digit_value_range c :
  Chars.is_digit c = true -> 0 <= Py.digit_value c <= 9.
Proof.
  unfold Chars.is_digit, Chars.between, Py.digit_value. intros H.
  apply andb_prop in H as [H1 H2].
  apply Nat.leb_le in H1. apply Nat.leb_le in H2. lia.
Qed.

Lemma four_digits_value s c s' c' :
  trace (cats [digit; digit; digit; digit]) s c s' c' ->
  exists w y, s = w ++ s' /\ Py.int_of_string w = Some y /\ 0 <= y <= 9999.
Proof.
  simpl. intros (s1 & c1 & (a & -> & Ha & _) & s2 & c2 & (b & -> & Hb & _)
                 & s3 & c3 & (d & -> & Hd & _) & (e & -> & He & _)).
  exists (String a (String b (String d (String e "")))).
  eexists. split; [reflexivity|].
  unfold Py.int_of_string, Py.is_digits. simpl. rewrite Ha, Hb, Hd, He. simpl.
  split; [reflexivity|].
  pose proof (digit_value_range _ Ha). pose proof (digit_value_range _ Hb).
  pose proof (digit_value_range _ Hd). pose proof (digit_value_range _ He).
  cbn [Py.digits_value].
  generalize dependent (Py.digit_value a).
  generalize dependent (Py.digit_value b).
  generalize dependent (Py.digit_value d).
  generalize dependent (Py.digit_value e). intros. lia.
Qed.

Lemma extract_quarter_values text_content q y :
  extract_quarter text_content = Some (Some (q, y)) ->
  (q = "Fall" \/ q = "Winter" \/ q = "Spring" \/ q = "Summer")
  /\ 0 <= y <= 9999.
Proof.
  unfold extract_quarter.
  destruct (search quarter_pattern text_content) as [m|] eqn:E; [|discriminate].
  apply search_sound in E as (s0 & s' & T).
  unfold quarter_pattern in T. cbn [cats] in T.
  destruct T as (s1 & c1 & (c0 & Tse & ->) & s2 & c2 & Tsp & c3 & Td & ->).
  assert (Gse : groupless seasons = true) by reflexivity.
  apply (trace_groupless _ Gse) in Tse as E0. subst c0.
  assert (Gsp : groupless spaces = true) by reflexivity.
  apply (trace_groupless _ Gsp) in Tsp. subst c2.
  assert (Gd : groupless (cats [digit; digit; digit; digit]) = true)
    by reflexivity.
  apply (trace_groupless _ Gd) in Td as E3. subst c3.
  apply season_title in Tse as (w1 & -> & Hw1).
  apply four_digits_value in Td as (w2 & y2 & -> & Hy & Hr).
  assert (Hl : forall a b : string,
             <[2%nat := a]> (<[1%nat := b]> (∅ : groups)) !! 1%nat = Some b).
  { intros a b. etrans; [apply lookup_insert_ne; lia|].
    apply lookup_insert_eq. }
  unfold group. rewrite Hl. simpl.
  rewrite lookup_insert_eq. simpl.
  rewrite !StrFacts.consumed_append, Hy. simpl.
  intros H. inversion H; subst. auto.
Qed.

(** *** The grade *)

Lemma extract_grade_values text_content g :
  extract_grade text_content = Some (Some g) -> grade_shape g.
Proof.
  unfold extract_grade.
  destruct (search grade_pattern text_content) as [m|] eqn:E; [|discriminate].
  apply search_sound in E as (s0 & s' & T).
  unfold grade_pattern in T. cbn [cats] in T.
  destruct T as (s1 & c1 & [-> ->] & s2 & c2 & (c0 & Talt & ->) & [-> ->]).
  unfold group. rewrite lookup_insert_eq. simpl.
  intros H. inversion H; subst g. clear H. unfold grade_shape.
  simpl in Talt.
  destruct Talt as [(s3 & c3 & (l & -> & Hl & _) & Hsign)|[Hp|Hnp]].
  - right. right. exists l. split; [exact Hl|].
    destruct Hsign as [(sg & -> & Hsg & _)|[-> _]].
    + change (String l (String sg s2)) with (String l (String sg "") ++ s2).
      rewrite StrFacts.consumed_append.
      unfold Chars.one_of in Hsg. simpl in Hsg.
      apply orb_prop in Hsg as [Hsg|Hsg].
      * apply Ascii.eqb_eq in Hsg as ->. auto.
      * apply orb_prop in Hsg as [Hsg|Hsg]; [|discriminate].
        apply Ascii.eqb_eq in Hsg as ->. auto.
    + change (String l s3) with (String l "" ++ s3).
      rewrite StrFacts.consumed_append. auto.
  - destruct Hp as (p & -> & Hp & _). apply Ascii.eqb_eq in Hp as ->.
    change (String "P" s2) with ("P" ++ s2).
    rewrite StrFacts.consumed_append. auto.
  - destruct Hnp as (s3 & c3 & (n & -> & Hn & _) & (p & -> & Hp & _)).
    apply Ascii.eqb_eq in Hn as ->. apply Ascii.eqb_eq in Hp as ->.
    change (String "N" (String "P" s2)) with ("NP" ++ s2).
    rewrite StrFacts.consumed_append. auto.
Qed.

End FieldFacts.

(** ** What every parsed record satisfies *)

Module ParserFields.
Import Scraper ScraperFacts FieldSpec FieldFacts Examples.

(** X6. The text of every record [_parse_review_element] returns has at
    most 500 characters, so that the cut [[:500]] the writer applies before
    it stores the text changes nothing. *)
Theorem parsed_text_is_short elem professor dept number r
    (H : _parse_review_element elem professor dept number = Some r) :
  (String.length (text r) <= 500)%nat /\ Str.take 500 (text r) = text r.
Proof.
  apply parsed_candidate in H as [H _].
  apply candidate_fields in H as (q & w & t & g & _ & _ & _ & _ & ->). simpl.
  destruct (review_text_is_cut elem) as [x ->].
  pose proof (take_length 500 x) as Hl. split; [exact Hl|].
  now apply take_all.
Qed.

Lemma parsed_text_is_short_witness :
  _parse_review_element [Text plain_text] "Smith" "MATH" "1" = Some plain_review
  /\ (String.length (text plain_review) <= 500)%nat
  /\ Str.take 500 (text plain_review) = text plain_review.
Proof.
  split; [vm_compute; reflexivity|].
  apply (parsed_text_is_short [Text plain_text] "Smith" "MATH" "1" plain_review).
  vm_compute. reflexivity.
Defined.

(** X7. The year of every record is between 0 and 9999, and a record
    without a term has the year 2024. *)
Theorem parsed_year_has_four_digits elem professor dept number r
    (H : _parse_review_element elem professor dept number = Some r) :
  0 <= year r <= 9999 /\ (quarter r = "" -> year r = 2024).
Proof.
  apply parsed_candidate in H as [H _].
  apply candidate_fields in H as (q & w & t & g & _ & _ & Ht & _ & ->). simpl.
  destruct t as [[s y]|]; simpl.
  - apply extract_quarter_values in Ht as [Hs Hy]. split; [exact Hy|].
    intros ->. destruct Hs as [Hs|[Hs|[Hs|Hs]]]; discriminate.
  - split; [lia | reflexivity].
Qed.

Lemma parsed_year_has_four_digits_witness :
  _parse_review_element [Text term_text] "Smith" "MATH" "1" = Some term_review
  /\ 0 <= year term_review <= 9999
  /\ (quarter term_review = "" -> year term_review = 2024).
Proof.
  split; [vm_compute; reflexivity|].
  apply (parsed_year_has_four_digits [Text term_text] "Smith" "MATH" "1"
           term_review).
  vm_compute. reflexivity.
Defined.

(** X8. The grade of every record is empty, [P], [NP], or one letter from
    [A] to [F] alone or followed by one sign [+] or [-]. *)
Theorem parsed_grade_is_a_grade elem professor dept number r
    (H : _parse_review_element elem professor dept number = Some r) :
  grade r = "" \/ grade_shape (grade r).
Proof.
  apply parsed_candidate in H as [H _].
  apply candidate_fields in H as (q & w & t & g & _ & _ & _ & Hg & ->). simpl.
  destruct g as [g|]; simpl; [|now left].
  right. now apply extract_grade_values in Hg.
Qed.

Lemma parsed_grade_is_a_grade_witness :
  _parse_review_element [Text plain_text] "Smith" "MATH" "1" = Some plain_review
  /\ (grade plain_review = "" \/ grade_shape (grade plain_review)).
Proof.
  split; [vm_compute; reflexivity|].
  apply (parsed_grade_is_a_grade [Text plain_text] "Smith" "MATH" "1"
           plain_review).
  vm_compute. reflexivity.
Defined.

End ParserFields.

(** ** Reading a page *)

Module FetcherFacts.
Import Scraper ScraperFacts FieldFacts Fetcher FetcherSpec.
#[local] Open Scope list_scope.

Lemma parsed_kept elem professor dept number r :
  _parse_review_element elem professor dept number = Some r ->
  Scraper.professor r = professor /\ kept dept number r.
Proof.
  intros H. pose proof (parsed_in_range _ _ _ _ _ H) as Hin.
  apply parsed_candidate in H as [H Hm].
  apply candidate_fields in H as (q & w & t & g & _ & _ & _ & _ & E).
  rewrite E in *. simpl. repeat split; auto; apply Hin.
Qed.

Lemma mean_positive_none rs :
  Forall (fun r => Py.lt Py.zero (Scraper.quality r) = false) rs ->
  mean_positive rs = Py.zero.
Proof.
  intros H. unfold mean_positive.
  assert (E : List.filter (fun q => Py.lt Py.zero q) (Scraper.quality <$> rs) = []).
  { induction H as [|r rs Hr _ IH]; [reflexivity|].
    rewrite fmap_cons. simpl. now rewrite Hr. }
  now rewrite E.
Qed.

(** what [_extract_professor_reviews] returns *)
Lemma extract_professor_spec sec dept number :
  match _extract_professor_reviews sec dept number with
  | None =>
      Forall (fun elem =>
                _parse_review_element elem (section_name sec) dept number = None)
             (review_elements sec)
  | Some pd =>
      name pd = section_name sec
      /\ reviews pd <> []
      /\ (forall r, r ∈ reviews pd <->
            exists elem, elem ∈ review_elements sec
              /\ _parse_review_element elem (name pd) dept number = Some r)
      /\ Forall (fun r => Scraper.professor r = name pd /\ kept dept number r)
                (reviews pd)
      /\ rating pd = mean_positive (reviews pd)
  end.
Proof.
  unfold _extract_professor_reviews.
  set (f := fun elem => _parse_review_element elem (section_name sec) dept number).
  destruct (omap f (review_elements sec)) as [|r rs] eqn:E.
  - apply Forall_forall. intros elem Hin.
    destruct (f elem) as [r|] eqn:Er; [|exact Er].
    assert (Hr : r ∈ omap f (review_elements sec))
      by (apply list_elem_of_omap; eauto).
    rewrite E in Hr. inversion Hr.
  - simpl. split; [reflexivity|]. split; [discriminate|]. split; [|split].
    + intros x. rewrite <- E. apply list_elem_of_omap.
    + apply Forall_forall. intros x Hx. rewrite <- E in Hx.
      apply list_elem_of_omap in Hx as (elem & _ & Hp).
      now apply parsed_kept in Hp.
    + reflexivity.
Qed.

(** what [get_course_reviews] returns *)
Lemma get_course_reviews_spec site dept number :
  match get_course_reviews site dept number with
  | None =>
      site (course_url dept number) = NotFound
      \/ site (course_url dept number) = Failed
      \/ exists p, site (course_url dept number) = Found p
           /\ Forall (fun sec => _extract_professor_reviews sec dept number = None)
                     (prof_sections p)
  | Some cd =>
      Fetcher.dept cd = dept /\ Fetcher.number cd = number
      /\ course_code cd = (dept ++ " " ++ number)%string
      /\ url cd = course_url dept number
      /\ total_reviews cd = length (all_reviews cd)
      /\ (0 < total_reviews cd)%nat
      /\ all_reviews cd = mjoin (reviews <$> professors cd)
      /\ Forall (fun pd => reviews pd <> []) (professors cd)
      /\ Forall (kept dept number) (all_reviews cd)
      /\ Forall (fun r => exists pd, pd ∈ professors cd
                            /\ Scraper.professor r = name pd)
                (all_reviews cd)
  end.
Proof.
  unfold get_course_reviews.
  destruct (site (course_url dept number)) as [| |p] eqn:Es; [auto..|].
  set (g := fun sec => _extract_professor_reviews sec dept number).
  assert (Hprofs : forall pd, pd ∈ omap g (prof_sections p) ->
            reviews pd <> []
            /\ Forall (fun r => Scraper.professor r = name pd
                                /\ kept dept number r) (reviews pd)).
  { intros pd Hpd. apply list_elem_of_omap in Hpd as (sec & _ & Hg).
    pose proof (extract_professor_spec sec dept number) as Hs.
    unfold g in Hg. rewrite Hg in Hs. tauto. }
  destruct (mjoin (reviews <$> omap g (prof_sections p))) as [|r rs] eqn:E.
  - right. right. exists p. split; [reflexivity|].
    apply Forall_forall. intros sec Hsec.
    destruct (g sec) as [pd|] eqn:Eg; [|exact Eg]. exfalso.
    assert (Hpd : pd ∈ omap g (prof_sections p))
      by (apply list_elem_of_omap; eauto).
    destruct (Hprofs pd Hpd) as [Hne _].
    apply join_nil_1 in E. rewrite Forall_forall in E.
    apply Hne, E, list_elem_of_fmap. eauto.
  - simpl. do 4 (split; [reflexivity|]). split; [reflexivity|].
    split; [simpl; lia|]. split; [now rewrite E|]. split; [|split].
    + apply Forall_forall. intros pd Hpd. now apply Hprofs.
    + rewrite <- E. apply Forall_forall. intros x Hx.
      apply list_elem_of_join in Hx as (l & Hx & Hl).
      apply list_elem_of_fmap in Hl as (pd & -> & Hpd).
      destruct (Hprofs pd Hpd) as [_ Hall]. rewrite Forall_forall in Hall.
      now apply Hall.
    + rewrite <- E. apply Forall_forall. intros x Hx.
      apply list_elem_of_join in Hx as (l & Hx & Hl).
      apply list_elem_of_fmap in Hl as (pd & -> & Hpd).
      destruct (Hprofs pd Hpd) as [_ Hall]. rewrite Forall_forall in Hall.
      exists pd. split; [exact Hpd|]. now apply Hall.
Qed.

End FetcherFacts.

(** ** A run of the enhancer *)

Module EnhancerFacts.
Import Db Saver Spec SaverFacts StoreFacts Fetcher FetcherSpec FetcherFacts
       Enhancer.
#[local] Open Scope list_scope.

Lemma omap_length_le {X Y} (f : X -> option Y) l :
  (length (omap f l) <= length l)%nat.
Proof.
  induction l as [|x l IH]; [simpl; lia|].
  change (omap f (x :: l))
    with (match f x with Some y => y :: omap f l | None => omap f l end).
  destruct (f x); simpl length; lia.
Qed.

Lemma enhance_loop_run site cs : forall k con,
  enhance_loop site cs k con
  = ((k + length (calls_of site cs))%nat, run (calls_of site cs) con).
Proof.
  induction cs as [|c cs IH]; intros k con; simpl.
  - now rewrite Nat.add_0_r.
  - unfold calls_of in *. simpl.
    destruct (get_course_reviews site (Enhancer.dept c) (Enhancer.number c))
      as [d|]; [|apply IH].
    destruct (all_reviews d) as [|r rs] eqn:E; [apply IH|].
    rewrite IH. simpl. f_equal. lia.
Qed.

Lemma existing_courses_length t limit :
  (length (existing_courses t limit) <= limit)%nat
  /\ (length (existing_courses t limit) <= length (courses t))%nat.
Proof.
  unfold existing_courses. rewrite length_take, merge_sort_Permutation.
  pose proof (sublist_length _ _
                (RankingFacts.distinct_sublist (of_row <$> courses t))) as H.
  rewrite length_fmap in H. lia.
Qed.

Lemma existing_courses_rows t limit c :
  c ∈ existing_courses t limit -> exists row, row ∈ courses t /\ c = of_row row.
Proof.
  unfold existing_courses. intros H.
  apply elem_of_take in H as (i & Hi & _). apply list_elem_of_lookup_2 in Hi.
  rewrite merge_sort_Permutation, RankingFacts.elem_of_distinct in Hi.
  apply list_elem_of_fmap in Hi as (row & -> & Hrow). eauto.
Qed.

Lemma calls_of_elem site cs call :
  call ∈ calls_of site cs ->
  exists c d, c ∈ cs
    /\ get_course_reviews site (Enhancer.dept c) (Enhancer.number c) = Some d
    /\ call = (to_saver d, Enhancer.ge_area c).
Proof.
  unfold calls_of. intros H. apply list_elem_of_omap in H as (c & Hc & H).
  destruct (get_course_reviews site (Enhancer.dept c) (Enhancer.number c))
    as [d|] eqn:E; [|discriminate].
  destruct (all_reviews d); [discriminate|]. inversion H. eauto.
Qed.

(** what the page reader hands to the writer *)
Lemma calls_of_kept site cs call :
  call ∈ calls_of site cs ->
  Forall in_range (Saver.reviews call.1)
  /\ exists c, c ∈ cs /\ Saver.dept call.1 = Enhancer.dept c
               /\ Saver.number call.1 = Enhancer.number c.
Proof.
  intros H. apply calls_of_elem in H as (c & d & Hc & Hg & ->). simpl.
  pose proof (get_course_reviews_spec site (Enhancer.dept c) (Enhancer.number c))
    as Hs.
  rewrite Hg in Hs.
  destruct Hs as (Hd & Hn & _ & _ & _ & _ & _ & _ & Hk & _).
  split; [|eauto].
  eapply Forall_impl; [exact Hk|]. intros r Hr. apply Hr.
Qed.

Lemma find_course_is_Some t row d n :
  row ∈ courses t -> Courses.dept row = d -> Courses.number row = n ->
  is_Some (find_course t d n).
Proof.
  intros Hin Hd Hn. unfold find_course.
  destruct (List.find _ (courses t)) as [c|] eqn:E; [simpl; eauto|].
  exfalso. apply list_elem_of_In in Hin.
  pose proof (List.find_none _ _ E _ Hin) as Hf. simpl in Hf.
  rewrite Hd, Hn, !String.eqb_refl in Hf. discriminate.
Qed.

Lemma run_courses_unchanged calls : forall con,
  (forall call, call ∈ calls ->
     exists row, row ∈ courses (store con)
       /\ Courses.dept row = Saver.dept call.1
       /\ Courses.number row = Saver.number call.1) ->
  courses (store (run calls con)) = courses (store con).
Proof.
  induction calls as [|[cd ge] rest IH]; intros con H; simpl; [reflexivity|].
  assert (E : courses (store (_save_course_to_db cd ge con))
              = courses (store con)).
  { destruct (H (cd, ge)) as (row & Hrow & Hd & Hn); [now left|].
    simpl in Hd, Hn.
    pose proof (save_course_courses cd ge con) as Hc.
    destruct (find_course_is_Some _ _ _ _ Hrow Hd Hn) as [cid Hcid].
    now rewrite Hcid in Hc. }
  rewrite IH, E; [reflexivity|].
  intros call Hcall. rewrite E. apply H. now right.
Qed.

Lemma run_counts calls : forall con,
  (forall call, call ∈ calls -> Forall in_range (Saver.reviews call.1)) ->
  length (sections (store (run calls con)))
  = (length (sections (store con)) + reviews_of calls)%nat
  /\ length (Db.reviews (store (run calls con)))
     = (length (Db.reviews (store con)) + reviews_of calls)%nat.
Proof.
  induction calls as [|[cd ge] rest IH]; intros con H; simpl.
  - unfold reviews_of. simpl. lia.
  - destruct (IH (_save_course_to_db cd ge con)) as [Hs Hr].
    { intros call Hc. apply H. now right. }
    destruct (save_course_counts cd ge con) as [Hs1 Hr1].
    { apply (H (cd, ge)). now left. }
    unfold reviews_of in *. simpl. lia.
Qed.

End EnhancerFacts.

(** ** Claims about the page reader and the enhancer *)

Module PipelineClaims.
Import Db Saver Spec StoreSpec Fetcher FetcherSpec FetcherFacts Enhancer
       EnhancerFacts.
#[local] Open Scope list_scope.

(** X9. [_extract_professor_reviews] returns nothing exactly when none of
    the review elements of the section yields a record.  Otherwise the
    professor has at least one review, the reviews are the records of the
    elements, and each of them carries the name of the section (or
    [Unknown]) and the department and number of the call, has its ratings in
    range and passes the acceptance rule. *)
Theorem professor_reviews_are_kept sec dept number :
  match _extract_professor_reviews sec dept number with
  | None =>
      Forall (fun elem =>
                Scraper._parse_review_element elem (section_name sec) dept number
                = None)
             (review_elements sec)
  | Some pd =>
      name pd = section_name sec
      /\ reviews pd <> []
      /\ (forall r, r ∈ reviews pd <->
            exists elem, elem ∈ review_elements sec
              /\ Scraper._parse_review_element elem (name pd) dept number
                 = Some r)
      /\ Forall (fun r => Scraper.professor r = name pd /\ kept dept number r)
                (reviews pd)
      /\ (Forall (fun r => Py.lt Py.zero (Scraper.quality r) = false)
                 (reviews pd) -> rating pd = Py.zero)
  end.
Proof.
  pose proof (extract_professor_spec sec dept number) as H.
  destruct (_extract_professor_reviews sec dept number) as [pd|]; [|exact H].
  destruct H as (H1 & H2 & H3 & H4 & H5).
  repeat split; try assumption; try apply H3.
  intros Hz. rewrite H5. now apply mean_positive_none.
Qed.

(** X10. [get_course_reviews] reads the professor sections under the first
    of the three selectors that finds any.  It returns nothing when the
    site answers 404 or the request fails, and, for a page, exactly when no
    professor section of the page yields a review.  Otherwise the
    professors of the data are those of the sections that yield reviews, in
    the order of the page, the reviews are theirs in that order, the title
    is that of the page, the data carry the department, the number and the
    URL of the call, the count [total_reviews] is the number of the reviews
    and is positive, no professor is without reviews, every review is a
    kept record of the course under the name of one of the professors, and
    the overall rating is 0.0 when no review has a positive quality. *)
Theorem course_reviews_are_kept site dept number :
  (forall p,
     (class_sections p <> [] -> prof_sections p = class_sections p)
     /\ (class_sections p = [] -> attr_sections p <> [] ->
         prof_sections p = attr_sections p)
     /\ (class_sections p = [] -> attr_sections p = [] ->
         prof_sections p = h3_sections p))
  /\ match site (course_url dept number) with
     | NotFound | Failed => get_course_reviews site dept number = None
     | Found p =>
         let found :=
           omap (fun sec => _extract_professor_reviews sec dept number)
                (prof_sections p) in
         match get_course_reviews site dept number with
         | None =>
             found = []
             /\ Forall (fun sec =>
                          _extract_professor_reviews sec dept number = None)
                       (prof_sections p)
         | Some cd =>
             found <> []
             /\ professors cd = found
             /\ all_reviews cd = mjoin (reviews <$> found)
             /\ Fetcher.title cd = page_title p
             /\ Fetcher.dept cd = dept /\ Fetcher.number cd = number
             /\ course_code cd = (dept ++ " " ++ number)%string
             /\ url cd = course_url dept number
             /\ total_reviews cd = length (all_reviews cd)
             /\ (0 < total_reviews cd)%nat
             /\ Forall (fun pd => reviews pd <> []) (professors cd)
             /\ Forall (kept dept number) (all_reviews cd)
             /\ Forall (fun r => exists pd, pd ∈ professors cd
                                   /\ Scraper.professor r = name pd)
                       (all_reviews cd)
             /\ (Forall (fun r => Py.lt Py.zero (Scraper.quality r) = false)
                        (all_reviews cd) ->
                 overall_rating cd = Py.zero)
         end
     end.
Proof.
  split.
  { intros p. unfold prof_sections.
    destruct (class_sections p), (attr_sections p); repeat split; congruence. }
  pose proof (get_course_reviews_spec site dept number) as S.
  unfold get_course_reviews in *.
  destruct (site (course_url dept number)) as [| |p] eqn:Es;
    [reflexivity..|].
  set (found := omap (fun sec => _extract_professor_reviews sec dept number)
                     (prof_sections p)) in *.
  destruct (mjoin (reviews <$> found)) as [|r rs] eqn:E; simpl.
  - destruct S as [S|[S|(p' & [= <-] & S)]]; [discriminate..|].
    split; [|exact S]. unfold found. clear -S.
    induction S as [|sec secs Hsec _ IH]; [reflexivity|].
    simpl. now rewrite Hsec.
  - simpl in S.
    destruct S as (_ & _ & _ & _ & _ & H0 & _ & H1 & H2 & H3).
    split; [intros Hf; rewrite Hf in E; discriminate|].
    do 7 (split; [reflexivity|]). split; [reflexivity|].
    split; [exact H0|]. split; [exact H1|]. split; [exact H2|].
    split; [exact H3|]. apply mean_positive_none.
Qed.

(** X11. [enhance_existing_courses] calls the writer once for every
    selected course the site has reviews for, in the order of the courses,
    and returns the number of these calls, which is at most [limit] and at
    most the number of rows of the courses table. *)
Theorem enhance_counts_the_calls site limit con :
  let calls := calls_of site (existing_courses (store con) limit) in
  enhance_existing_courses site limit con = (length calls, run calls con)
  /\ (length calls <= limit)%nat
  /\ (length calls <= length (courses (store con)))%nat.
Proof.
  intros calls. unfold enhance_existing_courses.
  rewrite enhance_loop_run. fold calls. split; [reflexivity|].
  pose proof (omap_length_le
                (fun c =>
                   match get_course_reviews site (Enhancer.dept c)
                           (Enhancer.number c) with
                   | Some d => match all_reviews d with
                               | [] => None
                               | _ => Some (to_saver d, Enhancer.ge_area c)
                               end
                   | None => None
                   end) (existing_courses (store con) limit)) as H.
  destruct (existing_courses_length (store con) limit) as [H1 H2].
  unfold calls, calls_of. lia.
Qed.

(** X12. A run of [enhance_existing_courses] adds no course: every course
    it saves reviews for is found in the courses table.  It adds exactly one
    section and one review for every review the page reader returned (the
    exception handler of the writer is never entered), whatever the site
    answers. *)
Theorem enhance_adds_reviews_only site limit con :
  let calls := calls_of site (existing_courses (store con) limit) in
  let con' := (enhance_existing_courses site limit con).2 in
  courses (store con') = courses (store con)
  /\ length (sections (store con'))
     = (length (sections (store con)) + reviews_of calls)%nat
  /\ length (Db.reviews (store con'))
     = (length (Db.reviews (store con)) + reviews_of calls)%nat.
Proof.
  intros calls con'.
  assert (E : con' = run calls con).
  { unfold con', enhance_existing_courses. now rewrite enhance_loop_run. }
  rewrite E. split.
  - apply run_courses_unchanged. intros call Hcall.
    apply calls_of_kept in Hcall as (_ & c & Hc & Hd & Hn).
    apply existing_courses_rows in Hc as (row & Hrow & ->).
    exists row. rewrite Hd, Hn. auto.
  - apply run_counts. intros call Hcall.
    now apply calls_of_kept in Hcall as [H _].
Qed.

End PipelineClaims.

(** ** More about the ranking and the sidebar *)

Module RankingMore.
Import Db Sql Ranking RankingFacts Sidebar Examples.
#[local] Open Scope list_scope.

(** X13. The ranking query lists what the store holds: every row names a
    course of the requested area and a professor of the store such that a
    section of the store joins the two and has a review; its review count
    is at least 1. *)
Theorem ranked_rows_come_from_the_store (A : arith)
    t area min_reviews min_q max_w top_n row
    (H : row ∈ ranked_query A t area min_reviews min_q max_w top_n) :
  (exists c s p r,
     c ∈ courses t /\ s ∈ sections t /\ p ∈ professors t /\ r ∈ reviews t
     /\ Courses.ge_area c = area
     /\ Sections.course_id s = Courses.course_id c
     /\ Sections.prof_id s = Professors.prof_id p
     /\ Reviews.section_id r = Sections.section_id s
     /\ course_code row = (Courses.dept c ++ " " ++ Courses.number c)%string
     /\ title row = Courses.title c
     /\ professor row = Professors.name p)
  /\ 1 <= review_count row.
Proof.
  apply ranked_rows in H as (k & Hk & ->).
  apply list_elem_of_fmap in Hk as ([[[c s] p] r] & -> & Hx).
  pose proof Hx as Hj. apply joined_elem in Hj
    as (Hc & Hs & Hp & Hr & H1 & H2 & H3 & H4).
  split.
  - exists c, s, p, r. simpl. repeat split; auto.
  - simpl.
    assert (Hin : (c, s, p, r)
                  ∈ filter (fun x => key_of x = key_of (c, s, p, r))
                           (joined t area)).
    { apply list_elem_of_filter. auto. }
    destruct (filter _ (joined t area)) as [|x l]; [inversion Hin|].
    simpl. lia.
Qed.

Lemma ranked_rows_come_from_the_store_witness :
  let row : summary exact :=
    @Summary exact "MATH 1" "Calculus" "Lee" 3
             (400 # 100)%Q (400 # 100)%Q (490 # 100)%Q in
  row ∈ ranked_query exact scenario "Science" 1 (5 # 2)%Q 8%Q 20
  /\ 1 <= review_count row.
Proof.
  intros row.
  assert (H : row ∈ ranked_query exact scenario "Science" 1 (5 # 2)%Q 8%Q 20).
  { apply (list_elem_of_lookup_2 _ 0%nat). vm_compute. reflexivity. }
  split; [exact H|].
  exact (proj2 (ranked_rows_come_from_the_store exact scenario "Science" 1
                  (5 # 2)%Q 8%Q 20%nat row H)).
Defined.

(** X14. With a limit that is not smaller than their number, the ranking
    query lists every group that passes the filters. *)
Theorem ranking_is_complete (A : arith) t area min_reviews min_q max_w top_n g
    (Hg : g ∈ course_stats A t area min_reviews)
    (Hq : leb A min_q (CourseStats.avg_quality g) = true)
    (Hw : leb A (CourseStats.avg_workload g) max_w = true)
    (Hn : (length (course_stats A t area min_reviews) <= top_n)%nat) :
  select A g ∈ ranked_query A t area min_reviews min_q max_w top_n.
Proof.
  unfold ranked_query. rewrite take_ge.
  - rewrite merge_sort_Permutation. apply list_elem_of_fmap.
    exists g. split; [reflexivity|]. apply list_elem_of_filter. auto.
  - rewrite merge_sort_Permutation, length_fmap.
    etrans; [apply sublist_length, sublist_filter | exact Hn].
Qed.

Lemma ranking_is_complete_witness :
  let g : CourseStats.row exact :=
    group_stats exact (joined scenario "Science")
                (Courses.Row 1 "MATH" "1" "Calculus" "Science", "Lee") in
  g ∈ course_stats exact scenario "Science" 1
  /\ Qle_bool (5 # 2) (CourseStats.avg_quality g) = true
  /\ Qle_bool (CourseStats.avg_workload g) 8 = true
  /\ (length (course_stats exact scenario "Science" 1) <= 20)%nat
  /\ select exact g ∈ ranked_query exact scenario "Science" 1 (5 # 2)%Q 8%Q 20.
Proof.
  intros g.
  assert (Hg : g ∈ course_stats exact scenario "Science" 1).
  { apply (list_elem_of_lookup_2 _ 0%nat). vm_compute. reflexivity. }
  assert (Hq : Qle_bool (5 # 2) (CourseStats.avg_quality g) = true)
    by (vm_compute; reflexivity).
  assert (Hw : Qle_bool (CourseStats.avg_workload g) 8 = true)
    by (vm_compute; reflexivity).
  assert (Hn : (length (course_stats exact scenario "Science" 1) <= 20)%nat)
    by (vm_compute; lia).
  repeat (split; [assumption|]).
  exact (ranking_is_complete exact scenario "Science" 1 (5 # 2)%Q 8%Q 20%nat
           g Hg Hq Hw Hn).
Defined.

(** X15. The areas of the sidebar are sorted and pairwise distinct; an
    area is listed exactly when it is not empty and a course of the table
    has it, that is when its course count is positive.  For a listed area
    and a store without reviews the page shows at least one row as soon as
    the limit is positive. *)
Theorem areas_are_the_areas_of_courses t :
  StronglySorted String.le (areas t)
  /\ NoDup (areas t)
  /\ (forall a, a ∈ areas t <->
        a <> "" /\ (0 < course_count_for_area t a)%nat)
  /\ (forall (A : arith) a min_reviews min_q max_w top_n,
        a ∈ areas t -> total_review_count t = 0%nat -> (0 < top_n)%nat ->
        rank A t a min_reviews min_q max_w top_n <> []).
Proof.
  assert (Hmem : forall a, a ∈ areas t <->
            a <> "" /\ (0 < course_count_for_area t a)%nat).
  { intros a. unfold areas, course_count_for_area.
    rewrite merge_sort_Permutation, elem_of_distinct, list_elem_of_filter,
      list_elem_of_fmap.
    split.
    - intros (Hne & c & -> & Hc). split; [exact Hne|].
      assert (Hin : c ∈ filter (fun c' => Courses.ge_area c' = Courses.ge_area c)
                               (courses t))
        by (apply list_elem_of_filter; auto).
      destruct (filter _ (courses t)); [inversion Hin | simpl; lia].
    - intros (Hne & Hlen). split; [exact Hne|].
      destruct (filter (fun c => Courses.ge_area c = a) (courses t))
        as [|c l] eqn:E; [simpl in Hlen; lia|].
      assert (Hin : c ∈ filter (fun c => Courses.ge_area c = a) (courses t))
        by (rewrite E; left).
      apply list_elem_of_filter in Hin as [Ha Hc]. eauto. }
  split; [apply StronglySorted_merge_sort; apply _|].
  split; [unfold areas; rewrite merge_sort_Permutation; apply NoDup_distinct|].
  split; [exact Hmem|].
  intros A a min_reviews min_q max_w top_n Ha Hz Hn.
  apply Hmem in Ha as [_ Hc]. unfold course_count_for_area in Hc.
  unfold rank. rewrite Hz. simpl. unfold fallback_query.
  set (cs := filter (fun c => Courses.ge_area c = a) (courses t)) in *.
  assert (Hs : length (merge_sort by_dept_number cs) = length cs)
    by now rewrite merge_sort_Permutation.
  destruct (merge_sort by_dept_number cs) as [|c l]; [simpl in Hs; lia|].
  destruct top_n; [lia|]. discriminate.
Qed.

End RankingMore.

(** ** Strings: case, white space and separators *)

Module TextFacts.
Import Chars Str Text TextSpec StrFacts.

Lemma append_nil_r (s : string) : s ++ "" = s.
Proof.
  induction s as [|c s IH]; [reflexivity|]. rewrite append_cons. now f_equal.
Qed.

Lemma of_list_app (l1 l2 : list ascii) :
  string_of_list_ascii (l1 ++ l2)%list
  = string_of_list_ascii l1 ++ string_of_list_ascii l2.
Proof.
  induction l1 as [|c l1 IH]; [reflexivity|].
  simpl. rewrite append_cons. now f_equal.
Qed.

Lemma rev_cons c s : rev (String c s) = rev s ++ String c "".
Proof. unfold rev. simpl. now rewrite of_list_app. Qed.

Lemma rev_append a b : rev (a ++ b) = rev b ++ rev a.
Proof.
  induction a as [|c a IH].
  - rewrite append_nil. change (rev "") with "". now rewrite append_nil_r.
  - rewrite append_cons, !rev_cons, IH. apply append_assoc.
Qed.

Lemma rev_involutive s : rev (rev s) = s.
Proof.
  induction s as [|c s IH]; [reflexivity|].
  rewrite rev_cons, rev_append, IH. reflexivity.
Qed.

Lemma all_append p a b : all p (a ++ b) = all p a && all p b.
Proof.
  induction a as [|c a IH]; [reflexivity|].
  rewrite append_cons. simpl. rewrite IH. now destruct (p c).
Qed.

Lemma all_rev p s : all p (rev s) = all p s.
Proof.
  induction s as [|c s IH]; [reflexivity|].
  rewrite rev_cons, all_append, IH. simpl. now destruct (p c), (all p s).
Qed.

Lemma drop_while_all p a x : all p a = true -> drop_while p (a ++ x) = drop_while p x.
Proof.
  induction a as [|c a IH]; [reflexivity|].
  rewrite append_cons. simpl. destruct (p c); [|discriminate]. exact IH.
Qed.

Lemma drop_while_append p s b :
  drop_while p (s ++ b)
  = match drop_while p s with
    | EmptyString => drop_while p b
    | t => t ++ b
    end.
Proof.
  induction s as [|c s IH]; [reflexivity|].
  rewrite append_cons. simpl. destruct (p c); [exact IH | reflexivity].
Qed.

Lemma drop_while_blank p b : all p b = true -> drop_while p b = "".
Proof.
  induction b as [|c b IH]; [reflexivity|].
  simpl. destruct (p c); [exact IH | discriminate].
Qed.

(** white space around a string does not change what [strip] returns *)
Lemma strip_padded a s b : blank a -> blank b -> strip (a ++ s ++ b) = strip s.
Proof.
  unfold blank, strip. intros Ha Hb.
  rewrite (drop_while_all _ a _ Ha), drop_while_append.
  destruct (drop_while is_space s) as [|c t] eqn:E.
  - now rewrite (drop_while_blank _ b Hb).
  - rewrite rev_append, drop_while_all; [reflexivity|].
    now rewrite all_rev.
Qed.

Lemma lower_char_idem c : lower_char (lower_char c) = lower_char c.
Proof. destruct c as [[] [] [] [] [] [] [] []]; vm_compute; reflexivity. Qed.

Lemma lower_char_space c : is_space (lower_char c) = is_space c.
Proof. destruct c as [[] [] [] [] [] [] [] []]; vm_compute; reflexivity. Qed.

Lemma lower_char_not_upper c : is_upper (lower_char c) = false.
Proof. destruct c as [[] [] [] [] [] [] [] []]; vm_compute; reflexivity. Qed.

Lemma lower_append a b : lower (a ++ b) = lower a ++ lower b.
Proof.
  unfold lower. induction a as [|c a IH]; [reflexivity|].
  rewrite append_cons. simpl. rewrite append_cons. now f_equal.
Qed.

Lemma lower_idem s : lower (lower s) = lower s.
Proof.
  unfold lower. induction s as [|c s IH]; [reflexivity|].
  simpl. now rewrite lower_char_idem, IH.
Qed.

Lemma lower_rev s : rev (lower s) = lower (rev s).
Proof.
  induction s as [|c s IH]; [reflexivity|].
  change (lower (String c s)) with (String (lower_char c) (lower s)).
  rewrite !rev_cons, lower_append, IH. reflexivity.
Qed.

Lemma lower_drop_while s :
  drop_while is_space (lower s) = lower (drop_while is_space s).
Proof.
  induction s as [|c s IH]; [reflexivity|].
  change (lower (String c s)) with (String (lower_char c) (lower s)).
  simpl. rewrite lower_char_space. destruct (is_space c); [exact IH | reflexivity].
Qed.

(** [strip] and [lower] commute *)
Lemma lower_strip s : strip (lower s) = lower (strip s).
Proof.
  unfold strip.
  now rewrite lower_drop_while, lower_rev, lower_drop_while, lower_rev.
Qed.

Lemma lower_free_of_upper s : free_of is_upper (lower s).
Proof.
  unfold free_of, lower. induction s as [|c s IH]; [reflexivity|].
  simpl. now rewrite lower_char_not_upper, IH.
Qed.

Lemma replace_free_of p a b s :
  free_of p b -> free_of p s -> free_of p (replace a b s).
Proof.
  unfold free_of. intros Hb. induction s as [|c s IH]; [reflexivity|].
  simpl. intros H. apply andb_prop in H as [Hc Hs].
  destruct (Ascii.eqb c a).
  - rewrite all_append, Hb. now apply IH.
  - simpl. rewrite Hc. now apply IH.
Qed.

(** nothing of [a] is left after [replace a b] when [b] is free of it *)
Lemma replace_removes a b s :
  free_of (fun c => Ascii.eqb c a) b ->
  free_of (fun c => Ascii.eqb c a) (replace a b s).
Proof.
  unfold free_of. intros Hb. induction s as [|c s IH]; [reflexivity|].
  simpl. destruct (Ascii.eqb c a) eqn:E.
  - now rewrite all_append, Hb.
  - simpl. now rewrite E.
Qed.

Lemma prefix_spec sep : forall s,
  String.prefix sep s = true <-> exists r, s = sep ++ r.
Proof.
  induction sep as [|c sep IH]; intros s.
  - split; [intros _; now exists s | intros _; now destruct s].
  - destruct s as [|d s]; simpl.
    + split; [discriminate | intros [r H]; discriminate].
    + destruct (Ascii.ascii_dec c d) as [->|Hn].
      * rewrite IH. split; intros [r H]; exists r.
        -- rewrite append_cons. now f_equal.
        -- rewrite append_cons in H. now inversion H.
      * split; [discriminate|]. intros [r H]. rewrite append_cons in H.
        inversion H. congruence.
Qed.

Lemma drop_append sep r : drop (String.length sep) (sep ++ r) = r.
Proof. induction sep as [|c sep IH]; [now destruct r | exact IH]. Qed.

Lemma prefix_drop sep s :
  String.prefix sep s = true -> s = sep ++ drop (String.length sep) s.
Proof.
  intros H. apply prefix_spec in H as [r ->]. now rewrite drop_append.
Qed.

Lemma after_first_eq sep s :
  after_first sep s
  = if String.prefix sep s then Some (drop (String.length sep) s)
    else match s with
         | EmptyString => None
         | String _ s' => after_first sep s'
         end.
Proof. destruct s; reflexivity. Qed.

(** [after_first] cuts at the first occurrence of the separator *)
Lemma after_first_Some sep : forall s r,
  after_first sep s = Some r ->
  exists pre, s = pre ++ sep ++ r
    /\ forall a b, s = a ++ sep ++ b -> (String.length pre <= String.length a)%nat.
Proof.
  induction s as [|c s IH]; intros r; rewrite after_first_eq;
    destruct (String.prefix sep _) eqn:E.
  - intros [= <-]. exists "". split; [now apply prefix_drop | simpl; lia].
  - discriminate.
  - intros [= <-]. exists "". split; [now apply prefix_drop | simpl; lia].
  - intros H. apply IH in H as (pre & -> & Hmin). exists (String c pre).
    split; [reflexivity|]. intros [|c' a] b Hab.
    + rewrite append_nil in Hab.
      assert (String.prefix sep (String c (pre ++ sep ++ r)) = true)
        by (apply prefix_spec; eauto).
      congruence.
    + rewrite append_cons in Hab. inversion Hab as [[Hc Hs]].
      specialize (Hmin _ _ Hs). simpl. lia.
Qed.

Lemma after_first_None sep : forall s,
  after_first sep s = None -> ~ occurs sep s.
Proof.
  induction s as [|c s IH]; rewrite after_first_eq;
    destruct (String.prefix sep _) eqn:E; try discriminate;
    intros H ([|c' a] & b & Hab).
  - rewrite append_nil in Hab.
    assert (String.prefix sep "" = true) by (apply prefix_spec; eauto).
    congruence.
  - discriminate.
  - rewrite append_nil in Hab.
    assert (String.prefix sep (String c s) = true) by (apply prefix_spec; eauto).
    congruence.
  - rewrite append_cons in Hab. inversion Hab as [[Hc Hs]].
    apply (IH H). now exists a, b.
Qed.

End TextFacts.

(** ** The address and the title of a course page *)

Module PageClaims.
Import Chars Str Text TextSpec StrFacts TextFacts Fetcher.

(** X16. The address of a course does not depend on the case of the
    letters nor on white space around the department and the number: the
    slug of a padded department and number is that of the bare ones, and the
    slug of the lower-cased ones is the same. *)
Theorem slug_ignores_case_and_padding dept number a b c d
    (Ha : blank a) (Hb : blank b) (Hc : blank c) (Hd : blank d) :
  course_to_url_slug (a ++ dept ++ b) (c ++ number ++ d)
  = course_to_url_slug dept number
  /\ course_to_url_slug (lower dept) (lower number)
     = course_to_url_slug dept number
  /\ course_to_url_slug (lower (a ++ dept ++ b)) (lower (c ++ number ++ d))
     = course_to_url_slug dept number.
Proof.
  assert (Hl : forall x y, course_to_url_slug (lower x) (lower y)
                           = course_to_url_slug x y).
  { intros x y. unfold course_to_url_slug.
    now rewrite !lower_strip, !lower_idem. }
  assert (Hp : course_to_url_slug (a ++ dept ++ b) (c ++ number ++ d)
               = course_to_url_slug dept number).
  { unfold course_to_url_slug. now rewrite !strip_padded. }
  split; [exact Hp|]. split; [apply Hl|]. now rewrite Hl.
Qed.

Lemma slug_ignores_case_and_padding_witness :
  (blank " " /\ blank "  " /\ blank "" /\ blank " ")
  /\ course_to_url_slug (" " ++ "Com Sci" ++ "  ") ("" ++ "174A" ++ " ")
     = course_to_url_slug "Com Sci" "174A"
  /\ course_to_url_slug (lower "Com Sci") (lower "174A")
     = course_to_url_slug "Com Sci" "174A"
  /\ course_to_url_slug (lower (" " ++ "Com Sci" ++ "  "))
                        (lower ("" ++ "174A" ++ " "))
     = course_to_url_slug "Com Sci" "174A".
Proof.
  split; [repeat split; reflexivity|].
  exact (slug_ignores_case_and_padding "Com Sci" "174A" " " "  " "" " "
           eq_refl eq_refl eq_refl eq_refl).
Defined.

(** X17. The slug has no ASCII capital, and it is a department part, a
    hyphen and a number part, where the department part has no space and no
    ampersand and the number part is the lower-cased number without the
    white space around it. *)
Theorem slug_is_clean dept number :
  free_of is_upper (course_to_url_slug dept number)
  /\ exists d,
       course_to_url_slug dept number = d ++ "-" ++ lower (strip number)
       /\ free_of (fun c => Ascii.eqb c " ") d
       /\ free_of (fun c => Ascii.eqb c "&") d.
Proof.
  unfold course_to_url_slug. split.
  - unfold free_of. rewrite !all_append.
    pose proof (replace_free_of is_upper "&" "and"
                  (replace " " "-" (lower (strip dept))) eq_refl
                  (replace_free_of is_upper " " "-" _ eq_refl
                     (lower_free_of_upper _))) as H1.
    unfold free_of in H1. rewrite H1.
    pose proof (lower_free_of_upper (strip number)) as H2.
    unfold free_of in H2. now rewrite H2.
  - eexists. split; [reflexivity|]. split.
    + apply replace_free_of; [reflexivity|]. now apply replace_removes.
    + now apply replace_removes.
Qed.

(** X18. The title of a page without a heading is empty.  Otherwise it is
    the heading without the white space around it when [" - "] does not
    occur in it, and what follows the first [" - "] when it does. *)
Theorem title_follows_first_separator p :
  match title_elem p with
  | None => page_title p = ""
  | Some t =>
      (~ occurs " - " (strip t) /\ page_title p = strip t)
      \/ exists pre,
           strip t = pre ++ " - " ++ page_title p
           /\ forall a b, strip t = a ++ " - " ++ b ->
                (String.length pre <= String.length a)%nat
  end.
Proof.
  unfold page_title. destruct (title_elem p) as [t|]; [|reflexivity].
  destruct (after_first " - " (strip t)) as [r|] eqn:E.
  - right. now apply after_first_Some.
  - left. split; [now apply after_first_None | reflexivity].
Qed.

End PageClaims.
